(** * Spectral-Gate: the numeric decision core, embedded in Rocq

    A shallow embedding of the core of the vibration-anomaly sensor node:
    - [hal/hal_interface.h]  : Q15.16 fixed-point primitives and constants;
    - [core/decision.cpp]    : the battery-aware decision policy;
    - [core/spectral.cpp]    : the bounded magnitude spectrum and its features;
    - [core/inference.cpp]   : the quantized single-layer classifier.

    Machine integers are [Z] with their wrap-around written out.  Code that
    can leave the defined behaviour of C++ (a division by zero, a read or a
    write outside an object) returns in the [outcome] monad. *)

From Stdlib Require Import ZArith List Lia Bool.
From Stdlib Require Import Floats.SpecFloat.
From Stdlib Require Strings.String.
Import ListNotations.
Local Open Scope Z_scope.

(* ================================================================= *)
(** ** Machine integers *)

Module Machine.

(** Unsigned [w]-bit wrap-around. *)
Definition wrap_unsigned (w x : Z) : Z := x mod 2 ^ w.

(** Two's complement [w]-bit wrap-around. *)
Definition wrap_signed (w x : Z) : Z :=
  (x + 2 ^ (w - 1)) mod 2 ^ w - 2 ^ (w - 1).

(** [size_t] on the Cortex-M deployment target ([hal_stm32.cpp]). *)
Definition SIZE_BITS : Z := 32.

Definition to_uint8 : Z -> Z := wrap_unsigned 8.
Definition to_uint32 : Z -> Z := wrap_unsigned 32.
Definition to_size : Z -> Z := wrap_unsigned SIZE_BITS.
Definition to_int32 : Z -> Z := wrap_signed 32.
Definition to_int64 : Z -> Z := wrap_signed 64.

Definition SIZE_MAX : Z := 2 ^ SIZE_BITS - 1.

Definition is_int8 (x : Z) : Prop := -128 <= x <= 127.
Definition is_int16 (x : Z) : Prop := -32768 <= x <= 32767.
Definition is_int32 (x : Z) : Prop := - 2 ^ 31 <= x < 2 ^ 31.
Definition is_uint32 (x : Z) : Prop := 0 <= x < 2 ^ 32.
Definition is_size (x : Z) : Prop := 0 <= x <= SIZE_MAX.

(** A [fixed_t] that is not negative. *)
Definition is_magnitude (x : Z) : Prop := 0 <= x < 2 ^ 31.

End Machine.
Export Machine.

(* ================================================================= *)
(** ** Outcomes of a call *)

(** What a call can do besides returning. *)
Inductive fault : Type :=
| DivByZero      (* integer division by zero *)
| DivOverflow    (* INT_MIN / -1 *)
| BadRead        (* read of a null pointer, outside the object, or of a
                    cell that was never written *)
| BadWrite.      (* write outside the object *)

Inductive outcome (A : Type) : Type :=
| Ok (a : A)
| Fault (f : fault)
| OutOfFuel.

Arguments Ok {A} a.
Arguments Fault {A} f.
Arguments OutOfFuel {A}.

Definition bind {A B : Type} (m : outcome A) (k : A -> outcome B) : outcome B :=
  match m with
  | Ok a => k a
  | Fault f => Fault f
  | OutOfFuel => OutOfFuel
  end.

Notation "x <- m ;; k" := (bind m (fun x => k))
  (at level 61, m at next level, right associativity).
Notation "' pat <- m ;; k" := (bind m (fun x => match x with pat => k end))
  (at level 61, pat pattern, m at next level, right associativity).

(** [for (size_t i = lo; i < hi; ++i) body], threading the loop state. *)
Fixpoint for_loop {S : Type} (fuel : nat) (i hi : Z)
         (body : Z -> S -> outcome S) (s : S) : outcome S :=
  if i <? hi then
    match fuel with
    | O => OutOfFuel
    | Datatypes.S fuel' =>
        s' <- body i s ;; for_loop fuel' (i + 1) hi body s'
    end
  else Ok s.

(** The loop with exactly the fuel its bounds ask for. *)
Definition for_range {S : Type} (lo hi : Z)
           (body : Z -> S -> outcome S) (s : S) : outcome S :=
  for_loop (Z.to_nat (hi - lo)) lo hi body s.

(** Signed [w]-bit division, truncating toward zero. *)
Definition sdiv (w a b : Z) : outcome Z :=
  if b =? 0 then Fault DivByZero
  else if (a =? - 2 ^ (w - 1)) && (b =? -1) then Fault DivOverflow
  else Ok (Z.quot a b).

(* ================================================================= *)
(** ** Arrays *)

(** An array is the list of its cells written so far; the cells after them,
    up to the capacity of the object, are indeterminate. *)
Module Array.

Definition get (a : list Z) (i : Z) : outcome Z :=
  if i <? 0 then Fault BadRead
  else match nth_error a (Z.to_nat i) with
       | Some v => Ok v
       | None => Fault BadRead
       end.

Fixpoint replace (a : list Z) (n : nat) (v : Z) : list Z :=
  match a, n with
  | [], _ => []
  | _ :: t, O => v :: t
  | h :: t, Datatypes.S n' => h :: replace t n' v
  end.

(** [a[i] = v] in an object of [cap] cells.  The code fills its buffers
    from index 0 upwards, so a write lands on a written cell or on the
    first indeterminate one. *)
Definition set (cap : Z) (a : list Z) (i v : Z) : outcome (list Z) :=
  if (i <? 0) || (cap <=? i) then Fault BadWrite
  else if i <? Z.of_nat (length a) then Ok (replace a (Z.to_nat i) v)
  else if i =? Z.of_nat (length a) then Ok (a ++ [v])
  else Fault BadWrite.

End Array.

(* ================================================================= *)
(** ** hal/hal_interface.h *)

Module Hal.

Definition FIXED_SHIFT : Z := 16.
Definition FIXED_ONE : Z := Z.shiftl 1 FIXED_SHIFT.

(** *** [float]: IEEE-754 binary32 *)

Definition prec32 : Z := 24.
Definition emax32 : Z := 128.

Definition f32_of_Z (z : Z) : spec_float :=
  match z with
  | Z0 => S754_zero false
  | Zpos p => binary_normalize prec32 emax32 (Zpos p) 0 false
  | Zneg p => SFopp (binary_normalize prec32 emax32 (Zpos p) 0 false)
  end.

(** The literal [num/den f], the binary32 value nearest to the decimal. *)
Definition f32_literal (num den : Z) : spec_float :=
  SFdiv prec32 emax32 (f32_of_Z num) (f32_of_Z den).

(** [static_cast<int32_t>] of a float: truncation toward zero.  The cast
    of a NaN, an infinity or a value outside [int32_t] is undefined in
    C++; the core applies it to literals in range only. *)
Definition f32_to_int32 (f : spec_float) : Z :=
  match f with
  | S754_finite s m e =>
      let v := if 0 <=? e then Zpos m * 2 ^ e else Z.quot (Zpos m) (2 ^ (- e)) in
      to_int32 (if s then - v else v)
  | _ => 0
  end.

Definition float_to_fixed (val : spec_float) : Z :=
  f32_to_int32 (SFmul prec32 emax32 val (f32_of_Z FIXED_ONE)).

(** The conversions are evaluated as a whole ([vm_compute]), never
    unfolded step by step. *)
#[global] Arguments float_to_fixed : simpl never.
#[global] Arguments f32_literal : simpl never.

Definition fixed_mul (a b : Z) : Z :=
  to_int32 (Z.shiftr (to_int64 (a * b)) FIXED_SHIFT).

Definition VIBRATION_BUFFER_SIZE : Z := 256.
Definition NUM_SPECTRAL_BINS : Z := 64.

Definition BATTERY_CRITICAL_MV : Z := 3000.
Definition BATTERY_LOW_MV : Z := 3300.
Definition BATTERY_NOMINAL_MV : Z := 3700.

End Hal.
Export Hal.

(* ================================================================= *)
(** ** core/decision.h, core/decision.cpp *)

Inductive Decision : Type := SLEEP | TX_ALERT | TX_UNCERTAIN.

Record SpectralResult : Type := mkSpectralResult {
  dominant_frequency : Z;
  peak_magnitude : Z;
  spectral_centroid : Z;
  num_peaks : Z
}.

Record InferenceResult : Type := mkInferenceResult {
  confidence : Z;
  predicted_class : Z
}.

Record ThresholdConfig : Type := mkThresholdConfig {
  base_confidence_threshold : Z;
  low_battery_multiplier : Z;
  critical_battery_multiplier : Z;
  min_peaks_for_detection : Z
}.

Module DecisionPolicy.

Definition get_default_config : ThresholdConfig :=
  {| base_confidence_threshold := float_to_fixed (f32_literal 65 100);
     low_battery_multiplier := float_to_fixed (f32_literal 12 10);
     critical_battery_multiplier := float_to_fixed (f32_literal 15 10);
     min_peaks_for_detection := 2 |}.

(** Step 1 of [evaluate_structure]: the battery-scaled threshold. *)
Definition effective_threshold (battery_mv : Z) (config : ThresholdConfig) : Z :=
  if battery_mv <? BATTERY_CRITICAL_MV then
    fixed_mul (base_confidence_threshold config)
              (critical_battery_multiplier config)
  else if battery_mv <? BATTERY_LOW_MV then
    fixed_mul (base_confidence_threshold config)
              (low_battery_multiplier config)
  else base_confidence_threshold config.

(** Step 2 of [evaluate_structure]. *)
Definition sufficient_spectral_activity
           (spectral : SpectralResult) (config : ThresholdConfig) : bool :=
  (min_peaks_for_detection config <=? num_peaks spectral)
  && (float_to_fixed (f32_literal 1 10) <? peak_magnitude spectral).

Definition evaluate_structure
           (spectral : SpectralResult) (inference : InferenceResult)
           (battery_mv : Z) (config : ThresholdConfig) : Decision :=
  let effective_threshold := effective_threshold battery_mv config in
  if negb (sufficient_spectral_activity spectral config) then SLEEP
  else
    let confidence := confidence inference in
    let predicted_class := predicted_class inference in
    if predicted_class =? 0 then SLEEP
    else if predicted_class =? 1 then
      if effective_threshold <=? confidence then TX_ALERT
      else if fixed_mul effective_threshold (float_to_fixed (f32_literal 7 10))
              <=? confidence
           then TX_UNCERTAIN
           else SLEEP
    else if predicted_class =? 2 then
      if (BATTERY_LOW_MV <=? battery_mv)
         && (min_peaks_for_detection config + 1 <=? num_peaks spectral)
      then TX_UNCERTAIN
      else SLEEP
    else SLEEP.

End DecisionPolicy.

(* ================================================================= *)
(** ** core/spectral.h, core/spectral.cpp *)

Record SpectralProcessor : Type := mkSpectralProcessor {
  num_bins : Z;        (* size_t *)
  sample_rate : Z      (* uint32_t *)
}.

Module Spectral.

Definition SIN_TABLE_SIZE : Z := 64.

Definition fast_sin (angle_256 : Z) : Z :=
  let angle_256 := Z.land angle_256 255 in
  let x := angle_256 in
  let x := if 128 <? x then 256 - x else x in
  let x := if 64 <? x then 128 - x else x in
  let result := Z.quot (to_int32 (x * FIXED_ONE)) 64 in
  if 128 <? angle_256 then to_int32 (- result) else result.

Definition fast_cos (angle_256 : Z) : Z :=
  fast_sin (to_uint32 (angle_256 + 64)).

(** [samples[n]] through a pointer that may be null. *)
Definition sample_at (samples : option (list Z)) (n : Z) : outcome Z :=
  match samples with
  | None => Fault BadRead
  | Some a => Array.get a n
  end.

(** The alpha-max-plus-beta-min estimate closing each bin. *)
Definition magnitude_estimate (real_sum imag_sum : Z) : Z :=
  let abs_real := if 0 <=? real_sum then real_sum else to_int64 (- real_sum) in
  let abs_imag := if 0 <=? imag_sum then imag_sum else to_int64 (- imag_sum) in
  let max_val := if abs_imag <? abs_real then abs_real else abs_imag in
  let min_val := if abs_real <? abs_imag then abs_real else abs_imag in
  to_int32 (Z.shiftr (to_int64 (max_val + Z.quot (to_int64 (min_val * 4)) 10))
                     FIXED_SHIFT).

(** One step of the inner loop of [compute_magnitude_spectrum]. *)
Definition correlate (samples : option (list Z)) (freq_mult : Z)
           (n : Z) (sums : Z * Z) : outcome (Z * Z) :=
  let '(real_sum, imag_sum) := sums in
  let angle := to_uint32 (Z.rem (to_size (freq_mult * n)) 256) in
  let cos_val := fast_cos angle in
  let sin_val := fast_sin angle in
  s <- sample_at samples n ;;
  Ok (to_int64 (real_sum + s * cos_val), to_int64 (imag_sum + s * sin_val)).

(** The body of the outer loop of [compute_magnitude_spectrum]: the value
    stored in [magnitudes[k]]. *)
Definition spectrum_bin (p : SpectralProcessor) (samples : option (list Z))
           (num_samples k : Z) : outcome Z :=
  freq_mult <- (if num_bins p =? 0 then Fault DivByZero
                else Ok (to_uint32 (Z.quot (to_size (k * 256)) (num_bins p)))) ;;
  sums <- for_range 0 num_samples (correlate samples freq_mult) (0, 0) ;;
  real_sum <- sdiv 64 (fst sums) (to_int64 num_samples) ;;
  imag_sum <- sdiv 64 (snd sums) (to_int64 num_samples) ;;
  Ok (magnitude_estimate real_sum imag_sum).

(** [magnitudes] is an object of [cap] cells, none of them written yet. *)
Definition compute_magnitude_spectrum (p : SpectralProcessor)
           (samples : option (list Z)) (num_samples : Z) (cap : Z)
  : outcome (list Z) :=
  for_range 0 (num_bins p)
    (fun k magnitudes =>
       m <- spectrum_bin p samples num_samples k ;;
       Array.set cap magnitudes k m)
    [].

(** The body of the loop of [find_peaks]; [&&] reads [magnitudes[i + 1]]
    only when the first two tests hold. *)
Definition find_peaks_step (magnitudes : list Z) (threshold : Z)
           (i : Z) (peak_count : Z) : outcome Z :=
  m <- Array.get magnitudes i ;;
  if threshold <? m then
    prev <- Array.get magnitudes (to_size (i - 1)) ;;
    if prev <? m then
      next <- Array.get magnitudes (to_size (i + 1)) ;;
      if next <? m then Ok (to_uint8 (peak_count + 1)) else Ok peak_count
    else Ok peak_count
  else Ok peak_count.

(** The bound [count - 1] is computed in [size_t].  An iteration at an
    index outside the array faults, so one more step than the array has
    cells is enough fuel ([find_peaks_never_out_of_fuel]). *)
Definition find_peaks (magnitudes : list Z) (count threshold : Z) : outcome Z :=
  for_loop (Datatypes.S (length magnitudes)) 1 (to_size (count - 1))
           (find_peaks_step magnitudes threshold) 0.

Definition compute_centroid (magnitudes : list Z) (count : Z) : outcome Z :=
  sums <- for_range 0 count
            (fun i '(weighted_sum, magnitude_sum) =>
               m <- Array.get magnitudes i ;;
               Ok (to_int64 (weighted_sum + m * i), to_int64 (magnitude_sum + m)))
            (0, 0) ;;
  let '(weighted_sum, magnitude_sum) := sums in
  if magnitude_sum =? 0 then Ok 0
  else q <- sdiv 64 (to_int64 (weighted_sum * FIXED_ONE)) magnitude_sum ;;
       Ok (to_int32 q).

Definition MAX_BINS : Z := 128.

Definition zero_result : SpectralResult :=
  {| dominant_frequency := 0; peak_magnitude := 0;
     spectral_centroid := 0; num_peaks := 0 |}.

Definition is_null (samples : option (list Z)) : bool :=
  match samples with None => true | Some _ => false end.

Definition process (p : SpectralProcessor) (samples : option (list Z))
           (num_samples : Z) : outcome SpectralResult :=
  if (num_samples =? 0) || is_null samples then Ok zero_result
  else
    let actual_bins := if num_bins p <? MAX_BINS then num_bins p else MAX_BINS in
    magnitudes <- compute_magnitude_spectrum p samples num_samples MAX_BINS ;;
    peak <- for_range 1 actual_bins
              (fun i '(max_mag, max_bin) =>
                 m <- Array.get magnitudes i ;;
                 if max_mag <? m then Ok (m, i) else Ok (max_mag, max_bin))
              (0, 0) ;;
    let '(max_mag, max_bin) := peak in
    freq <- sdiv 64 (to_int64 (to_int64 (max_bin * sample_rate p) * FIXED_ONE))
                    (to_size (2 * actual_bins)) ;;
    let peak_threshold := fixed_mul max_mag (float_to_fixed (f32_literal 2 10)) in
    peaks <- find_peaks magnitudes actual_bins peak_threshold ;;
    centroid <- compute_centroid magnitudes actual_bins ;;
    Ok {| dominant_frequency := to_int32 freq;
          peak_magnitude := max_mag;
          spectral_centroid := centroid;
          num_peaks := peaks |}.

(** The largest cell of [features[0 .. num_bins)], starting from 0. *)
Definition features_max (features : list Z) (count : Z) : outcome Z :=
  for_range 0 count
    (fun i max_val =>
       f <- Array.get features i ;;
       Ok (if max_val <? f then f else max_val))
    0.

Definition scale_features (cap : Z) (features : list Z) (count max_val : Z)
  : outcome (list Z) :=
  for_range 0 count
    (fun i features =>
       f <- Array.get features i ;;
       q <- sdiv 64 (to_int64 (f * FIXED_ONE)) max_val ;;
       Array.set cap features i (to_int32 q))
    features.

(** Returns the cells written to [features] and the count returned. *)
Definition extract_features (p : SpectralProcessor) (samples : option (list Z))
           (num_samples : Z) (max_features : Z) : outcome (list Z * Z) :=
  if max_features <? num_bins p then Ok ([], 0)
  else
    features <- compute_magnitude_spectrum p samples num_samples max_features ;;
    max_val <- features_max features (num_bins p) ;;
    features <- (if 0 <? max_val
                 then scale_features max_features features (num_bins p) max_val
                 else Ok features) ;;
    Ok (features, num_bins p).

End Spectral.

(* ================================================================= *)
(** ** core/inference.cpp *)

(** The members the constructor of [InferenceEngine] initialises. *)
Record InferenceEngine : Type := mkInferenceEngine {
  weights : list Z;     (* const int8_t*, row-major *)
  biases : list Z;      (* const int8_t* *)
  input_size : Z;       (* size_t *)
  output_size : Z;      (* size_t *)
  scale_factor : Z      (* fixed_t *)
}.

Module Inference.

Definition dot_product (e : InferenceEngine) (input : list Z) (output_idx : Z)
  : outcome Z :=
  accumulator <- for_range 0 (input_size e)
                   (fun i accumulator =>
                      let weight_idx := to_size (to_size (output_idx * input_size e) + i) in
                      weight <- Array.get (weights e) weight_idx ;;
                      x <- Array.get input i ;;
                      Ok (to_int64 (accumulator + x * weight)))
                   0 ;;
  let result := to_int32 (Z.shiftr accumulator 7) in
  let result := fixed_mul result (scale_factor e) in
  bias <- Array.get (biases e) output_idx ;;
  Ok (to_int32 (result + to_int32 (Z.shiftl bias (FIXED_SHIFT - 7)))).

(** The first loop of [normalize_outputs]: the largest and smallest output. *)
Definition outputs_extent (outputs : list Z) (count : Z) : outcome (Z * Z) :=
  first <- Array.get outputs 0 ;;
  for_range 1 count
    (fun i '(max_val, min_val) =>
       o <- Array.get outputs i ;;
       Ok (if max_val <? o then o else max_val,
           if o <? min_val then o else min_val))
    (first, first).

Definition MAX_OUTPUTS : Z := 8.

(** [outputs] is the array of [MAX_OUTPUTS] cells of [run]. *)
Definition normalize_outputs (outputs : list Z) (count : Z) : outcome (list Z) :=
  extent <- outputs_extent outputs count ;;
  let '(max_val, min_val) := extent in
  let range := to_int32 (max_val - min_val) in
  if range <? float_to_fixed (f32_literal 1 1000) then
    uniform <- sdiv 32 FIXED_ONE (to_int32 count) ;;
    for_range 0 count
      (fun i outputs => Array.set MAX_OUTPUTS outputs i uniform)
      outputs
  else
    scaled <- for_range 0 count
                (fun i '(outputs, sum) =>
                   o <- Array.get outputs i ;;
                   factor <- sdiv 32 (to_int32 (Z.shiftl FIXED_ONE 8))
                                     (Z.shiftr range 8) ;;
                   let o := fixed_mul (to_int32 (o - min_val)) factor in
                   let o := if o <? 0 then 0 else o in
                   outputs <- Array.set MAX_OUTPUTS outputs i o ;;
                   Ok (outputs, to_int32 (sum + o)))
                (outputs, 0) ;;
    let '(outputs, sum) := scaled in
    if 0 <? sum then
      for_range 0 count
        (fun i outputs =>
           o <- Array.get outputs i ;;
           q <- sdiv 64 (to_int64 (o * FIXED_ONE)) sum ;;
           Array.set MAX_OUTPUTS outputs i (to_int32 q))
        outputs
    else Ok outputs.

Definition argmax (outputs : list Z) (count : Z) : outcome Z :=
  first <- Array.get outputs 0 ;;
  best <- for_range 1 count
            (fun i '(max_idx, max_val) =>
               o <- Array.get outputs i ;;
               if max_val <? o then Ok (to_uint8 i, o) else Ok (max_idx, max_val))
            (0, first) ;;
  Ok (fst best).

Definition actual_outputs (e : InferenceEngine) : Z :=
  if output_size e <? MAX_OUTPUTS then output_size e else MAX_OUTPUTS.

(** The first two loops of [run]: one dot product per class, then the
    clamp of the negative ones to zero. *)
Definition raw_outputs (e : InferenceEngine) (features : list Z) : outcome (list Z) :=
  outputs <- for_range 0 (actual_outputs e)
               (fun i outputs =>
                  o <- dot_product e features i ;;
                  Array.set MAX_OUTPUTS outputs i o)
               [] ;;
  for_range 0 (actual_outputs e)
    (fun i outputs =>
       o <- Array.get outputs i ;;
       if o <? 0 then Array.set MAX_OUTPUTS outputs i 0 else Ok outputs)
    outputs.

Definition clamp_confidence (c : Z) : Z :=
  let c := if FIXED_ONE <? c then FIXED_ONE else c in
  if c <? 0 then 0 else c.

Definition run (e : InferenceEngine) (features : list Z) (num_features : Z)
  : outcome InferenceResult :=
  if negb (num_features =? input_size e) then
    Ok {| confidence := 0; predicted_class := 0 |}
  else
    outputs <- raw_outputs e features ;;
    outputs <- normalize_outputs outputs (actual_outputs e) ;;
    cls <- argmax outputs (actual_outputs e) ;;
    c <- Array.get outputs cls ;;
    Ok {| confidence := clamp_confidence c; predicted_class := cls |}.

End Inference.

(* ================================================================= *)
(** ** What the specification says, in its own words *)

Module Stated.

(** "bin i is a peak iff magnitudes[i] > threshold and magnitudes[i]
    exceeds both neighbors". *)
Definition is_peak (magnitudes : list Z) (threshold : Z) (i : nat) : bool :=
  (threshold <? nth i magnitudes 0)
  && (nth (i - 1) magnitudes 0 <? nth i magnitudes 0)
  && (nth (i + 1) magnitudes 0 <? nth i magnitudes 0).

(** The number of peaks among the bins [1 <= i < count - 1]. *)
Definition interior_peaks (magnitudes : list Z) (threshold : Z) : Z :=
  Z.of_nat (length (filter (is_peak magnitudes threshold)
                           (seq 1 (length magnitudes - 2)))).

(** The largest bin, as [extract_features] looks for it: from 0 upwards. *)
Definition spectrum_max (magnitudes : list Z) : Z :=
  fold_left Z.max magnitudes 0.

(** "dividing every bin by the maximum bin value". *)
Definition divided_by_max (magnitudes : list Z) : list Z :=
  map (fun m => Z.quot (m * FIXED_ONE) (spectrum_max magnitudes)) magnitudes.

(** "if (max - min) of raw outputs is below a small epsilon ... the returned
    confidence is approximately 1/output_size": within a unit of rounding. *)
Definition uniform_over_output_size (e : InferenceEngine) (features : list Z)
  : Prop :=
  forall (raw : list Z) (max_val min_val : Z),
    Inference.raw_outputs e features = Ok raw ->
    Inference.outputs_extent raw (Inference.actual_outputs e)
    = Ok (max_val, min_val) ->
    to_int32 (max_val - min_val) < float_to_fixed (f32_literal 1 1000) ->
    exists r, Inference.run e features (input_size e) = Ok r
              /\ Z.abs (confidence r * output_size e - FIXED_ONE) < output_size e.

End Stated.

(* ================================================================= *)
(** ** Inputs used below *)

Module Scenarios.

(** The spectral and inference results of [tests/test_main.cpp],
    [decision_alert_on_high_confidence]. *)
Definition active_spectrum : SpectralResult :=
  {| dominant_frequency := 0;
     peak_magnitude := float_to_fixed (f32_literal 5 10);
     spectral_centroid := 0;
     num_peaks := 3 |}.

Definition confident_anomaly : InferenceResult :=
  {| confidence := float_to_fixed (f32_literal 85 100);
     predicted_class := 1 |}.

(** [decision_sleep_on_low_activity]. *)
Definition quiet_spectrum : SpectralResult :=
  {| dominant_frequency := 0;
     peak_magnitude := float_to_fixed (f32_literal 1 100);
     spectral_centroid := 0;
     num_peaks := 0 |}.

Definition strong_anomaly : InferenceResult :=
  {| confidence := float_to_fixed (f32_literal 9 10);
     predicted_class := 1 |}.

(** The default configuration with its base threshold negated, and a
    class-1 result of negative confidence. *)
Definition negative_base_config : ThresholdConfig :=
  {| base_confidence_threshold := - FIXED_ONE;
     low_battery_multiplier := float_to_fixed (f32_literal 12 10);
     critical_battery_multiplier := float_to_fixed (f32_literal 15 10);
     min_peaks_for_detection := 2 |}.

Definition negative_confidence : InferenceResult :=
  {| confidence := -80000; predicted_class := 1 |}.

(** The processor of [main.cpp]: [NUM_SPECTRAL_BINS] bins at 1 kHz. *)
Definition node_processor : SpectralProcessor :=
  {| num_bins := NUM_SPECTRAL_BINS; sample_rate := 1000 |}.

(** A sample buffer of [VIBRATION_BUFFER_SIZE] cells holding a square wave. *)
Definition square_wave : list Z :=
  map (fun n => if Nat.even (Nat.div n 4) then 1000 else -1000)
      (seq 0 (Z.to_nat VIBRATION_BUFFER_SIZE)).

(** Two classes over one feature; unit scale, no bias.  On the feature
    [128] the raw outputs are 0 and 100. *)
Definition two_class_engine : InferenceEngine :=
  {| weights := [0; 100]; biases := [0; 0];
     input_size := 1; output_size := 2; scale_factor := FIXED_ONE |}.

(** Sixteen classes configured over one feature; all weights and biases
    are 0, so every raw output is 0. *)
Definition sixteen_class_engine : InferenceEngine :=
  {| weights := repeat 0 16; biases := repeat 0 16;
     input_size := 1; output_size := 16; scale_factor := FIXED_ONE |}.

(** Four bins over a window of eight samples. *)
Definition small_processor : SpectralProcessor :=
  {| num_bins := 4; sample_rate := 1000 |}.

Definition small_window : list Z :=
  [1000; 1000; -1000; -1000; 1000; 1000; -1000; -1000].

(** Three classes over one feature, weights 0 and the same bias for each:
    every raw output is 1 << 9. *)
Definition three_class_engine : InferenceEngine :=
  {| weights := [0; 0; 0]; biases := [1; 1; 1];
     input_size := 1; output_size := 3; scale_factor := FIXED_ONE |}.

End Scenarios.

(* ================================================================= *)
(** ** core/decision.cpp: the rendering of a decision *)

Module Render.

Import Stdlib.Strings.String.
Local Open Scope string_scope.

(** The value of the enumerator, [Decision] being an [enum class] over
    uint8_t. *)
Definition decision_value (d : Decision) : Z :=
  match d with
  | SLEEP => 0
  | TX_ALERT => 1
  | TX_UNCERTAIN => 2
  end.

(** [decision_to_string], on the value the [switch] inspects. *)
Definition decision_to_string (d : Z) : string :=
  if (d =? 0)%Z then "SLEEP"
  else if (d =? 1)%Z then "TX_ALERT"
  else if (d =? 2)%Z then "TX_UNCERTAIN"
  else "UNKNOWN".

Definition UNKNOWN : string := "UNKNOWN".

End Render.

(* ================================================================= *)
(** ** Closed forms the proofs compare the code with *)

Module Closed.

(** The triangle wave of period 256 and amplitude 64 * 1024. *)
Definition triangle (y : Z) : Z :=
  if y <=? 64 then y * 1024
  else if y <=? 192 then (128 - y) * 1024
  else (y - 256) * 1024.

(** The residues of an angle, [0 .. 255]. *)
Definition residues : list Z := map Z.of_nat (seq 0 256).

(** The sum of the cells. *)
Definition total (l : list Z) : Z := fold_right Z.add 0 l.

(** The sum of the cells, each times its index, the first index being
    [start]. *)
Fixpoint weighted_from (start : Z) (l : list Z) : Z :=
  match l with
  | [] => 0
  | m :: rest => m * start + weighted_from (start + 1) rest
  end.

(** An output moved to start at the smallest one and multiplied by
    [(FIXED_ONE << 8) / (range >> 8)] in Q15.16. *)
Definition rescaled (min_val range : Z) (o : Z) : Z :=
  (o - min_val) * (16777216 / (range / 256)) / 65536.

(** Each cell as its share of the sum of all, in Q15.16. *)
Definition shares (l : list Z) : list Z :=
  map (fun o => o * FIXED_ONE / total l) l.

(** The mean index, weighted by the cells, in Q15.16; 0 over an all-zero
    array. *)
Definition centroid_of (magnitudes : list Z) : Z :=
  if total magnitudes =? 0 then 0
  else Z.quot (weighted_from 0 magnitudes * FIXED_ONE) (total magnitudes).

End Closed.

(* ================================================================= *)
(** ** Shapes of well-formed inputs *)

Module Shapes.

(** A configuration whose base threshold is not negative, whose
    multipliers raise it (each at least FIXED_ONE, the critical one at
    least the low one and below 2^31), and whose scaled threshold still
    fits a [fixed_t] before the shift. *)
Definition scales_up (config : ThresholdConfig) : Prop :=
  0 <= base_confidence_threshold config
  /\ FIXED_ONE <= low_battery_multiplier config
  /\ low_battery_multiplier config <= critical_battery_multiplier config
  /\ critical_battery_multiplier config < 2 ^ 31
  /\ base_confidence_threshold config * critical_battery_multiplier config
     < 2 ^ 47.

End Shapes.

(* ================================================================= *)
(** ** hal/hal_mock.h, hal/hal_mock.cpp *)

(** A line of [transmit_alert] on the standard output. *)
Record TxLine : Type := mkTxLine {
  confirmed : bool;     (* alert_type == 1 ? CONFIRMED : UNCERTAIN *)
  percent : Z;          (* static_cast<int>(confidence) *)
  shown_battery : Z     (* battery_voltage_mv_ *)
}.

(** The members of [MockHAL] that the calls below read or write.  The
    signal generator (its settings, the random engine, the start time) is
    left out; [console] is what the object has written to [std::cout]. *)
Record MockHAL : Type := mkMockHAL {
  battery_voltage_mv_ : Z;      (* uint16_t *)
  wake_event_pending_ : bool;
  transmit_count_ : Z;          (* uint32_t *)
  total_sleep_ms_ : Z;          (* uint32_t *)
  console : list TxLine
}.

Module Mock.

Definition to_uint16 : Z -> Z := wrap_unsigned 16.
Definition is_uint16 (x : Z) : Prop := 0 <= x < 2 ^ 16.

(** [MockHAL::MockHAL(uint16_t)]. *)
Definition create (initial_battery_mv : Z) : MockHAL :=
  {| battery_voltage_mv_ := initial_battery_mv;
     wake_event_pending_ := false;
     transmit_count_ := 0;
     total_sleep_ms_ := 0;
     console := [] |}.

Definition get_battery_voltage_mv (h : MockHAL) : Z := battery_voltage_mv_ h.
Definition get_transmit_count (h : MockHAL) : Z := transmit_count_ h.
Definition get_total_sleep_ms (h : MockHAL) : Z := total_sleep_ms_ h.

Definition enter_sleep (h : MockHAL) (duration_ms : Z) : MockHAL :=
  {| battery_voltage_mv_ :=
       if 2800 <? battery_voltage_mv_ h
       then to_uint16 (battery_voltage_mv_ h - 1)
       else battery_voltage_mv_ h;
     wake_event_pending_ := wake_event_pending_ h;
     transmit_count_ := transmit_count_ h;
     total_sleep_ms_ := to_uint32 (total_sleep_ms_ h + duration_ms);
     console := console h |}.

Definition transmit_alert (h : MockHAL) (alert_type confidence : Z)
  : bool * MockHAL :=
  (true,
   {| battery_voltage_mv_ :=
        if 2900 <? battery_voltage_mv_ h
        then to_uint16 (battery_voltage_mv_ h - 10)
        else battery_voltage_mv_ h;
      wake_event_pending_ := wake_event_pending_ h;
      transmit_count_ := to_uint32 (transmit_count_ h + 1);
      total_sleep_ms_ := total_sleep_ms_ h;
      console := console h ++ [ {| confirmed := alert_type =? 1;
                                   percent := confidence;
                                   shown_battery := battery_voltage_mv_ h |} ]
   |}).

Definition is_wake_event_pending (h : MockHAL) : bool := wake_event_pending_ h.

Definition clear_wake_event (h : MockHAL) : MockHAL :=
  {| battery_voltage_mv_ := battery_voltage_mv_ h;
     wake_event_pending_ := false;
     transmit_count_ := transmit_count_ h;
     total_sleep_ms_ := total_sleep_ms_ h;
     console := console h |}.

Definition trigger_wake_event (h : MockHAL) : MockHAL :=
  {| battery_voltage_mv_ := battery_voltage_mv_ h;
     wake_event_pending_ := true;
     transmit_count_ := transmit_count_ h;
     total_sleep_ms_ := total_sleep_ms_ h;
     console := console h |}.

Definition set_battery_voltage (h : MockHAL) (voltage_mv : Z) : MockHAL :=
  {| battery_voltage_mv_ := voltage_mv;
     wake_event_pending_ := wake_event_pending_ h;
     transmit_count_ := transmit_count_ h;
     total_sleep_ms_ := total_sleep_ms_ h;
     console := console h |}.

(** The two calls that use the battery, and a run of them. *)
Inductive call : Type :=
| EnterSleep (duration_ms : Z)
| TransmitAlert (alert_type confidence : Z).

Definition perform (h : MockHAL) (c : call) : MockHAL :=
  match c with
  | EnterSleep duration_ms => enter_sleep h duration_ms
  | TransmitAlert alert_type confidence =>
      snd (transmit_alert h alert_type confidence)
  end.

Definition is_transmission (c : call) : bool :=
  match c with
  | EnterSleep _ => false
  | TransmitAlert _ _ => true
  end.

Definition sleep_of (c : call) : Z :=
  match c with
  | EnterSleep duration_ms => duration_ms
  | TransmitAlert _ _ => 0
  end.

Definition perform_all (h : MockHAL) (calls : list call) : MockHAL :=
  fold_left perform calls h.

Definition transmissions (calls : list call) : Z :=
  Z.of_nat (length (filter is_transmission calls)).

Definition slept (calls : list call) : Z :=
  fold_right Z.add 0 (map sleep_of calls).

End Mock.

(* ================================================================= *)
(** ** hal/hal_stm32.cpp *)

Module Stm32.


End Stm32.

(* ================================================================= *)
(** ** main.cpp *)

Module Demo.

(** [DemoScenario], without the two strings it carries for display. *)
Record DemoScenario : Type := mkDemoScenario {
  battery_mv : Z;             (* uint16_t *)
  confidence : spec_float;    (* float *)
  predicted_class : Z;        (* uint8_t *)
  num_peaks : Z;              (* uint8_t *)
  peak_magnitude : spec_float (* float *)
}.

(** The three counters of [run_energy_adaptive_demo], uint32_t each. *)
Record Tally : Type := mkTally {
  tx_uncertain_count : Z;
  tx_alert_count : Z;
  sleep_count : Z
}.

(** [static_cast<uint8_t>(confidence * 100)]: the product is a float, the
    cast truncates toward zero (and is undefined outside [uint8_t]). *)
Definition percent_of (confidence : spec_float) : Z :=
  match SFmul prec32 emax32 confidence (f32_of_Z 100) with
  | S754_finite s m e =>
      let v := if 0 <=? e then Zpos m * 2 ^ e else Z.quot (Zpos m) (2 ^ (- e)) in
      to_uint8 (if s then - v else v)
  | _ => 0
  end.

Definition spectral_of (scenario : DemoScenario) : SpectralResult :=
  mkSpectralResult (float_to_fixed (f32_literal 150 1))
                   (float_to_fixed (peak_magnitude scenario))
                   (float_to_fixed (f32_literal 200 1))
                   (num_peaks scenario).

Definition inference_of (scenario : DemoScenario) : InferenceResult :=
  mkInferenceResult (float_to_fixed (confidence scenario))
                    (predicted_class scenario).

Definition decision_of (config : ThresholdConfig) (scenario : DemoScenario)
  : Decision :=
  DecisionPolicy.evaluate_structure (spectral_of scenario)
                                    (inference_of scenario)
                                    (battery_mv scenario) config.

(** One turn of the loop over the scenarios, without the printing. *)
Definition demo_step (config : ThresholdConfig) (state : Tally * MockHAL)
           (scenario : DemoScenario) : Tally * MockHAL :=
  let '(tally, mock_hal) := state in
  let mock_hal := Mock.set_battery_voltage mock_hal (battery_mv scenario) in
  match decision_of config scenario with
  | TX_UNCERTAIN =>
      (mkTally (to_uint32 (tx_uncertain_count tally + 1))
               (tx_alert_count tally) (sleep_count tally),
       snd (Mock.transmit_alert mock_hal 0 (percent_of (confidence scenario))))
  | TX_ALERT =>
      (mkTally (tx_uncertain_count tally)
               (to_uint32 (tx_alert_count tally + 1)) (sleep_count tally),
       snd (Mock.transmit_alert mock_hal 1 (percent_of (confidence scenario))))
  | SLEEP =>
      (mkTally (tx_uncertain_count tally) (tx_alert_count tally)
               (to_uint32 (sleep_count tally + 1)),
       Mock.enter_sleep mock_hal 1000)
  end.

(** How many of the scenarios are decided as [d]. *)
Definition decided (config : ThresholdConfig) (d : Decision)
           (scenarios : list DemoScenario) : Z :=
  Z.of_nat
    (length
       (filter (fun scenario =>
                  Render.decision_value (decision_of config scenario)
                  =? Render.decision_value d)
               scenarios)).

Definition demo_loop (config : ThresholdConfig)
           (scenarios : list DemoScenario) (mock_hal : MockHAL)
  : Tally * MockHAL :=
  fold_left (demo_step config) scenarios (mkTally 0 0 0, mock_hal).

(** The three phases of the table in [run_energy_adaptive_demo]. *)
Definition morning : list DemoScenario :=
  [ mkDemoScenario 4100 (f32_literal 55 100) 2 3 (f32_literal 5 10);
    mkDemoScenario 4100 (f32_literal 58 100) 2 3 (f32_literal 5 10);
    mkDemoScenario 4050 (f32_literal 52 100) 2 3 (f32_literal 5 10);
    mkDemoScenario 4000 (f32_literal 60 100) 2 4 (f32_literal 5 10) ].

Definition evening : list DemoScenario :=
  [ mkDemoScenario 2900 (f32_literal 55 100) 2 3 (f32_literal 5 10);
    mkDemoScenario 2850 (f32_literal 58 100) 2 3 (f32_literal 5 10);
    mkDemoScenario 2800 (f32_literal 52 100) 2 3 (f32_literal 5 10);
    mkDemoScenario 2750 (f32_literal 60 100) 2 4 (f32_literal 5 10) ].

Definition damage : list DemoScenario :=
  [ mkDemoScenario 2700 (f32_literal 98 100) 1 5 (f32_literal 9 10);
    mkDemoScenario 2650 (f32_literal 99 100) 1 6 (f32_literal 95 100);
    mkDemoScenario 2600 (f32_literal 985 1000) 1 5 (f32_literal 85 100);
    mkDemoScenario 2550 (f32_literal 995 1000) 1 7 (f32_literal 98 100) ].

Definition scenarios : list DemoScenario := morning ++ evening ++ damage.

(** [run_energy_adaptive_demo], as [main] calls it: the counters it prints
    and the mock it leaves. *)
Definition run_energy_adaptive_demo (mock_hal : MockHAL) : Tally * MockHAL :=
  demo_loop DecisionPolicy.get_default_config scenarios mock_hal.

Definition main : Tally * MockHAL :=
  run_energy_adaptive_demo (Mock.create BATTERY_NOMINAL_MV).

End Demo.

(* ***************************************************************** *)
(** * Properties *)

Import DecisionPolicy Spectral Inference Stated Shapes Closed.

(* ================================================================= *)
(** ** Wrap-around that does not wrap *)

Section Wrap.

Lemma to_int32_small (x : Z) : is_int32 x -> to_int32 x = x.
Proof.
  unfold is_int32, to_int32, wrap_signed. intros H.
  change (2 ^ (32 - 1)) with 2147483648 in *.
  change (2 ^ 32) with 4294967296.
  change (2 ^ 31) with 2147483648 in H.
  rewrite Z.mod_small; lia.
Qed.

Lemma to_int64_small (x : Z) : - 2 ^ 63 <= x < 2 ^ 63 -> to_int64 x = x.
Proof.
  unfold to_int64, wrap_signed. intros H.
  change (2 ^ (64 - 1)) with 9223372036854775808 in *.
  change (2 ^ 64) with 18446744073709551616.
  change (2 ^ 63) with 9223372036854775808 in H.
  rewrite Z.mod_small; lia.
Qed.

Lemma to_size_small (x : Z) : is_size x -> to_size x = x.
Proof.
  unfold is_size, to_size, wrap_unsigned, SIZE_MAX, SIZE_BITS. intros H.
  change (2 ^ 32) with 4294967296 in *.
  rewrite Z.mod_small; lia.
Qed.

Lemma to_uint32_small (x : Z) : is_uint32 x -> to_uint32 x = x.
Proof.
  unfold is_uint32, to_uint32, wrap_unsigned. intros H.
  change (2 ^ 32) with 4294967296 in *.
  rewrite Z.mod_small; lia.
Qed.

Lemma to_uint8_small (x : Z) : 0 <= x < 256 -> to_uint8 x = x.
Proof.
  unfold to_uint8, wrap_unsigned. intros H.
  change (2 ^ 8) with 256. rewrite Z.mod_small; lia.
Qed.

Lemma to_int32_range (x : Z) : is_int32 (to_int32 x).
Proof.
  unfold is_int32, to_int32, wrap_signed.
  change (2 ^ (32 - 1)) with 2147483648.
  change (2 ^ 31) with 2147483648.
  change (2 ^ 32) with 4294967296.
  pose proof (Z.mod_pos_bound (x + 2147483648) 4294967296). lia.
Qed.

End Wrap.

(** Bounds against the limits of int64_t and int32_t. *)
Ltac within_int64 := change (2 ^ 63) with 9223372036854775808; lia.
Ltac within_int32 :=
  unfold is_int32; change (2 ^ 31) with 2147483648; lia.

(* ================================================================= *)
(** ** Loops *)

Section Loops.

Context {S : Type}.
Variable body : Z -> S -> outcome S.
Variable hi : Z.

(** Total correctness: a body that returns and keeps the invariant makes
    the loop return, with the invariant at the bound. *)
Lemma for_loop_total (P : Z -> S -> Prop) :
  (forall i s, i < hi -> P i s -> exists s', body i s = Ok s' /\ P (i + 1) s') ->
  forall (fuel : nat) (lo : Z) (s : S),
    lo <= hi -> hi - lo <= Z.of_nat fuel -> P lo s ->
    exists s', for_loop fuel lo hi body s = Ok s' /\ P hi s'.
Proof.
  intros Hbody fuel. induction fuel as [|fuel IH]; intros lo s Hle Hfuel HP.
  - assert (lo = hi) by lia. subst lo. simpl.
    rewrite Z.ltb_irrefl. eauto.
  - simpl. destruct (Z.ltb_spec lo hi) as [Hlt|Hge].
    + destruct (Hbody lo s Hlt HP) as (s1 & Hs1 & HP1).
      rewrite Hs1. simpl. apply IH; [lia | lia | assumption].
    + assert (lo = hi) by lia. subst lo. eauto.
Qed.

(** Partial correctness: when the loop returns, the invariant holds at
    the bound, whatever the body does when it does not return. *)
Lemma for_loop_partial (P : Z -> S -> Prop) :
  (forall i s s', i < hi -> P i s -> body i s = Ok s' -> P (i + 1) s') ->
  forall (fuel : nat) (lo : Z) (s s' : S),
    lo <= hi -> P lo s ->
    for_loop fuel lo hi body s = Ok s' -> P hi s'.
Proof.
  intros Hbody fuel. induction fuel as [|fuel IH]; intros lo s s' Hle HP Hrun.
  - simpl in Hrun. destruct (Z.ltb_spec lo hi); [discriminate|].
    inversion Hrun; subst. assert (lo = hi) by lia. subst. assumption.
  - simpl in Hrun. destruct (Z.ltb_spec lo hi) as [Hlt|Hge].
    + destruct (body lo s) as [s1| |] eqn:Hs1; simpl in Hrun; try discriminate.
      apply (IH (lo + 1) s1 s'); [lia | eauto | assumption].
    + inversion Hrun; subst. assert (lo = hi) by lia. subst. assumption.
Qed.

(** A loop whose bounds are already crossed returns its state. *)
Lemma for_loop_empty (fuel : nat) (lo : Z) (s : S) :
  hi <= lo -> for_loop fuel lo hi body s = Ok s.
Proof.
  intros H. destruct fuel; simpl; destruct (Z.ltb_spec lo hi); try lia; reflexivity.
Qed.

End Loops.

Lemma for_range_total {S : Type} (body : Z -> S -> outcome S) (lo hi : Z)
      (P : Z -> S -> Prop) (s : S) :
  (forall i s, i < hi -> P i s -> exists s', body i s = Ok s' /\ P (i + 1) s') ->
  lo <= hi -> P lo s ->
  exists s', for_range lo hi body s = Ok s' /\ P hi s'.
Proof.
  intros Hbody Hle HP. unfold for_range.
  apply for_loop_total with (P := P); auto. lia.
Qed.

Lemma for_range_partial {S : Type} (body : Z -> S -> outcome S) (lo hi : Z)
      (P : Z -> S -> Prop) (s s' : S) :
  (forall i s s', i < hi -> P i s -> body i s = Ok s' -> P (i + 1) s') ->
  lo <= hi -> P lo s ->
  for_range lo hi body s = Ok s' -> P hi s'.
Proof.
  intros Hbody Hle HP. unfold for_range.
  apply for_loop_partial with (P := P); auto.
Qed.

(** Runs the first loop of the goal by [for_range_total] under the
    invariant [P]: the body, the bounds and the start of the invariant are
    left to prove, then the goal goes on with the state the loop returns. *)
Tactic Notation "run_loop" constr(P) "as" simple_intropattern(pat) :=
  match goal with
  | |- context [for_range ?lo ?hi ?body ?s] =>
      destruct (for_range_total body lo hi P s) as pat
  end.

(* ================================================================= *)
(** ** The constants the code builds with [float_to_fixed] *)

Section Constants.

Lemma FIXED_ONE_value : FIXED_ONE = 65536.
Proof. reflexivity. Qed.

Lemma fixed_0_1 : float_to_fixed (f32_literal 1 10) = 6553.
Proof. vm_compute. reflexivity. Qed.

Lemma fixed_0_7 : float_to_fixed (f32_literal 7 10) = 45875.
Proof. vm_compute. reflexivity. Qed.

Lemma fixed_0_2 : float_to_fixed (f32_literal 2 10) = 13107.
Proof. vm_compute. reflexivity. Qed.

Lemma fixed_0_001 : float_to_fixed (f32_literal 1 1000) = 65.
Proof. vm_compute. reflexivity. Qed.

Lemma default_config_value :
  get_default_config =
  {| base_confidence_threshold := 42598;
     low_battery_multiplier := 78643;
     critical_battery_multiplier := 98304;
     min_peaks_for_detection := 2 |}.
Proof. vm_compute. reflexivity. Qed.

End Constants.

(* ================================================================= *)
(** ** DecisionPolicy *)

Section DecisionProperties.

Variables (spectral : SpectralResult) (inference : InferenceResult).
Variables (battery_mv : Z) (config : ThresholdConfig).

(** C2. The activity veto: too few peaks, or a peak magnitude of at most
    [float_to_fixed(0.1f)], gives SLEEP whatever the confidence, the
    predicted class and the battery voltage are. *)
Theorem activity_veto_sleeps :
  num_peaks spectral < min_peaks_for_detection config
  \/ peak_magnitude spectral <= float_to_fixed (f32_literal 1 10) ->
  evaluate_structure spectral inference battery_mv config = SLEEP.
Proof.
  intros Hveto. unfold evaluate_structure.
  replace (sufficient_spectral_activity spectral config) with false;
    [reflexivity|].
  unfold sufficient_spectral_activity. symmetry.
  apply andb_false_iff. destruct Hveto as [Hpeaks|Hmag].
  - left. apply Z.leb_gt. exact Hpeaks.
  - right. apply Z.ltb_ge. exact Hmag.
Qed.

(** C10. TX_ALERT is returned only for predicted class 1 with a confidence
    of at least the battery-scaled threshold, after the activity veto has
    passed; so no other class ever gives TX_ALERT. *)
Theorem alert_only_for_confident_anomaly :
  evaluate_structure spectral inference battery_mv config = TX_ALERT ->
  predicted_class inference = 1
  /\ effective_threshold battery_mv config <= confidence inference
  /\ min_peaks_for_detection config <= num_peaks spectral
  /\ float_to_fixed (f32_literal 1 10) < peak_magnitude spectral.
Proof.
  unfold evaluate_structure.
  destruct (sufficient_spectral_activity spectral config) eqn:Hact;
    simpl negb; cbv iota; [|discriminate].
  unfold sufficient_spectral_activity in Hact.
  apply andb_true_iff in Hact. destruct Hact as [Hpeaks Hmag].
  apply Z.leb_le in Hpeaks. apply Z.ltb_lt in Hmag.
  destruct (Z.eqb_spec (predicted_class inference) 0); [discriminate|].
  destruct (Z.eqb_spec (predicted_class inference) 1) as [Hcls|Hcls].
  - destruct (Z.leb_spec (effective_threshold battery_mv config)
                         (confidence inference)) as [Hconf|Hconf].
    + intros _. repeat split; assumption.
    + destruct (_ <=? confidence inference); discriminate.
  - destruct (Z.eqb_spec (predicted_class inference) 2); [|discriminate].
    destruct (_ && _); discriminate.
Qed.

End DecisionProperties.

Import Scenarios.

(** C3. Scenarios A and B: with the default configuration, three peaks, a
    peak magnitude of 0.5 and class 1 at confidence 0.85, the decision is
    TX_ALERT at 3700 mV and TX_UNCERTAIN at 2900 mV.  There the effective
    threshold is 0.65 x 1.5 (63897/65536, just under 0.975); the confidence
    (55705/65536) is below it and at least its 0.7 multiple (44727/65536). *)
Theorem scenarios_alert_then_uncertain :
  evaluate_structure active_spectrum confident_anomaly 3700 get_default_config
  = TX_ALERT
  /\ evaluate_structure active_spectrum confident_anomaly 2900 get_default_config
     = TX_UNCERTAIN
  /\ effective_threshold 3700 get_default_config = 42598
  /\ effective_threshold 2900 get_default_config
     = fixed_mul (float_to_fixed (f32_literal 65 100))
                 (float_to_fixed (f32_literal 15 10))
  /\ effective_threshold 2900 get_default_config = 63897
  /\ confidence confident_anomaly = 55705
  /\ confidence confident_anomaly < effective_threshold 2900 get_default_config
  /\ fixed_mul (effective_threshold 2900 get_default_config)
               (float_to_fixed (f32_literal 7 10)) = 44727
  /\ fixed_mul (effective_threshold 2900 get_default_config)
               (float_to_fixed (f32_literal 7 10))
     <= confidence confident_anomaly.
Proof.
  vm_compute. repeat split; try reflexivity; discriminate.
Qed.

Lemma activity_veto_sleeps_witness :
  (num_peaks quiet_spectrum < min_peaks_for_detection get_default_config
   \/ peak_magnitude quiet_spectrum <= float_to_fixed (f32_literal 1 10))
  /\ evaluate_structure quiet_spectrum strong_anomaly BATTERY_NOMINAL_MV
                        get_default_config = SLEEP.
Proof.
  split.
  - left. vm_compute. reflexivity.
  - apply (activity_veto_sleeps quiet_spectrum strong_anomaly BATTERY_NOMINAL_MV
                                get_default_config).
    left. vm_compute. reflexivity.
Defined.

Lemma alert_only_for_confident_anomaly_witness :
  evaluate_structure active_spectrum confident_anomaly BATTERY_NOMINAL_MV
                     get_default_config = TX_ALERT
  /\ predicted_class confident_anomaly = 1
  /\ effective_threshold BATTERY_NOMINAL_MV get_default_config
     <= confidence confident_anomaly
  /\ min_peaks_for_detection get_default_config <= num_peaks active_spectrum
  /\ float_to_fixed (f32_literal 1 10) < peak_magnitude active_spectrum.
Proof.
  split.
  - vm_compute. reflexivity.
  - apply (alert_only_for_confident_anomaly active_spectrum confident_anomaly
             BATTERY_NOMINAL_MV get_default_config).
    vm_compute. reflexivity.
Defined.

(* ================================================================= *)
(** ** InferenceEngine: the defined failure and the clamp *)

(** C4. A feature count other than the configured input size makes [run]
    return class 0 with confidence 0, as an ordinary result. *)
Theorem run_length_mismatch (e : InferenceEngine) (features : list Z)
        (num_features : Z) :
  num_features <> input_size e ->
  run e features num_features = Ok {| confidence := 0; predicted_class := 0 |}.
Proof.
  intros Hne. unfold run.
  destruct (Z.eqb_spec num_features (input_size e)) as [Heq|_];
    [contradiction | reflexivity].
Qed.

Lemma run_length_mismatch_witness :
  3 <> input_size two_class_engine
  /\ run two_class_engine [128; 0; 0] 3
     = Ok {| confidence := 0; predicted_class := 0 |}.
Proof.
  split.
  - vm_compute. discriminate.
  - apply (run_length_mismatch two_class_engine [128; 0; 0] 3).
    vm_compute. discriminate.
Defined.

Lemma clamp_confidence_range (c : Z) : 0 <= clamp_confidence c <= FIXED_ONE.
Proof.
  unfold clamp_confidence. rewrite FIXED_ONE_value.
  destruct (Z.ltb_spec 65536 c).
  - simpl. lia.
  - destruct (Z.ltb_spec c 0); lia.
Qed.

(** C9. Every result [run] returns has its confidence in [0, FIXED_ONE]. *)
Theorem run_confidence_in_range (e : InferenceEngine) (features : list Z)
        (num_features : Z) (r : InferenceResult) :
  run e features num_features = Ok r ->
  0 <= confidence r <= FIXED_ONE.
Proof.
  unfold run. destruct (negb (num_features =? input_size e)).
  - intros H. inversion H; subst. simpl. rewrite FIXED_ONE_value. lia.
  - destruct (raw_outputs e features) as [raw| |]; simpl; try discriminate.
    destruct (normalize_outputs raw (actual_outputs e)) as [outs| |];
      simpl; try discriminate.
    destruct (argmax outs (actual_outputs e)) as [cls| |]; simpl; try discriminate.
    destruct (Array.get outs cls) as [c| |]; simpl; try discriminate.
    intros H. inversion H; subst. simpl. apply clamp_confidence_range.
Qed.

Lemma run_confidence_in_range_witness :
  run two_class_engine [1280] 1
  = Ok {| confidence := FIXED_ONE; predicted_class := 1 |}
  /\ 0 <= FIXED_ONE <= FIXED_ONE.
Proof.
  split.
  - vm_compute. reflexivity.
  - apply (run_confidence_in_range two_class_engine [1280] 1
             {| confidence := FIXED_ONE; predicted_class := 1 |}).
    vm_compute. reflexivity.
Defined.

(* ================================================================= *)
(** ** SpectralProcessor: the empty window *)

(** C5. A null sample pointer, or a sample count of 0, makes [process]
    return the all-zero result. *)
Theorem process_empty_input :
  (forall (p : SpectralProcessor) (num_samples : Z),
      process p None num_samples = Ok zero_result)
  /\ (forall (p : SpectralProcessor) (samples : option (list Z)),
         process p samples 0 = Ok zero_result)
  /\ dominant_frequency zero_result = 0
  /\ peak_magnitude zero_result = 0
  /\ spectral_centroid zero_result = 0
  /\ num_peaks zero_result = 0.
Proof.
  split; [|split].
  - intros p num_samples. unfold process. simpl is_null.
    rewrite orb_true_r. reflexivity.
  - intros p samples. unfold process. rewrite Z.eqb_refl. reflexivity.
  - repeat split.
Qed.

(* ================================================================= *)
(** ** Arrays: what a read can do *)

Lemma array_get_ok (a : list Z) (i : Z) :
  0 <= i < Z.of_nat (length a) ->
  Array.get a i = Ok (nth (Z.to_nat i) a 0).
Proof.
  intros Hi. unfold Array.get.
  destruct (Z.ltb_spec i 0); [lia|].
  destruct (nth_error a (Z.to_nat i)) as [v|] eqn:Hnth.
  - f_equal. symmetry. apply nth_error_nth with (d := 0) in Hnth. exact Hnth.
  - apply nth_error_None in Hnth. lia.
Qed.

Lemma array_get_outside (a : list Z) (i : Z) :
  i < 0 \/ Z.of_nat (length a) <= i ->
  Array.get a i = Fault BadRead.
Proof.
  intros Hi. unfold Array.get.
  destruct (Z.ltb_spec i 0); [reflexivity|].
  destruct (nth_error a (Z.to_nat i)) as [v|] eqn:Hnth; [|reflexivity].
  assert (nth_error a (Z.to_nat i) <> None) as Hsome by congruence.
  apply nth_error_Some in Hsome. lia.
Qed.

Lemma array_get_cases (a : list Z) (i : Z) :
  (0 <= i < Z.of_nat (length a) /\ Array.get a i = Ok (nth (Z.to_nat i) a 0))
  \/ ((i < 0 \/ Z.of_nat (length a) <= i) /\ Array.get a i = Fault BadRead).
Proof.
  destruct (Z.lt_ge_cases i 0) as [Hneg|Hpos].
  - right. split; [lia | apply array_get_outside; lia].
  - destruct (Z.lt_ge_cases i (Z.of_nat (length a))) as [Hin|Hout].
    + left. split; [lia | apply array_get_ok; lia].
    + right. split; [lia | apply array_get_outside; lia].
Qed.

(* ================================================================= *)
(** ** find_peaks: fuel, and the count of 0 *)

(** An iteration of [find_peaks] returns only at an index inside the array;
    otherwise it reads outside it. *)
Lemma find_peaks_step_cases (magnitudes : list Z) (threshold i peak_count : Z) :
  (0 <= i < Z.of_nat (length magnitudes)
   /\ exists c, find_peaks_step magnitudes threshold i peak_count = Ok c)
  \/ find_peaks_step magnitudes threshold i peak_count = Fault BadRead.
Proof.
  unfold find_peaks_step.
  destruct (array_get_cases magnitudes i) as [[Hi ->]|[Hi ->]];
    [|right; reflexivity].
  simpl. destruct (threshold <? _); [|left; eauto].
  destruct (array_get_cases magnitudes (to_size (i - 1))) as [[_ ->]|[_ ->]];
    [|right; reflexivity].
  simpl. destruct (_ <? _); [|left; eauto].
  destruct (array_get_cases magnitudes (to_size (i + 1))) as [[_ ->]|[_ ->]];
    [|right; reflexivity].
  simpl. destruct (_ <? _); left; eauto.
Qed.

Lemma find_peaks_loop_fuel (magnitudes : list Z) (threshold bound : Z) :
  forall (fuel : nat) (i peak_count : Z),
    1 <= Z.of_nat fuel ->
    Z.of_nat (length magnitudes) + 1 - i <= Z.of_nat fuel ->
    for_loop fuel i bound (find_peaks_step magnitudes threshold) peak_count
    <> OutOfFuel.
Proof.
  induction fuel as [|fuel IH]; intros i peak_count Hpos Hfuel; [lia|].
  simpl. destruct (i <? bound); [|discriminate].
  destruct (find_peaks_step_cases magnitudes threshold i peak_count)
    as [[Hi [c ->]]| ->]; [|discriminate].
  simpl. apply IH; lia.
Qed.

(** [find_peaks] always has the fuel it needs. *)
Lemma find_peaks_never_out_of_fuel (magnitudes : list Z) (count threshold : Z) :
  find_peaks magnitudes count threshold <> OutOfFuel.
Proof.
  unfold find_peaks. apply find_peaks_loop_fuel; lia.
Qed.

Lemma find_peaks_runs_off_the_array (magnitudes : list Z) (threshold bound : Z) :
  Z.of_nat (length magnitudes) + 1 < bound ->
  forall (fuel : nat) (i peak_count : Z),
    i <= Z.of_nat (length magnitudes) + 1 ->
    1 <= Z.of_nat fuel ->
    Z.of_nat (length magnitudes) + 2 - i <= Z.of_nat fuel ->
    for_loop fuel i bound (find_peaks_step magnitudes threshold) peak_count
    = Fault BadRead.
Proof.
  intros Hbound. induction fuel as [|fuel IH];
    intros i peak_count Hi Hpos Hfuel; [lia|].
  simpl. destruct (Z.ltb_spec i bound); [|lia].
  destruct (find_peaks_step_cases magnitudes threshold i peak_count)
    as [[Hin [c ->]]| ->]; [|reflexivity].
  simpl. apply IH; lia.
Qed.

(** With [count = 0] the bound [count - 1] is [SIZE_MAX], and the loop
    leaves every array a machine can hold. *)
Lemma find_peaks_zero_count (magnitudes : list Z) (threshold : Z) :
  Z.of_nat (length magnitudes) + 1 < SIZE_MAX ->
  find_peaks magnitudes 0 threshold = Fault BadRead.
Proof.
  intros Hlen. unfold find_peaks.
  change (to_size (0 - 1)) with SIZE_MAX.
  apply find_peaks_runs_off_the_array; lia.
Qed.

(* ================================================================= *)
(** ** Where the core leaves defined behaviour *)

(** Without samples, and with at least one bin to compute, the first bin of
    [compute_magnitude_spectrum] divides its sums by a count of 0. *)
Lemma extract_features_without_samples (p : SpectralProcessor)
      (samples : option (list Z)) (max_features : Z) :
  0 < num_bins p <= max_features ->
  extract_features p samples 0 max_features = Fault DivByZero.
Proof.
  intros [Hpos Hfit]. unfold extract_features.
  destruct (Z.ltb_spec max_features (num_bins p)); [lia|].
  unfold compute_magnitude_spectrum, for_range.
  destruct (Z.to_nat (num_bins p - 0)) as [|fuel] eqn:Hfuel; [lia|].
  simpl for_loop. destruct (Z.ltb_spec 0 (num_bins p)); [|lia].
  unfold spectrum_bin.
  destruct (Z.eqb_spec (num_bins p) 0); [lia|].
  reflexivity.
Qed.

(** A range of raw outputs from the epsilon up to 255 makes the factor
    [(FIXED_ONE << 8) / (range >> 8)] of [normalize_outputs] a division
    by 0. *)
Lemma normalize_outputs_narrow_range (outputs : list Z) (count max_val min_val : Z) :
  outputs_extent outputs count = Ok (max_val, min_val) ->
  float_to_fixed (f32_literal 1 1000) <= to_int32 (max_val - min_val) < 256 ->
  0 < count ->
  normalize_outputs outputs count = Fault DivByZero.
Proof.
  intros Hext [Hlo Hhi] Hcount. unfold normalize_outputs. rewrite Hext.
  cbn [bind].
  destruct (Z.ltb_spec (to_int32 (max_val - min_val))
                       (float_to_fixed (f32_literal 1 1000))); [lia|].
  rewrite fixed_0_001 in Hlo.
  assert (Z.shiftr (to_int32 (max_val - min_val)) 8 = 0) as Hshift.
  { rewrite Z.shiftr_div_pow2 by lia. apply Z.div_small.
    change (2 ^ 8) with 256. lia. }
  rewrite Hshift.
  unfold for_range.
  destruct (Z.to_nat (count - 0)) as [|fuel] eqn:Hfuel; [lia|].
  cbn [for_loop]. destruct (Z.ltb_spec 0 count); [|lia].
  unfold outputs_extent in Hext.
  destruct (Array.get outputs 0) as [first| |]; cbn [bind] in Hext;
    try discriminate.
  reflexivity.
Qed.

(** C1. The core does not return a defined value for every input:
    [extract_features] on a window of 0 samples divides by zero,
    [run] divides by zero when its raw outputs are 0 and 100, and
    [find_peaks] with a count of 0 reads outside its array. *)
Theorem core_functions_can_fault :
  extract_features node_processor (Some square_wave) 0 NUM_SPECTRAL_BINS
  = Fault DivByZero
  /\ (raw_outputs two_class_engine [128] = Ok [0; 100]
      /\ run two_class_engine [128] 1 = Fault DivByZero)
  /\ find_peaks (repeat 0 128) 0 0 = Fault BadRead.
Proof.
  split; [|split; [split|]].
  - apply extract_features_without_samples. vm_compute. split; [reflexivity | discriminate].
  - vm_compute. reflexivity.
  - vm_compute. reflexivity.
  - apply find_peaks_zero_count. vm_compute. reflexivity.
Qed.

(* ================================================================= *)
(** ** find_peaks: what it counts *)

(** Away from both ends of the array an iteration reads inside it, and
    counts the bin when it is a peak. *)
Lemma find_peaks_step_inside (magnitudes : list Z) (threshold i peak_count : Z) :
  Z.of_nat (length magnitudes) <= SIZE_MAX ->
  1 <= i -> i + 1 < Z.of_nat (length magnitudes) ->
  find_peaks_step magnitudes threshold i peak_count
  = Ok (if is_peak magnitudes threshold (Z.to_nat i)
        then to_uint8 (peak_count + 1) else peak_count).
Proof.
  intros Hsize Hlo Hhi. unfold find_peaks_step, is_peak.
  rewrite !to_size_small by (unfold is_size; lia).
  rewrite !array_get_ok by lia. cbn [bind].
  replace (Z.to_nat (i - 1)) with (Z.to_nat i - 1)%nat by lia.
  replace (Z.to_nat (i + 1)) with (Z.to_nat i + 1)%nat by lia.
  destruct (threshold <? nth (Z.to_nat i) magnitudes 0); [|reflexivity].
  cbn [bind andb].
  destruct (nth (Z.to_nat i - 1) magnitudes 0 <? nth (Z.to_nat i) magnitudes 0);
    [|reflexivity].
  cbn [bind andb].
  destruct (nth (Z.to_nat i + 1) magnitudes 0 <? nth (Z.to_nat i) magnitudes 0);
    reflexivity.
Qed.

Lemma filter_length_le {A : Type} (f : A -> bool) (l : list A) :
  (length (filter f l) <= length l)%nat.
Proof.
  induction l as [|a l IH]; simpl; [lia|].
  destruct (f a); simpl; lia.
Qed.

Lemma interior_peaks_bound (magnitudes : list Z) (threshold : Z) :
  0 <= interior_peaks magnitudes threshold
  <= Z.of_nat (length magnitudes - 2).
Proof.
  unfold interior_peaks.
  pose proof (filter_length_le (is_peak magnitudes threshold)
                               (seq 1 (length magnitudes - 2))) as H.
  rewrite length_seq in H. lia.
Qed.

(** The uint8_t counter holds the number of interior peaks modulo 256. *)
Lemma find_peaks_counts_modulo (magnitudes : list Z) (count threshold : Z) :
  1 <= count <= SIZE_MAX ->
  count = Z.of_nat (length magnitudes) ->
  find_peaks magnitudes count threshold
  = Ok (interior_peaks magnitudes threshold mod 256).
Proof.
  intros [Hlo Hhi] Hlen. unfold find_peaks.
  rewrite to_size_small by (unfold is_size; lia).
  destruct (Z.eq_dec count 1) as [Hone|Hmore].
  - rewrite for_loop_empty by lia.
    unfold interior_peaks.
    replace (length magnitudes - 2)%nat with 0%nat by lia. reflexivity.
  - pose (P := fun (i : Z) (c : Z) =>
                 1 <= i
                 /\ c = Z.of_nat (length (filter (is_peak magnitudes threshold)
                                                 (seq 1 (Z.to_nat i - 1)))) mod 256).
    destruct (for_loop_total (find_peaks_step magnitudes threshold) (count - 1) P)
      with (fuel := Datatypes.S (length magnitudes)) (lo := 1) (s := 0)
      as (c & Hrun & _ & Hc).
    + intros i c Hi [Hi1 Hc].
      rewrite find_peaks_step_inside by lia.
      eexists. split; [reflexivity|]. split; [lia|].
      replace (Z.to_nat (i + 1) - 1)%nat with (Datatypes.S (Z.to_nat i - 1)) by lia.
      rewrite seq_S, filter_app, length_app.
      replace (1 + (Z.to_nat i - 1))%nat with (Z.to_nat i) by lia.
      cbn [filter]. destruct (is_peak magnitudes threshold (Z.to_nat i)).
      * cbn [length]. subst c. unfold to_uint8, wrap_unsigned.
        change (2 ^ 8) with 256. rewrite Z.add_mod_idemp_l by lia.
        f_equal. lia.
      * cbn [length]. subst c. f_equal. lia.
    + lia.
    + lia.
    + split; [lia | reflexivity].
    + rewrite Hrun, Hc. unfold interior_peaks.
      replace (Z.to_nat (count - 1) - 1)%nat with (length magnitudes - 2)%nat by lia.
      reflexivity.
Qed.

Lemma filter_none {A : Type} (f : A -> bool) (l : list A) :
  (forall x, In x l -> f x = false) -> filter f l = [].
Proof.
  induction l as [|a l IH]; intros Hnone; [reflexivity|].
  cbn [filter]. rewrite (Hnone a) by (left; reflexivity).
  apply IH. intros x Hx. apply Hnone. right. exact Hx.
Qed.

(** A sequence that never decreases has no interior peak. *)
Lemma interior_peaks_nondecreasing (magnitudes : list Z) (threshold : Z) :
  (forall i : nat, (i + 1 < length magnitudes)%nat ->
                   nth i magnitudes 0 <= nth (i + 1) magnitudes 0) ->
  interior_peaks magnitudes threshold = 0.
Proof.
  intros Hmono. unfold interior_peaks.
  rewrite filter_none; [reflexivity|].
  intros i Hi. apply in_seq in Hi. unfold is_peak.
  destruct (Z.ltb_spec (nth (i + 1) magnitudes 0) (nth i magnitudes 0)) as [Hlt|_].
  - specialize (Hmono i). lia.
  - apply andb_false_r.
Qed.

(** Two neighbouring bins are never both peaks: the second of them does
    not exceed the first. *)
Lemma peaks_not_adjacent (magnitudes : list Z) (threshold : Z) (i : nat) :
  is_peak magnitudes threshold (Datatypes.S i) = true ->
  is_peak magnitudes threshold i = false.
Proof.
  unfold is_peak. intros Hnext.
  apply andb_true_iff in Hnext. destruct Hnext as [Hnext _].
  apply andb_true_iff in Hnext. destruct Hnext as [_ Hrise].
  apply Z.ltb_lt in Hrise.
  replace (Datatypes.S i - 1)%nat with i in Hrise by lia.
  replace (i + 1)%nat with (Datatypes.S i) by lia.
  destruct (Z.ltb_spec (nth (Datatypes.S i) magnitudes 0) (nth i magnitudes 0));
    [lia|].
  apply andb_false_r.
Qed.

Lemma peaks_in_a_run (magnitudes : list Z) (threshold : Z) (start : nat) :
  forall n : nat,
    (2 * length (filter (is_peak magnitudes threshold) (seq start n))
     <= n + 1)%nat
    /\ ((1 <= n)%nat ->
        is_peak magnitudes threshold (start + n - 1) = false ->
        (2 * length (filter (is_peak magnitudes threshold) (seq start n))
         <= n)%nat).
Proof.
  induction n as [|n [IHall IHlast]].
  - cbn. split; [lia | intros; lia].
  - rewrite seq_S, filter_app, length_app. cbn [filter].
    replace (start + Datatypes.S n - 1)%nat with (start + n)%nat by lia.
    destruct (is_peak magnitudes threshold (start + n)) eqn:Hpeak.
    + cbn [length]. split; [|intros _ Hfalse; discriminate].
      destruct n as [|n].
      * cbn. lia.
      * assert (is_peak magnitudes threshold (start + Datatypes.S n - 1) = false)
          as Hprev.
        { apply peaks_not_adjacent.
          replace (Datatypes.S (start + Datatypes.S n - 1))
            with (start + Datatypes.S n)%nat by lia.
          exact Hpeak. }
        specialize (IHlast ltac:(lia) Hprev). lia.
    + cbn [length]. split; [lia | intros _ _; lia].
Qed.

Lemma interior_peaks_sparse (magnitudes : list Z) (threshold : Z) :
  (1 <= length magnitudes)%nat ->
  0 <= 2 * interior_peaks magnitudes threshold
  <= Z.of_nat (length magnitudes) - 1.
Proof.
  intros Hlen. unfold interior_peaks.
  destruct (peaks_in_a_run magnitudes threshold 1 (length magnitudes - 2))
    as [Hall _].
  lia.
Qed.

(** C7. [find_peaks] is private, and [process], its one caller, passes
    the at most MAX_BINS = 128 magnitudes it has computed.  On every array
    of 1 to [4 * MAX_BINS] = 512 cells, so on every array [process] can
    pass, [find_peaks]
    returns exactly the number of bins [1 <= i < count - 1] that exceed the
    threshold and both neighbours: peaks are never neighbours, so there are
    at most 255 of them and the uint8_t counter holds their number.  Index 0
    and the last index are never counted, and a sequence that never
    decreases, flat end included, gives 0. *)
Theorem find_peaks_counts_interior_peaks
        (magnitudes : list Z) (count threshold : Z) :
  1 <= count <= 4 * MAX_BINS ->
  count = Z.of_nat (length magnitudes) ->
  find_peaks magnitudes count threshold
  = Ok (interior_peaks magnitudes threshold)
  /\ ((forall i : nat, (i + 1 < length magnitudes)%nat ->
                        nth i magnitudes 0 <= nth (i + 1) magnitudes 0) ->
      find_peaks magnitudes count threshold = Ok 0).
Proof.
  unfold MAX_BINS. intros Hcount Hlen.
  pose proof (interior_peaks_sparse magnitudes threshold ltac:(lia)) as Hsparse.
  assert (find_peaks magnitudes count threshold
          = Ok (interior_peaks magnitudes threshold)) as Hexact.
  { rewrite find_peaks_counts_modulo;
      [ | unfold SIZE_MAX, SIZE_BITS; change (2 ^ 32) with 4294967296; lia
        | exact Hlen ].
    f_equal. apply Z.mod_small. lia. }
  split; [exact Hexact|].
  intros Hmono. rewrite Hexact.
  rewrite interior_peaks_nondecreasing by exact Hmono. reflexivity.
Qed.

Lemma find_peaks_counts_interior_peaks_witness :
  (1 <= 5 <= 4 * MAX_BINS)
  /\ 5 = Z.of_nat (length [1; 5; 3; 7; 2])
  /\ find_peaks [1; 5; 3; 7; 2] 5 0 = Ok 2.
Proof.
  split; [vm_compute; split; discriminate|].
  split; [reflexivity|].
  destruct (find_peaks_counts_interior_peaks [1; 5; 3; 7; 2] 5 0)
    as (Hexact & _).
  - vm_compute. split; discriminate.
  - reflexivity.
  - exact Hexact.
Defined.

(* ================================================================= *)
(** ** Arrays: writes, and loops that rewrite an array in place *)

Lemma replace_length (a : list Z) (n : nat) (v : Z) :
  length (Array.replace a n v) = length a.
Proof.
  revert n. induction a as [|h t IH]; intros [|n]; simpl; auto.
Qed.

Lemma replace_middle (l1 l2 : list Z) (x v : Z) :
  Array.replace (l1 ++ x :: l2) (length l1) v = l1 ++ v :: l2.
Proof.
  induction l1 as [|h t IH]; simpl; [reflexivity | rewrite IH; reflexivity].
Qed.

Lemma array_set_cases (cap : Z) (a a' : list Z) (i v : Z) :
  Array.set cap a i v = Ok a' ->
  0 <= i < cap
  /\ ((i < Z.of_nat (length a) /\ a' = Array.replace a (Z.to_nat i) v)
      \/ (i = Z.of_nat (length a) /\ a' = a ++ [v])).
Proof.
  unfold Array.set.
  destruct (Z.ltb_spec i 0); [discriminate|].
  destruct (Z.leb_spec cap i); [discriminate|]. cbn [orb].
  destruct (Z.ltb_spec i (Z.of_nat (length a))).
  - intros H'. inversion H'. split; [lia|]. left. split; [lia | reflexivity].
  - destruct (Z.eqb_spec i (Z.of_nat (length a))); [|discriminate].
    intros H'. inversion H'. split; [lia|]. right. split; [lia | reflexivity].
Qed.

Lemma array_set_append (cap : Z) (a : list Z) (v : Z) :
  Z.of_nat (length a) < cap ->
  Array.set cap a (Z.of_nat (length a)) v = Ok (a ++ [v]).
Proof.
  intros Hcap. unfold Array.set.
  destruct (Z.ltb_spec (Z.of_nat (length a)) 0); [lia|].
  destruct (Z.leb_spec cap (Z.of_nat (length a))); [lia|]. cbn [orb].
  rewrite Z.ltb_irrefl, Z.eqb_refl. reflexivity.
Qed.

Lemma array_set_middle (cap : Z) (l1 l2 : list Z) (x v : Z) :
  Z.of_nat (length l1) < cap ->
  Array.set cap (l1 ++ x :: l2) (Z.of_nat (length l1)) v = Ok (l1 ++ v :: l2).
Proof.
  intros Hcap. unfold Array.set.
  destruct (Z.ltb_spec (Z.of_nat (length l1)) 0); [lia|].
  destruct (Z.leb_spec cap (Z.of_nat (length l1))); [lia|]. cbn [orb].
  destruct (Z.ltb_spec (Z.of_nat (length l1))
                       (Z.of_nat (length (l1 ++ x :: l2)))) as [_|Hge].
  - rewrite Nat2Z.id, replace_middle. reflexivity.
  - rewrite length_app in Hge. cbn [length] in Hge. lia.
Qed.

Lemma array_get_middle (l1 l2 : list Z) (x : Z) :
  Array.get (l1 ++ x :: l2) (Z.of_nat (length l1)) = Ok x.
Proof.
  rewrite array_get_ok.
  - rewrite Nat2Z.id, nth_middle. reflexivity.
  - rewrite length_app. cbn [length]. lia.
Qed.

(** A loop that replaces cell after cell by [f] of its content maps [f]
    over the array. *)
Lemma for_range_in_place (body : Z -> list Z -> outcome (list Z))
      (f : Z -> Z) (a : list Z) :
  (forall (done rest prefix : list Z) (x : Z),
      a = done ++ x :: rest -> length prefix = length done ->
      body (Z.of_nat (length done)) (prefix ++ x :: rest)
      = Ok (prefix ++ f x :: rest)) ->
  for_range 0 (Z.of_nat (length a)) body a = Ok (map f a).
Proof.
  intros Hbody.
  pose (P := fun (i : Z) (s : list Z) =>
               exists done rest, a = done ++ rest
                                 /\ Z.of_nat (length done) = i
                                 /\ s = map f done ++ rest).
  destruct (for_range_total body 0 (Z.of_nat (length a)) P a)
    as (s & Hrun & done & rest & Ha & Hlen & Hs).
  - intros i s Hi (done & rest & Ha & Hlen & Hs).
    destruct rest as [|x rest].
    + rewrite app_nil_r in Ha. subst a. lia.
    + exists (map f done ++ f x :: rest). split.
      * subst i s. apply Hbody; [exact Ha | apply length_map].
      * exists (done ++ [x]), rest. split; [|split].
        -- rewrite <- app_assoc. exact Ha.
        -- rewrite length_app. cbn [length]. lia.
        -- rewrite map_app, <- app_assoc. reflexivity.
  - lia.
  - exists [], a. repeat split.
  - rewrite Hrun. f_equal.
    assert (rest = []) as ->.
    { destruct rest as [|x rest]; [reflexivity|].
      rewrite Ha, length_app in Hlen. cbn [length] in Hlen. lia. }
    rewrite app_nil_r in *. subst. reflexivity.
Qed.

(* ================================================================= *)
(** ** InferenceEngine: nearly equal raw outputs *)

Lemma actual_outputs_range (e : InferenceEngine) :
  1 <= output_size e -> 1 <= actual_outputs e <= MAX_OUTPUTS.
Proof.
  intros Hpos. unfold actual_outputs, MAX_OUTPUTS.
  destruct (Z.ltb_spec (output_size e) 8); lia.
Qed.

(** When [raw_outputs] returns, it has written one cell per class. *)
Lemma raw_outputs_length (e : InferenceEngine) (features raw : list Z) :
  0 <= actual_outputs e ->
  raw_outputs e features = Ok raw ->
  Z.of_nat (length raw) = actual_outputs e.
Proof.
  intros Hpos. unfold raw_outputs.
  destruct (for_range 0 (actual_outputs e) _ []) as [outs| |] eqn:Hfill;
    cbn [bind]; try discriminate.
  intros Hrelu.
  assert (Z.of_nat (length outs) = actual_outputs e) as Hlen.
  { revert Hfill.
    apply for_range_partial with (P := fun i s => Z.of_nat (length s) = i);
      [|lia|reflexivity].
    intros i s s' _ Hs Hstep.
    destruct (dot_product e features i) as [o| |]; cbn [bind] in Hstep;
      try discriminate.
    apply array_set_cases in Hstep.
    destruct Hstep as [_ [[Hlt _]|[_ ->]]]; [lia|].
    rewrite length_app. cbn [length]. lia. }
  revert Hrelu.
  apply for_range_partial
    with (P := fun (_ : Z) s => Z.of_nat (length s) = actual_outputs e);
    [|lia|exact Hlen].
  intros i s s' _ Hs Hstep.
  destruct (array_get_cases s i) as [[Hin Hget]|[_ Hbad]];
    [rewrite Hget in Hstep | rewrite Hbad in Hstep; discriminate].
  cbn [bind] in Hstep.
  destruct (nth (Z.to_nat i) s 0 <? 0).
  - apply array_set_cases in Hstep.
    destruct Hstep as [_ [[_ ->]|[Hend _]]]; [|lia].
    rewrite replace_length. exact Hs.
  - inversion Hstep; subst. exact Hs.
Qed.

Lemma normalize_outputs_uniform (raw : list Z) (count max_val min_val : Z) :
  1 <= count <= MAX_OUTPUTS ->
  Z.of_nat (length raw) = count ->
  outputs_extent raw count = Ok (max_val, min_val) ->
  to_int32 (max_val - min_val) < float_to_fixed (f32_literal 1 1000) ->
  normalize_outputs raw count
  = Ok (repeat (Z.quot FIXED_ONE count) (length raw)).
Proof.
  intros [Hlo Hhi] Hlen Hext Hrange. unfold MAX_OUTPUTS in Hhi.
  unfold normalize_outputs. rewrite Hext. cbn [bind].
  destruct (Z.ltb_spec (to_int32 (max_val - min_val))
                       (float_to_fixed (f32_literal 1 1000))); [|lia].
  rewrite to_int32_small by (unfold is_int32; lia).
  unfold sdiv. destruct (Z.eqb_spec count 0); [lia|].
  change (FIXED_ONE =? - 2 ^ (32 - 1)) with false. cbn [andb bind].
  rewrite <- map_const. rewrite <- Hlen at 1.
  apply for_range_in_place with (f := fun _ => Z.quot FIXED_ONE count).
  intros done rest prefix x Hraw Hprefix.
  rewrite <- Hprefix. apply array_set_middle.
  assert (length raw = length done + Datatypes.S (length rest))%nat as Hsplit
      by (rewrite Hraw, length_app; reflexivity).
  unfold MAX_OUTPUTS. lia.
Qed.

(** On equal outputs the strict comparison of [argmax] keeps index 0. *)
Lemma argmax_uniform (u : Z) (n : nat) :
  (1 <= n)%nat -> argmax (repeat u n) (Z.of_nat n) = Ok 0.
Proof.
  intros Hn. unfold argmax.
  rewrite array_get_ok by (rewrite repeat_length; lia).
  rewrite nth_repeat_lt by lia. cbn [bind].
  run_loop (fun (i : Z) (best : Z * Z) => 1 <= i /\ best = (0, u))
    as (best & -> & _ & ->).
  - intros i best Hi [Hi1 ->]. exists (0, u). split; [|split; [lia | reflexivity]].
    cbv beta iota.
    rewrite array_get_ok by (rewrite repeat_length; lia).
    rewrite nth_repeat_lt by lia. cbn [bind].
    rewrite Z.ltb_irrefl. reflexivity.
  - lia.
  - split; [lia | reflexivity].
  - reflexivity.
Qed.

Lemma uniform_share_range (count : Z) :
  1 <= count <= MAX_OUTPUTS ->
  0 <= Z.quot FIXED_ONE count <= FIXED_ONE
  /\ FIXED_ONE - count < count * Z.quot FIXED_ONE count <= FIXED_ONE.
Proof.
  unfold MAX_OUTPUTS. rewrite FIXED_ONE_value. intros Hcount.
  rewrite Z.quot_div_nonneg by lia.
  pose proof (Z.div_mod 65536 count) as Hdiv.
  pose proof (Z.mod_pos_bound 65536 count) as Hmod.
  assert (0 <= 65536 / count) by (apply Z.div_pos; lia).
  nia.
Qed.

(** C8, with the cap on the outputs. When the largest and the smallest raw (post-ReLU)
    output differ by less than [float_to_fixed(0.001f)], normalization sets
    each of the outputs computed to FIXED_ONE divided by their number,
    which is [output_size] capped at [MAX_OUTPUTS] = 8, and [run] returns
    class 0 with that confidence, within a unit of rounding of one over
    that number. *)
Theorem nearly_equal_outputs_are_uniform
        (e : InferenceEngine) (features raw : list Z) (max_val min_val : Z) :
  1 <= output_size e ->
  raw_outputs e features = Ok raw ->
  outputs_extent raw (actual_outputs e) = Ok (max_val, min_val) ->
  to_int32 (max_val - min_val) < float_to_fixed (f32_literal 1 1000) ->
  normalize_outputs raw (actual_outputs e)
  = Ok (repeat (Z.quot FIXED_ONE (actual_outputs e))
               (Z.to_nat (actual_outputs e)))
  /\ run e features (input_size e)
     = Ok {| confidence := Z.quot FIXED_ONE (actual_outputs e);
             predicted_class := 0 |}
  /\ FIXED_ONE - actual_outputs e
     < actual_outputs e * Z.quot FIXED_ONE (actual_outputs e) <= FIXED_ONE.
Proof.
  intros Hsize Hraw Hext Hrange.
  pose proof (actual_outputs_range e Hsize) as Hcount.
  assert (Z.of_nat (length raw) = actual_outputs e) as Hlen
      by (apply (raw_outputs_length e features); [lia | exact Hraw]).
  pose proof (normalize_outputs_uniform raw (actual_outputs e) max_val min_val
                                        Hcount Hlen Hext Hrange) as Hnorm.
  replace (length raw) with (Z.to_nat (actual_outputs e)) in Hnorm by lia.
  destruct (uniform_share_range (actual_outputs e) Hcount) as [Hshare Hclose].
  split; [exact Hnorm|]. split; [|exact Hclose].
  unfold run. rewrite Z.eqb_refl. cbn [negb].
  rewrite Hraw. cbn [bind]. rewrite Hnorm. cbn [bind].
  pose proof (argmax_uniform (Z.quot FIXED_ONE (actual_outputs e))
                             (Z.to_nat (actual_outputs e))) as Hargmax.
  rewrite Z2Nat.id in Hargmax by lia.
  rewrite Hargmax by lia. cbn [bind].
  rewrite array_get_ok by (rewrite repeat_length; lia).
  rewrite nth_repeat_lt by lia. cbn [bind].
  unfold clamp_confidence.
  destruct (Z.ltb_spec FIXED_ONE (Z.quot FIXED_ONE (actual_outputs e))); [lia|].
  destruct (Z.ltb_spec (Z.quot FIXED_ONE (actual_outputs e)) 0); [lia|].
  reflexivity.
Qed.

Lemma nearly_equal_outputs_are_uniform_witness :
  1 <= output_size three_class_engine
  /\ raw_outputs three_class_engine [FIXED_ONE] = Ok [512; 512; 512]
  /\ outputs_extent [512; 512; 512] (actual_outputs three_class_engine)
     = Ok (512, 512)
  /\ to_int32 (512 - 512) < float_to_fixed (f32_literal 1 1000)
  /\ run three_class_engine [FIXED_ONE] (input_size three_class_engine)
     = Ok {| confidence := Z.quot FIXED_ONE (actual_outputs three_class_engine);
             predicted_class := 0 |}.
Proof.
  split; [vm_compute; discriminate|].
  split; [vm_compute; reflexivity|].
  split; [vm_compute; reflexivity|].
  split; [vm_compute; reflexivity|].
  apply (nearly_equal_outputs_are_uniform three_class_engine [FIXED_ONE]
           [512; 512; 512] 512 512).
  - vm_compute. discriminate.
  - vm_compute. reflexivity.
  - vm_compute. reflexivity.
  - vm_compute. reflexivity.
Defined.

(** C8 does not hold of every engine: with sixteen classes configured only
    eight outputs are computed, and the confidence is 1/8, not about 1/16. *)
Lemma uniform_share_ignores_extra_classes :
  ~ uniform_over_output_size sixteen_class_engine [FIXED_ONE].
Proof.
  intros Hclaim.
  destruct (Hclaim (repeat 0 8) 0 0) as (r & Hrun & Hnear).
  - vm_compute. reflexivity.
  - vm_compute. reflexivity.
  - vm_compute. reflexivity.
  - assert (run sixteen_class_engine [FIXED_ONE]
                (input_size sixteen_class_engine)
            = Ok {| confidence := 8192; predicted_class := 0 |}) as Hcode
        by (vm_compute; reflexivity).
    rewrite Hcode in Hrun. inversion Hrun; subst r.
    vm_compute in Hnear. discriminate Hnear.
Qed.

(* ================================================================= *)
(** ** SpectralProcessor: the magnitudes are small and never negative *)

Lemma quarter_wave (x : Z) :
  0 <= x <= 64 -> Z.quot (to_int32 (x * FIXED_ONE)) 64 = x * 1024.
Proof.
  intros Hx. rewrite FIXED_ONE_value.
  rewrite to_int32_small by within_int32.
  replace (x * 65536) with (x * 1024 * 64) by lia.
  apply Z.quot_mul. lia.
Qed.

Lemma fast_sin_range (angle_256 : Z) :
  - FIXED_ONE <= fast_sin angle_256 <= FIXED_ONE.
Proof.
  unfold fast_sin.
  change 255 with (Z.ones 8). rewrite Z.land_ones by lia.
  change (2 ^ 8) with 256.
  pose proof (Z.mod_pos_bound angle_256 256) as Hy.
  set (y := angle_256 mod 256) in *.
  assert (forall x, 0 <= x <= 64 ->
                    - FIXED_ONE
                    <= (if 128 <? y
                        then to_int32 (- Z.quot (to_int32 (x * FIXED_ONE)) 64)
                        else Z.quot (to_int32 (x * FIXED_ONE)) 64)
                    <= FIXED_ONE) as Hquarter.
  { intros x Hx. rewrite quarter_wave by exact Hx. rewrite FIXED_ONE_value.
    destruct (128 <? y); [|lia].
    rewrite to_int32_small by within_int32.
    lia. }
  destruct (Z.ltb_spec 128 y) as [Hhalf|Hhalf].
  - destruct (Z.ltb_spec 64 (256 - y)); apply Hquarter; lia.
  - destruct (Z.ltb_spec 64 y); apply Hquarter; lia.
Qed.

Lemma fast_cos_range (angle_256 : Z) :
  - FIXED_ONE <= fast_cos angle_256 <= FIXED_ONE.
Proof. unfold fast_cos. apply fast_sin_range. Qed.

Section Window.

Variable samples : list Z.
Variable num_samples : Z.
Hypothesis window_size : 0 < num_samples <= SIZE_MAX.
Hypothesis window_inside : num_samples <= Z.of_nat (length samples).
Hypothesis window_int16 : Forall is_int16 samples.

Lemma sample_in_window (n : Z) :
  0 <= n < num_samples ->
  sample_at (Some samples) n = Ok (nth (Z.to_nat n) samples 0)
  /\ is_int16 (nth (Z.to_nat n) samples 0).
Proof.
  intros Hn. split.
  - cbn [sample_at]. apply array_get_ok. lia.
  - rewrite Forall_forall in window_int16. apply window_int16.
    apply nth_In. lia.
Qed.

(** The two sums stay within [n * 2^31]: the 64-bit accumulators of the
    inner loop never wrap. *)
Lemma correlate_sums (freq_mult : Z) :
  exists real_sum imag_sum,
    for_range 0 num_samples (correlate (Some samples) freq_mult) (0, 0)
    = Ok (real_sum, imag_sum)
    /\ Z.abs real_sum <= num_samples * 2 ^ 31
    /\ Z.abs imag_sum <= num_samples * 2 ^ 31.
Proof.
  run_loop (fun (i : Z) (sums : Z * Z) =>
              0 <= i /\ Z.abs (fst sums) <= i * 2 ^ 31
              /\ Z.abs (snd sums) <= i * 2 ^ 31)
    as ([re im] & Hrun & _ & Hre & Him).
  - intros i [re im] Hi (Hi0 & Hre & Him). cbn [fst snd] in Hre, Him.
    unfold correlate.
    destruct (sample_in_window i) as [-> Hs]; [lia|]. cbn [bind].
    set (s := nth (Z.to_nat i) samples 0) in *.
    set (angle := to_uint32 (Z.rem (to_size (freq_mult * i)) 256)).
    pose proof (fast_cos_range angle) as Hcos.
    pose proof (fast_sin_range angle) as Hsin.
    rewrite FIXED_ONE_value in Hcos, Hsin. unfold is_int16 in Hs.
    unfold SIZE_MAX, SIZE_BITS in window_size.
    change (2 ^ 32) with 4294967296 in window_size.
    change (2 ^ 31) with 2147483648 in *.
    assert (- 2147483648 <= s * fast_cos angle <= 2147483648) by nia.
    assert (- 2147483648 <= s * fast_sin angle <= 2147483648) by nia.
    eexists. split; [reflexivity|]. cbn [fst snd].
    rewrite !to_int64_small by within_int64.
    lia.
  - lia.
  - cbn [fst snd]. change (2 ^ 31) with 2147483648. lia.
  - exists re, im. cbn [fst snd] in Hre, Him. auto.
Qed.

End Window.

Lemma quot_abs_bound (a n bound : Z) :
  0 < n -> Z.abs a <= n * bound -> Z.abs (Z.quot a n) <= bound.
Proof.
  intros Hn Ha. rewrite <- Z.quot_abs by lia.
  rewrite (Z.abs_eq n) by lia.
  rewrite Z.quot_div_nonneg by lia.
  apply Z.div_le_upper_bound; lia.
Qed.

Lemma magnitude_estimate_range (real_sum imag_sum : Z) :
  Z.abs real_sum <= 2 ^ 31 -> Z.abs imag_sum <= 2 ^ 31 ->
  0 <= magnitude_estimate real_sum imag_sum < 2 ^ 31.
Proof.
  change (2 ^ 31) with 2147483648. intros Hre Him. unfold magnitude_estimate.
  set (abs_real := if 0 <=? real_sum then real_sum else to_int64 (- real_sum)).
  set (abs_imag := if 0 <=? imag_sum then imag_sum else to_int64 (- imag_sum)).
  assert (0 <= abs_real <= 2147483648) as Har.
  { subst abs_real. destruct (Z.leb_spec 0 real_sum); [lia|].
    rewrite to_int64_small by within_int64.
    lia. }
  assert (0 <= abs_imag <= 2147483648) as Hai.
  { subst abs_imag. destruct (Z.leb_spec 0 imag_sum); [lia|].
    rewrite to_int64_small by within_int64.
    lia. }
  clearbody abs_real abs_imag.
  set (max_val := if abs_imag <? abs_real then abs_real else abs_imag).
  set (min_val := if abs_real <? abs_imag then abs_real else abs_imag).
  assert (0 <= max_val <= 2147483648) as Hmax
      by (subst max_val; destruct (abs_imag <? abs_real); lia).
  assert (0 <= min_val <= 2147483648) as Hmin
      by (subst min_val; destruct (abs_real <? abs_imag); lia).
  clearbody max_val min_val.
  rewrite (to_int64_small (min_val * 4)) by within_int64.
  rewrite Z.quot_div_nonneg by lia.
  assert (0 <= min_val * 4 / 10 <= min_val * 4) as Hq.
  { split; [apply Z.div_pos; lia | apply Z.div_le_upper_bound; lia]. }
  rewrite to_int64_small by within_int64.
  unfold FIXED_SHIFT. rewrite Z.shiftr_div_pow2 by lia.
  change (2 ^ 16) with 65536.
  assert (0 <= (max_val + min_val * 4 / 10) / 65536 < 2147483648) as Hm.
  { split; [apply Z.div_pos; lia | apply Z.div_lt_upper_bound; lia]. }
  rewrite to_int32_small by within_int32.
  exact Hm.
Qed.

Section Spectrum.

Variable p : SpectralProcessor.
Variable samples : list Z.
Variable num_samples : Z.
Hypothesis window_size : 0 < num_samples <= SIZE_MAX.
Hypothesis window_inside : num_samples <= Z.of_nat (length samples).
Hypothesis window_int16 : Forall is_int16 samples.

(** Every bin of a non-empty window gets a magnitude, which is not
    negative. *)
Lemma spectrum_bin_range (k : Z) :
  num_bins p <> 0 ->
  exists m, spectrum_bin p (Some samples) num_samples k = Ok m
            /\ 0 <= m < 2 ^ 31.
Proof.
  intros Hbins. unfold spectrum_bin.
  destruct (Z.eqb_spec (num_bins p) 0); [contradiction|]. cbn [bind].
  destruct (correlate_sums samples num_samples window_size window_inside
                           window_int16
                           (to_uint32 (Z.quot (to_size (k * 256)) (num_bins p))))
    as (re & im & -> & Hre & Him).
  cbn [bind fst snd].
  assert (to_int64 num_samples = num_samples) as ->.
  { apply to_int64_small. unfold SIZE_MAX, SIZE_BITS in window_size.
    change (2 ^ 32) with 4294967296 in window_size.
    change (2 ^ 63) with 9223372036854775808. lia. }
  unfold sdiv. destruct (Z.eqb_spec num_samples 0); [lia|].
  destruct (Z.eqb_spec num_samples (-1)); [lia|].
  rewrite !andb_false_r. cbn [bind].
  eexists. split; [reflexivity|].
  apply magnitude_estimate_range; apply quot_abs_bound; lia.
Qed.

Lemma compute_magnitude_spectrum_ok (cap : Z) :
  0 <= num_bins p <= cap ->
  exists magnitudes,
    compute_magnitude_spectrum p (Some samples) num_samples cap = Ok magnitudes
    /\ Z.of_nat (length magnitudes) = num_bins p
    /\ Forall is_magnitude magnitudes.
Proof.
  intros Hbins. unfold compute_magnitude_spectrum.
  run_loop (fun (k : Z) (magnitudes : list Z) =>
              Z.of_nat (length magnitudes) = k
              /\ Forall is_magnitude magnitudes)
    as (magnitudes & Hrun & Hlen & Hall).
  - intros k magnitudes Hk [Hlen Hall]. cbv beta.
    destruct (spectrum_bin_range k) as (m & -> & Hm); [lia|]. cbn [bind].
    exists (magnitudes ++ [m]). split.
    + rewrite <- Hlen. apply array_set_append. lia.
    + split.
      * rewrite length_app. cbn [length]. lia.
      * apply Forall_app. split; [exact Hall|].
        constructor; [exact Hm | constructor].
  - lia.
  - split; [reflexivity | constructor].
  - exists magnitudes. auto.
Qed.

End Spectrum.

(* ================================================================= *)
(** ** extract_features: the largest bin and the division by it *)

Lemma fold_max_spec (l : list Z) :
  forall a : Z,
    a <= fold_left Z.max l a
    /\ (forall m, In m l -> m <= fold_left Z.max l a)
    /\ (fold_left Z.max l a = a \/ In (fold_left Z.max l a) l).
Proof.
  induction l as [|x l IH]; intros a; cbn [fold_left].
  - split; [lia|]. split; [intros m []|left; reflexivity].
  - destruct (IH (Z.max a x)) as (Hge & Hall & Hin).
    split; [lia|]. split.
    + intros m [<-|Hm]; [lia | apply Hall; exact Hm].
    + destruct Hin as [Heq|Hin]; [|right; right; exact Hin].
      rewrite Heq. destruct (Z.max_spec a x) as [[_ ->]|[_ ->]].
      * right. left. reflexivity.
      * left. reflexivity.
Qed.

Lemma features_max_spec (features : list Z) :
  features_max features (Z.of_nat (length features))
  = Ok (spectrum_max features).
Proof.
  unfold features_max, spectrum_max.
  run_loop (fun (i : Z) (max_val : Z) =>
              exists done rest, features = done ++ rest
                                /\ Z.of_nat (length done) = i
                                /\ max_val = fold_left Z.max done 0)
    as (max_val & Hrun & done & rest & Hsplit & Hlen & Hmax).
  - intros i max_val Hi (done & rest & Hsplit & Hlen & Hmax). cbv beta.
    destruct rest as [|x rest].
    + rewrite app_nil_r in Hsplit. subst features. lia.
    + assert (Array.get features i = Ok x) as ->
          by (rewrite Hsplit, <- Hlen; apply array_get_middle).
      cbn [bind]. eexists. split; [reflexivity|].
      exists (done ++ [x]), rest. split; [|split].
      * rewrite <- app_assoc. exact Hsplit.
      * rewrite length_app. cbn [length]. lia.
      * rewrite fold_left_app. cbn [fold_left]. rewrite <- Hmax.
        destruct (Z.ltb_spec max_val x); lia.
  - lia.
  - exists [], features. repeat split.
  - rewrite Hrun. f_equal.
    assert (rest = []) as ->.
    { destruct rest as [|x rest]; [reflexivity|].
      rewrite Hsplit, length_app in Hlen. cbn [length] in Hlen. lia. }
    rewrite app_nil_r in Hsplit. subst. reflexivity.
Qed.

Lemma scale_features_spec (cap : Z) (features : list Z) (max_val : Z) :
  Z.of_nat (length features) <= cap ->
  0 < max_val < 2 ^ 31 ->
  Forall (fun f => 0 <= f <= max_val) features ->
  scale_features cap features (Z.of_nat (length features)) max_val
  = Ok (map (fun f => Z.quot (f * FIXED_ONE) max_val) features).
Proof.
  intros Hcap Hmax Hall. unfold scale_features.
  change (2 ^ 31) with 2147483648 in Hmax.
  rewrite for_range_in_place
    with (f := fun f => to_int32 (Z.quot (to_int64 (f * FIXED_ONE)) max_val)).
  - f_equal. apply map_ext_in. intros f Hf.
    rewrite Forall_forall in Hall. specialize (Hall f Hf).
    rewrite FIXED_ONE_value.
    rewrite to_int64_small by within_int64.
    apply to_int32_small. unfold is_int32.
    change (2 ^ 31) with 2147483648.
    rewrite Z.quot_div_nonneg by lia.
    assert (0 <= f * 65536 / max_val <= 65536).
    { split; [apply Z.div_pos; lia | apply Z.div_le_upper_bound; nia]. }
    lia.
  - intros done rest prefix x Hsplit Hprefix.
    rewrite <- Hprefix. rewrite array_get_middle. cbn [bind].
    unfold sdiv. destruct (Z.eqb_spec max_val 0); [lia|].
    destruct (Z.eqb_spec max_val (-1)); [lia|].
    rewrite andb_false_r. cbn [bind].
    apply array_set_middle.
    assert (length features = length done + Datatypes.S (length rest))%nat
      by (rewrite Hsplit, length_app; reflexivity).
    lia.
Qed.

(** C6. On a window of [num_samples > 0] samples and a destination of at
    least [num_bins] cells, [extract_features] returns [num_bins] features.
    When some computed magnitude is not zero they are the magnitudes, each
    times FIXED_ONE divided by the largest, and the largest feature is
    FIXED_ONE; when all magnitudes are zero all features are zero. *)
Theorem extract_features_normalizes
        (p : SpectralProcessor) (samples : list Z)
        (num_samples max_features : Z) :
  0 < num_samples <= SIZE_MAX ->
  num_samples <= Z.of_nat (length samples) ->
  Forall is_int16 samples ->
  0 <= num_bins p <= max_features ->
  exists magnitudes features,
    compute_magnitude_spectrum p (Some samples) num_samples max_features
    = Ok magnitudes
    /\ extract_features p (Some samples) num_samples max_features
       = Ok (features, num_bins p)
    /\ Z.of_nat (length features) = num_bins p
    /\ ((exists m, In m magnitudes /\ m <> 0) ->
        features = divided_by_max magnitudes
        /\ In FIXED_ONE features
        /\ Forall (fun f => f <= FIXED_ONE) features)
    /\ (Forall (fun m => m = 0) magnitudes ->
        Forall (fun f => f = 0) features).
Proof.
  intros Hsize Hinside Hint16 Hbins.
  destruct (compute_magnitude_spectrum_ok p samples num_samples
              Hsize Hinside Hint16 max_features Hbins)
    as (magnitudes & Hspectrum & Hlen & Hall).
  pose proof (fold_max_spec magnitudes 0) as (Hnonneg & Hupper & Hattained).
  fold (spectrum_max magnitudes) in Hnonneg, Hupper, Hattained.
  rewrite Forall_forall in Hall.
  assert (spectrum_max magnitudes < 2 ^ 31) as Hmax31.
  { destruct Hattained as [->|Hin];
      [reflexivity | apply (Hall _ Hin)]. }
  exists magnitudes,
    (if 0 <? spectrum_max magnitudes
     then divided_by_max magnitudes else magnitudes).
  split; [exact Hspectrum|]. split; [|split; [|split]].
  - unfold extract_features.
    destruct (Z.ltb_spec max_features (num_bins p)); [lia|].
    rewrite Hspectrum. cbn [bind]. rewrite <- Hlen.
    rewrite features_max_spec. cbn [bind].
    destruct (Z.ltb_spec 0 (spectrum_max magnitudes)) as [Hpos|_];
      [|reflexivity].
    rewrite scale_features_spec; [reflexivity | lia | lia |].
    apply Forall_forall. intros m Hm. split.
    + apply (Hall _ Hm).
    + apply Hupper. exact Hm.
  - destruct (0 <? spectrum_max magnitudes); [|exact Hlen].
    unfold divided_by_max. rewrite length_map. exact Hlen.
  - intros (m & Hm & Hnonzero).
    assert (0 < spectrum_max magnitudes) as Hpos.
    { pose proof (Hall _ Hm) as [Hm0 _]. pose proof (Hupper _ Hm). lia. }
    destruct (Z.ltb_spec 0 (spectrum_max magnitudes)); [|lia].
    split; [reflexivity|]. split.
    + destruct Hattained as [Hzero|Hin]; [lia|].
      unfold divided_by_max. apply in_map_iff.
      exists (spectrum_max magnitudes). split; [|exact Hin].
      rewrite Z.mul_comm. apply Z.quot_mul. lia.
    + apply Forall_forall. intros f Hf.
      unfold divided_by_max in Hf. apply in_map_iff in Hf.
      destruct Hf as (m' & <- & Hm').
      pose proof (Hall _ Hm') as [Hm0 _]. pose proof (Hupper _ Hm').
      rewrite FIXED_ONE_value.
      rewrite Z.quot_div_nonneg by lia.
      apply Z.div_le_upper_bound; nia.
  - intros Hzero. rewrite Forall_forall in Hzero.
    assert (spectrum_max magnitudes = 0) as ->
        by (destruct Hattained as [Hz|Hin]; [exact Hz | apply Hzero; exact Hin]).
    cbn. apply Forall_forall. exact Hzero.
Qed.

Lemma extract_features_normalizes_witness :
  extract_features small_processor (Some small_window) 8 4
  = Ok ([0; 65536; 0; 65536], 4)
  /\ exists magnitudes features,
      compute_magnitude_spectrum small_processor (Some small_window) 8 4
      = Ok magnitudes
      /\ extract_features small_processor (Some small_window) 8 4
         = Ok (features, num_bins small_processor)
      /\ Z.of_nat (length features) = num_bins small_processor
      /\ ((exists m, In m magnitudes /\ m <> 0) ->
          features = divided_by_max magnitudes
          /\ In FIXED_ONE features
          /\ Forall (fun f => f <= FIXED_ONE) features)
      /\ (Forall (fun m => m = 0) magnitudes ->
          Forall (fun f => f = 0) features).
Proof.
  split; [vm_compute; reflexivity|].
  apply (extract_features_normalizes small_processor small_window 8 4).
  - vm_compute. split; [reflexivity | discriminate].
  - vm_compute. discriminate.
  - repeat (constructor; [vm_compute; split; discriminate|]). constructor.
  - vm_compute. split; discriminate.
Defined.

(* ================================================================= *)
(** ** InferenceEngine: when [run] returns *)

Lemma array_set_inside (cap : Z) (a : list Z) (i v : Z) :
  0 <= i < Z.of_nat (length a) -> i < cap ->
  Array.set cap a i v = Ok (Array.replace a (Z.to_nat i) v).
Proof.
  intros Hi Hcap. unfold Array.set.
  destruct (Z.ltb_spec i 0); [lia|].
  destruct (Z.leb_spec cap i); [lia|]. cbn [orb].
  destruct (Z.ltb_spec i (Z.of_nat (length a))); [reflexivity | lia].
Qed.

Section WellFormedEngine.

Variable e : InferenceEngine.
Variable features : list Z.

(** The shape contract of the model parameters, for the rows [run] uses,
    and a feature vector as long as the input size. *)
Hypothesis input_size_ok : 0 <= input_size e.
Hypothesis output_size_ok : 1 <= output_size e.
Hypothesis weights_ok :
  actual_outputs e * input_size e <= Z.of_nat (length (weights e)) <= SIZE_MAX.
Hypothesis biases_ok : actual_outputs e <= Z.of_nat (length (biases e)).
Hypothesis features_ok : input_size e <= Z.of_nat (length features).

Lemma dot_product_returns (output_idx : Z) :
  0 <= output_idx < actual_outputs e ->
  exists o, dot_product e features output_idx = Ok o /\ is_int32 o.
Proof.
  intros Hidx. unfold dot_product.
  run_loop (fun (i : Z) (_ : Z) => 0 <= i) as (accumulator & -> & _).
  - intros i accumulator Hi Hi0. cbv beta zeta.
    assert (0 <= output_idx * input_size e + i
            < actual_outputs e * input_size e) as Hrow by nia.
    assert (0 <= output_idx * input_size e) by nia.
    rewrite (to_size_small (output_idx * input_size e))
      by (unfold is_size; lia).
    rewrite to_size_small by (unfold is_size; lia).
    rewrite array_get_ok by lia. cbn [bind].
    rewrite array_get_ok by lia. cbn [bind].
    eexists. split; [reflexivity | lia].
  - lia.
  - lia.
  - cbn [bind]. rewrite array_get_ok by lia. cbn [bind].
    eexists. split; [reflexivity | apply to_int32_range].
Qed.

Lemma raw_outputs_returns :
  exists raw, raw_outputs e features = Ok raw
              /\ Z.of_nat (length raw) = actual_outputs e
              /\ Forall is_magnitude raw.
Proof.
  pose proof (actual_outputs_range e output_size_ok) as Hcount.
  unfold MAX_OUTPUTS in Hcount. unfold raw_outputs.
  run_loop (fun (i : Z) (outputs : list Z) =>
              Z.of_nat (length outputs) = i /\ Forall is_int32 outputs)
    as (outputs & -> & Hlen & Hall).
  - intros i outputs Hi [Hlen Hall]. cbv beta.
    destruct (dot_product_returns i) as (o & -> & Ho); [lia|]. cbn [bind].
    exists (outputs ++ [o]). split.
    + rewrite <- Hlen. apply array_set_append. unfold MAX_OUTPUTS. lia.
    + split.
      * rewrite length_app. cbn [length]. lia.
      * apply Forall_app. split; [exact Hall|].
        constructor; [exact Ho | constructor].
  - lia.
  - split; [reflexivity | constructor].
  - cbn [bind]. rewrite <- Hlen.
    rewrite for_range_in_place with (f := fun o => if o <? 0 then 0 else o).
    + eexists. split; [reflexivity|]. split; [rewrite length_map; reflexivity|].
      apply Forall_forall. intros o Ho. apply in_map_iff in Ho.
      destruct Ho as (x & <- & Hx).
      rewrite Forall_forall in Hall. specialize (Hall x Hx).
      unfold is_int32 in Hall. unfold is_magnitude.
      destruct (Z.ltb_spec x 0); [|lia].
      change (2 ^ 31) with 2147483648. lia.
    + intros done rest prefix x Hsplit Hprefix.
      rewrite <- Hprefix. rewrite array_get_middle. cbn [bind].
      destruct (x <? 0); [|reflexivity].
      apply array_set_middle.
      assert (length outputs = length done + Datatypes.S (length rest))%nat
        by (rewrite Hsplit, length_app; reflexivity).
      unfold MAX_OUTPUTS. lia.
Qed.

End WellFormedEngine.

Lemma outputs_extent_returns (outputs : list Z) :
  (1 <= length outputs)%nat ->
  exists max_val min_val,
    outputs_extent outputs (Z.of_nat (length outputs)) = Ok (max_val, min_val)
    /\ In max_val outputs /\ In min_val outputs /\ min_val <= max_val.
Proof.
  intros Hlen. unfold outputs_extent.
  rewrite array_get_ok by lia. cbn [bind].
  assert (In (nth (Z.to_nat 0) outputs 0) outputs) as Hfirst
      by (apply nth_In; lia).
  run_loop (fun (i : Z) (extent : Z * Z) =>
              1 <= i /\ In (fst extent) outputs /\ In (snd extent) outputs
              /\ snd extent <= fst extent)
    as ([max_val min_val] & -> & _ & Hmax & Hmin & Hle).
  - intros i [max_val min_val] Hi (Hi1 & Hmax & Hmin & Hle).
    cbn [fst snd] in Hmax, Hmin, Hle.
    rewrite array_get_ok by lia. cbn [bind].
    assert (In (nth (Z.to_nat i) outputs 0) outputs) as Ho
        by (apply nth_In; lia).
    eexists. split; [reflexivity|]. cbn [fst snd].
    split; [lia|].
    destruct (Z.ltb_spec max_val (nth (Z.to_nat i) outputs 0));
      destruct (Z.ltb_spec (nth (Z.to_nat i) outputs 0) min_val);
      repeat split; auto; lia.
  - lia.
  - cbn [fst snd]. repeat split; auto; lia.
  - exists max_val, min_val. cbn [fst snd] in *. auto.
Qed.

(** A range of at least 256 leaves a divisor [range >> 8] of at least 1:
    the rescaling and the renormalization both return. *)
Lemma normalize_outputs_wide_range (outputs : list Z) (count max_val min_val : Z) :
  1 <= count <= MAX_OUTPUTS ->
  Z.of_nat (length outputs) = count ->
  outputs_extent outputs count = Ok (max_val, min_val) ->
  256 <= to_int32 (max_val - min_val) ->
  exists normalized,
    normalize_outputs outputs count = Ok normalized
    /\ Z.of_nat (length normalized) = count.
Proof.
  intros Hcount Hlen Hext Hrange. unfold MAX_OUTPUTS in Hcount.
  unfold normalize_outputs. rewrite Hext. cbn [bind].
  destruct (Z.ltb_spec (to_int32 (max_val - min_val))
                       (float_to_fixed (f32_literal 1 1000))) as [Hlt|_];
    [rewrite fixed_0_001 in Hlt; lia|].
  assert (1 <= Z.shiftr (to_int32 (max_val - min_val)) 8) as Hdivisor.
  { rewrite Z.shiftr_div_pow2 by lia. change (2 ^ 8) with 256.
    apply Z.div_le_lower_bound; lia. }
  run_loop (fun (i : Z) (st : list Z * Z) =>
              0 <= i /\ Z.of_nat (length (fst st)) = count)
    as ([scaled sum] & -> & _ & Hscaled).
  - intros i [outs sum] Hi [Hi0 Houts]. cbn [fst] in Houts. cbv beta iota.
    rewrite array_get_ok by lia. cbn [bind].
    unfold sdiv at 1.
    destruct (Z.eqb_spec (Z.shiftr (to_int32 (max_val - min_val)) 8) 0); [lia|].
    destruct (Z.eqb_spec (Z.shiftr (to_int32 (max_val - min_val)) 8) (-1));
      [lia|].
    rewrite andb_false_r. cbn [bind].
    rewrite array_set_inside by (unfold MAX_OUTPUTS; lia). cbn [bind].
    eexists. split; [reflexivity|]. cbn [fst].
    split; [lia | rewrite replace_length; exact Houts].
  - lia.
  - cbn [fst]. split; [lia | exact Hlen].
  - cbn [fst] in Hscaled. cbn [bind]. cbv beta iota.
    destruct (Z.ltb_spec 0 sum) as [Hsum|_]; [|eauto].
    run_loop (fun (i : Z) (outs : list Z) =>
                0 <= i /\ Z.of_nat (length outs) = count)
      as (normalized & -> & _ & Hnormalized).
    + intros i outs Hi [Hi0 Houts]. cbv beta.
      rewrite array_get_ok by lia. cbn [bind].
      unfold sdiv. destruct (Z.eqb_spec sum 0); [lia|].
      destruct (Z.eqb_spec sum (-1)); [lia|].
      rewrite andb_false_r. cbn [bind].
      rewrite array_set_inside by (unfold MAX_OUTPUTS; lia).
      eexists. split; [reflexivity|].
      split; [lia | rewrite replace_length; exact Houts].
    + lia.
    + split; [lia | exact Hscaled].
    + eauto.
Qed.

Lemma argmax_returns (outputs : list Z) (count : Z) :
  1 <= count <= MAX_OUTPUTS ->
  Z.of_nat (length outputs) = count ->
  exists cls, argmax outputs count = Ok cls /\ 0 <= cls < count.
Proof.
  intros Hcount Hlen. unfold MAX_OUTPUTS in Hcount. unfold argmax.
  rewrite array_get_ok by lia. cbn [bind].
  run_loop (fun (i : Z) (best : Z * Z) => 1 <= i /\ 0 <= fst best < i)
    as ([max_idx max_val] & -> & _ & Hidx).
  - intros i [max_idx max_val] Hi [Hi1 Hidx]. cbn [fst] in Hidx. cbv beta iota.
    rewrite array_get_ok by lia. cbn [bind].
    destruct (max_val <? nth (Z.to_nat i) outputs 0).
    + eexists. split; [reflexivity|]. cbn [fst].
      rewrite to_uint8_small by lia. lia.
    + eexists. split; [reflexivity|]. cbn [fst]. lia.
  - lia.
  - cbn [fst]. lia.
  - cbn [bind fst]. cbn [fst] in Hidx. eauto.
Qed.

(** On model parameters of the contracted shape [run] has one way not to
    return: it divides by zero exactly when the range of its raw outputs
    lies from the epsilon up to 255. *)
Lemma run_returns_unless_narrow_range (e : InferenceEngine) (features : list Z) :
  0 <= input_size e ->
  1 <= output_size e ->
  actual_outputs e * input_size e <= Z.of_nat (length (weights e)) <= SIZE_MAX ->
  actual_outputs e <= Z.of_nat (length (biases e)) ->
  input_size e <= Z.of_nat (length features) ->
  exists raw max_val min_val,
    raw_outputs e features = Ok raw
    /\ outputs_extent raw (actual_outputs e) = Ok (max_val, min_val)
    /\ (float_to_fixed (f32_literal 1 1000) <= to_int32 (max_val - min_val) < 256 ->
        run e features (input_size e) = Fault DivByZero)
    /\ (~ float_to_fixed (f32_literal 1 1000) <= to_int32 (max_val - min_val) < 256 ->
        exists r, run e features (input_size e) = Ok r).
Proof.
  intros Hin Hout Hweights Hbiases Hfeatures.
  pose proof (actual_outputs_range e Hout) as Hcount.
  destruct (raw_outputs_returns e features Hin Hout Hweights Hbiases Hfeatures)
    as (raw & Hraw & Hlen & Hall).
  destruct (outputs_extent_returns raw) as (max_val & min_val & Hext & _);
    [lia|].
  rewrite Hlen in Hext.
  exists raw, max_val, min_val.
  split; [exact Hraw|]. split; [exact Hext|].
  unfold run. rewrite Z.eqb_refl. cbn [negb]. rewrite Hraw. cbn [bind].
  split.
  - intros Hnarrow.
    rewrite (normalize_outputs_narrow_range raw (actual_outputs e)
                                            max_val min_val Hext Hnarrow)
      by lia.
    reflexivity.
  - intros Hwide. rewrite fixed_0_001 in Hwide.
    assert (exists normalized,
               normalize_outputs raw (actual_outputs e) = Ok normalized
               /\ Z.of_nat (length normalized) = actual_outputs e)
      as (normalized & -> & Hnormalized).
    { destruct (Z.lt_ge_cases (to_int32 (max_val - min_val)) 65) as [Hlt|Hge].
      - rewrite (normalize_outputs_uniform raw (actual_outputs e)
                                           max_val min_val Hcount Hlen Hext)
          by (rewrite fixed_0_001; exact Hlt).
        eexists. split; [reflexivity|]. rewrite repeat_length. exact Hlen.
      - apply (normalize_outputs_wide_range raw (actual_outputs e)
                                            max_val min_val Hcount Hlen Hext).
        lia. }
    cbn [bind].
    destruct (argmax_returns normalized (actual_outputs e) Hcount Hnormalized)
      as (cls & -> & Hcls).
    cbn [bind]. rewrite array_get_ok by lia. cbn [bind]. eauto.
Qed.

(* ***************************************************************** *)
(** * Further properties of the code *)

(* ================================================================= *)
(** ** Q15.16 multiplication *)

Lemma int32_product_fits (a b : Z) :
  is_int32 a -> is_int32 b -> - 2 ^ 63 <= a * b < 2 ^ 63.
Proof.
  unfold is_int32. change (2 ^ 31) with 2147483648.
  change (2 ^ 63) with 9223372036854775808. intros Ha Hb. nia.
Qed.

Lemma fixed_mul_floor (a b : Z) :
  is_int32 a -> is_int32 b ->
  fixed_mul a b = to_int32 (a * b / 2 ^ 16).
Proof.
  intros Ha Hb. unfold fixed_mul, FIXED_SHIFT.
  rewrite to_int64_small by (apply int32_product_fits; assumption).
  rewrite Z.shiftr_div_pow2 by lia. reflexivity.
Qed.

Lemma fixed_mul_exact (a b : Z) :
  is_int32 a -> is_int32 b -> - 2 ^ 47 <= a * b < 2 ^ 47 ->
  fixed_mul a b = a * b / 2 ^ 16.
Proof.
  intros Ha Hb Hfit. rewrite fixed_mul_floor by assumption.
  apply to_int32_small. unfold is_int32.
  change (2 ^ 47) with (2 ^ 31 * 2 ^ 16) in Hfit.
  change (2 ^ 16) with 65536 in *. change (2 ^ 31) with 2147483648 in *.
  split.
  - apply Z.div_le_lower_bound; lia.
  - apply Z.div_lt_upper_bound; lia.
Qed.

(** The widened product is shifted, then narrowed: the result is the floor
    of the product over 2^16, wrapped to 32 bits; while that floor fits a
    [fixed_t] nothing wraps, and the result is within one unit below the
    exact product (the shift rounds toward minus infinity). *)
Theorem fixed_mul_truncates (a b : Z) :
  is_int32 a -> is_int32 b ->
  fixed_mul a b = to_int32 (a * b / 2 ^ 16)
  /\ (- 2 ^ 47 <= a * b < 2 ^ 47 ->
      fixed_mul a b = a * b / 2 ^ 16
      /\ FIXED_ONE * fixed_mul a b <= a * b < FIXED_ONE * (fixed_mul a b + 1)).
Proof.
  intros Ha Hb. split; [apply fixed_mul_floor; assumption|].
  intros Hfit. rewrite fixed_mul_exact by assumption.
  split; [reflexivity|]. rewrite FIXED_ONE_value. change (2 ^ 16) with 65536.
  pose proof (Z.div_mod (a * b) 65536) as Hdiv.
  pose proof (Z.mod_pos_bound (a * b) 65536) as Hmod. lia.
Qed.

Lemma fixed_mul_truncates_witness :
  is_int32 (-1) /\ is_int32 1
  /\ fixed_mul (-1) 1 = -1
  /\ FIXED_ONE * fixed_mul (-1) 1 <= -1 * 1 < FIXED_ONE * (fixed_mul (-1) 1 + 1).
Proof.
  assert (is_int32 (-1)) as Ha by (vm_compute; split; [discriminate | reflexivity]).
  assert (is_int32 1) as Hb by (vm_compute; split; [discriminate | reflexivity]).
  split; [exact Ha|]. split; [exact Hb|].
  destruct (fixed_mul_truncates (-1) 1 Ha Hb) as [_ Hexact].
  destruct Hexact as [Hvalue Hbound].
  - vm_compute. split; [discriminate | reflexivity].
  - split; [rewrite Hvalue; reflexivity | exact Hbound].
Defined.

(** FIXED_ONE is a unit of [fixed_mul] on both sides, and whole numbers
    multiply exactly while their product stays below 2^15. *)
Theorem fixed_mul_unit_and_whole_numbers (a m n : Z) :
  is_int32 a ->
  - 2 ^ 15 <= m < 2 ^ 15 -> - 2 ^ 15 <= n < 2 ^ 15 ->
  - 2 ^ 15 <= m * n < 2 ^ 15 ->
  fixed_mul a FIXED_ONE = a
  /\ fixed_mul FIXED_ONE a = a
  /\ fixed_mul (m * FIXED_ONE) (n * FIXED_ONE) = m * n * FIXED_ONE.
Proof.
  intros Ha Hm Hn Hmn. rewrite FIXED_ONE_value.
  change (2 ^ 15) with 32768 in *.
  assert (is_int32 65536) as Hone
      by (vm_compute; split; [discriminate | reflexivity]).
  pose proof Ha as Ha'. unfold is_int32 in Ha'.
  change (2 ^ 31) with 2147483648 in Ha'.
  split; [|split].
  - rewrite fixed_mul_exact;
      [ | assumption | assumption
        | change (2 ^ 47) with 140737488355328; lia ].
    change (2 ^ 16) with 65536. apply Z.div_mul. lia.
  - rewrite fixed_mul_exact;
      [ | assumption | assumption
        | change (2 ^ 47) with 140737488355328; lia ].
    change (2 ^ 16) with 65536. rewrite Z.mul_comm. apply Z.div_mul. lia.
  - rewrite fixed_mul_exact.
    + change (2 ^ 16) with 65536.
      replace (m * 65536 * (n * 65536)) with (m * n * 65536 * 65536) by lia.
      apply Z.div_mul. lia.
    + unfold is_int32. change (2 ^ 31) with 2147483648. lia.
    + unfold is_int32. change (2 ^ 31) with 2147483648. lia.
    + change (2 ^ 47) with 140737488355328.
      replace (m * 65536 * (n * 65536)) with (m * n * 4294967296) by lia. lia.
Qed.

Lemma fixed_mul_unit_and_whole_numbers_witness :
  fixed_mul 12345 FIXED_ONE = 12345
  /\ fixed_mul FIXED_ONE 12345 = 12345
  /\ fixed_mul (2 * FIXED_ONE) (3 * FIXED_ONE) = 2 * 3 * FIXED_ONE.
Proof.
  apply (fixed_mul_unit_and_whole_numbers 12345 2 3).
  - vm_compute. split; [discriminate | reflexivity].
  - vm_compute. split; [discriminate | reflexivity].
  - vm_compute. split; [discriminate | reflexivity].
  - vm_compute. split; [discriminate | reflexivity].
Defined.

(* ================================================================= *)
(** ** DecisionPolicy: every outcome, and the battery *)

(** Splits on one test of the policy. *)
Ltac policy_test :=
  match goal with
  | |- context [?low <=? ?high] => destruct (Z.leb_spec low high)
  | |- context [?low <? ?high] => destruct (Z.ltb_spec low high)
  | |- context [?class =? ?value] => destruct (Z.eqb_spec class value)
  end.

(** Unfolds the policy and splits on each of its tests. *)
Ltac policy_cases :=
  unfold evaluate_structure, sufficient_spectral_activity;
  rewrite ?fixed_0_1, ?fixed_0_7;
  repeat policy_test;
  cbn [andb negb].

Section PolicyOutcomes.

Variables (spectral : SpectralResult) (inference : InferenceResult).
Variables (battery_mv : Z) (config : ThresholdConfig).

Lemma alert_iff :
  evaluate_structure spectral inference battery_mv config = TX_ALERT
  <-> (sufficient_spectral_activity spectral config = true
       /\ predicted_class inference = 1
       /\ effective_threshold battery_mv config <= confidence inference).
Proof.
  policy_cases;
    (split; [intros Hret | intros (Hact & Hcls & Hconf)]);
    try discriminate; try lia; auto.
Qed.

(** Class 0, and every class other than 1 and 2, gives SLEEP. *)
Theorem other_classes_sleep :
  predicted_class inference <> 1 -> predicted_class inference <> 2 ->
  evaluate_structure spectral inference battery_mv config = SLEEP.
Proof.
  intros Hone Htwo. policy_cases; try reflexivity; contradiction.
Qed.

(** With enough spectral activity, a class-1 result whose confidence
    reaches the effective threshold is TX_ALERT at every battery voltage. *)
Theorem confident_anomaly_always_alerts :
  min_peaks_for_detection config <= num_peaks spectral ->
  float_to_fixed (f32_literal 1 10) < peak_magnitude spectral ->
  predicted_class inference = 1 ->
  effective_threshold battery_mv config <= confidence inference ->
  evaluate_structure spectral inference battery_mv config = TX_ALERT.
Proof.
  intros Hpeaks Hmag Hcls Hconf. apply alert_iff.
  split; [|split; assumption].
  unfold sufficient_spectral_activity. apply andb_true_iff.
  split; [apply Z.leb_le | apply Z.ltb_lt]; assumption.
Qed.

(** TX_UNCERTAIN has two sources: a class-1 confidence below the effective
    threshold but at least its 0.7 multiple, and a class-2 result at a
    battery of at least BATTERY_LOW_MV with one peak more than the minimum;
    in both the activity test has passed. *)
Theorem uncertain_iff :
  evaluate_structure spectral inference battery_mv config = TX_UNCERTAIN
  <-> (min_peaks_for_detection config <= num_peaks spectral
       /\ float_to_fixed (f32_literal 1 10) < peak_magnitude spectral
       /\ ((predicted_class inference = 1
            /\ confidence inference < effective_threshold battery_mv config
            /\ fixed_mul (effective_threshold battery_mv config)
                         (float_to_fixed (f32_literal 7 10))
               <= confidence inference)
           \/ (predicted_class inference = 2
               /\ BATTERY_LOW_MV <= battery_mv
               /\ min_peaks_for_detection config + 1 <= num_peaks spectral))).
Proof.
  unfold evaluate_structure, sufficient_spectral_activity. cbv zeta.
  rewrite fixed_0_1, fixed_0_7.
  generalize (effective_threshold battery_mv config) as threshold.
  intros threshold.
  destruct (Z.leb_spec (min_peaks_for_detection config) (num_peaks spectral));
    destruct (Z.ltb_spec 6553 (peak_magnitude spectral));
    cbn [andb negb];
    try (split; [discriminate | intros (? & ? & _); lia]).
  destruct (Z.eqb_spec (predicted_class inference) 0) as [Hzero|Hzero].
  { split; [discriminate | intros (_ & _ & [[? _]|[? _]]); lia]. }
  destruct (Z.eqb_spec (predicted_class inference) 1) as [Hone|Hone].
  { destruct (Z.leb_spec threshold (confidence inference)).
    - split; [discriminate | intros (_ & _ & [[_ [? _]]|[? _]]); lia].
    - destruct (Z.leb_spec (fixed_mul threshold 45875) (confidence inference)).
      + split; [intros _ | reflexivity].
        split; [lia|]. split; [lia|]. left. lia.
      + split; [discriminate | intros (_ & _ & [[_ [_ ?]]|[? _]]); lia]. }
  destruct (Z.eqb_spec (predicted_class inference) 2) as [Htwo|Htwo].
  { destruct (Z.leb_spec BATTERY_LOW_MV battery_mv);
      destruct (Z.leb_spec (min_peaks_for_detection config + 1)
                           (num_peaks spectral));
      cbn [andb];
      try (split; [discriminate | intros (_ & _ & [[? _]|[_ [? ?]]]); lia]).
    split; [intros _ | reflexivity].
    split; [lia|]. split; [lia|]. right. lia. }
  split; [discriminate | intros (_ & _ & [[? _]|[? _]]); lia].
Qed.

End PolicyOutcomes.

Lemma other_classes_sleep_witness :
  evaluate_structure active_spectrum
                     {| confidence := FIXED_ONE; predicted_class := 3 |}
                     BATTERY_NOMINAL_MV get_default_config = SLEEP.
Proof.
  apply (other_classes_sleep active_spectrum
           {| confidence := FIXED_ONE; predicted_class := 3 |}
           BATTERY_NOMINAL_MV get_default_config);
    vm_compute; discriminate.
Defined.

Lemma confident_anomaly_always_alerts_witness :
  evaluate_structure active_spectrum
                     {| confidence := FIXED_ONE; predicted_class := 1 |}
                     2500 get_default_config = TX_ALERT.
Proof.
  apply (confident_anomaly_always_alerts active_spectrum
           {| confidence := FIXED_ONE; predicted_class := 1 |}
           2500 get_default_config).
  - vm_compute. discriminate.
  - vm_compute. reflexivity.
  - reflexivity.
  - vm_compute. discriminate.
Defined.

Lemma uncertain_iff_witness :
  evaluate_structure active_spectrum confident_anomaly 2900 get_default_config
  = TX_UNCERTAIN.
Proof.
  apply (uncertain_iff active_spectrum confident_anomaly 2900 get_default_config).
  split; [vm_compute; discriminate|].
  split; [vm_compute; reflexivity|].
  left. split; [reflexivity|].
  split; [vm_compute; reflexivity | vm_compute; discriminate].
Defined.

Section BatteryTiers.

Variable config : ThresholdConfig.
Hypothesis config_scales_up : scales_up config.

(** The three thresholds: the base one, and its two scaled versions, none
    of which wraps. *)
Lemma effective_threshold_tiers (battery_mv : Z) :
  effective_threshold battery_mv config
  = (if battery_mv <? BATTERY_CRITICAL_MV
     then base_confidence_threshold config
          * critical_battery_multiplier config / 2 ^ 16
     else if battery_mv <? BATTERY_LOW_MV
          then base_confidence_threshold config
               * low_battery_multiplier config / 2 ^ 16
          else base_confidence_threshold config).
Proof.
  destruct config_scales_up as (Hbase & Hlow & Hcrit & Hcrit31 & Hfit).
  rewrite FIXED_ONE_value in Hlow.
  change (2 ^ 31) with 2147483648 in Hcrit31.
  change (2 ^ 47) with 140737488355328 in Hfit.
  assert (is_int32 (base_confidence_threshold config)) as Hb
      by (unfold is_int32; change (2 ^ 31) with 2147483648; nia).
  unfold effective_threshold.
  destruct (battery_mv <? BATTERY_CRITICAL_MV).
  - apply fixed_mul_exact; [exact Hb | within_int32 |].
    change (2 ^ 47) with 140737488355328. nia.
  - destruct (battery_mv <? BATTERY_LOW_MV); [|reflexivity].
    apply fixed_mul_exact; [exact Hb | within_int32 |].
    change (2 ^ 47) with 140737488355328. nia.
Qed.

(** A lower battery never lowers the threshold. *)
Lemma effective_threshold_antitone (low_mv high_mv : Z) :
  low_mv <= high_mv ->
  0 <= effective_threshold high_mv config
  <= effective_threshold low_mv config
  /\ effective_threshold low_mv config < 2 ^ 31.
Proof.
  intros Hle. rewrite !effective_threshold_tiers.
  destruct config_scales_up as (Hbase & Hlow & Hcrit & Hcrit31 & Hfit).
  rewrite FIXED_ONE_value in Hlow.
  change (2 ^ 31) with 2147483648 in *.
  change (2 ^ 47) with 140737488355328 in Hfit.
  change (2 ^ 16) with 65536.
  set (base := base_confidence_threshold config) in *.
  set (lowm := low_battery_multiplier config) in *.
  set (critm := critical_battery_multiplier config) in *.
  assert (base <= base * lowm / 65536) as H1
      by (apply Z.div_le_lower_bound; nia).
  assert (base * lowm / 65536 <= base * critm / 65536) as H2
      by (apply Z.div_le_mono; nia).
  assert (base * critm / 65536 < 2147483648) as H3
      by (apply Z.div_lt_upper_bound; lia).
  unfold BATTERY_CRITICAL_MV, BATTERY_LOW_MV.
  destruct (Z.ltb_spec high_mv 3000); destruct (Z.ltb_spec low_mv 3000);
    destruct (Z.ltb_spec high_mv 3300); destruct (Z.ltb_spec low_mv 3300);
    lia.
Qed.

End BatteryTiers.

(** The floor of the uncertain band, 0.7 of the threshold, grows with it. *)
Lemma uncertain_floor_monotone (x y : Z) :
  0 <= x <= y -> y < 2 ^ 31 ->
  fixed_mul x 45875 <= fixed_mul y 45875.
Proof.
  change (2 ^ 31) with 2147483648. intros Hxy Hy.
  rewrite !fixed_mul_exact;
    try (unfold is_int32; change (2 ^ 31) with 2147483648; lia);
    try (change (2 ^ 47) with 140737488355328; lia).
  apply Z.div_le_mono; [reflexivity | lia].
Qed.

(** Under a configuration with a base threshold of at least 0 and
    multipliers of at least FIXED_ONE, the critical one at least the low
    one, none overflowing ([scales_up]), an input that is TX_ALERT at one
    battery voltage is TX_ALERT at every higher one.  The sign of the base
    threshold matters: see [negative_base_reverses_the_tiers]. *)
Theorem alert_survives_higher_battery
        (spectral : SpectralResult) (inference : InferenceResult)
        (config : ThresholdConfig) (low_mv high_mv : Z) :
  scales_up config -> low_mv <= high_mv ->
  evaluate_structure spectral inference low_mv config = TX_ALERT ->
  evaluate_structure spectral inference high_mv config = TX_ALERT.
Proof.
  intros Hconfig Hle Halert.
  apply alert_iff in Halert. destruct Halert as (Hact & Hcls & Hconf).
  apply alert_iff. split; [exact Hact|]. split; [exact Hcls|].
  pose proof (effective_threshold_antitone config Hconfig low_mv high_mv Hle).
  lia.
Qed.

(** Under the same configurations (base threshold at least 0, multipliers
    at least FIXED_ONE, the critical one at least the low one, none
    overflowing) an input that is SLEEP at one battery voltage is SLEEP at
    every lower one: a falling battery never turns a sleep into a
    transmission. *)
Theorem sleep_survives_lower_battery
        (spectral : SpectralResult) (inference : InferenceResult)
        (config : ThresholdConfig) (low_mv high_mv : Z) :
  scales_up config -> low_mv <= high_mv ->
  evaluate_structure spectral inference high_mv config = SLEEP ->
  evaluate_structure spectral inference low_mv config = SLEEP.
Proof.
  intros Hconfig Hle.
  pose proof (effective_threshold_antitone config Hconfig low_mv high_mv Hle)
    as [Hthr Hthr31].
  pose proof (uncertain_floor_monotone _ _ Hthr Hthr31) as Hfloor.
  unfold evaluate_structure. cbv zeta. rewrite fixed_0_7.
  revert Hthr Hthr31 Hfloor.
  generalize (effective_threshold high_mv config) as high_threshold.
  generalize (effective_threshold low_mv config) as low_threshold.
  intros low_threshold high_threshold Hthr Hthr31.
  generalize (fixed_mul high_threshold 45875) as high_floor.
  generalize (fixed_mul low_threshold 45875) as low_floor.
  intros low_floor high_floor Hfloor.
  destruct (sufficient_spectral_activity spectral config); cbn [negb];
    [|reflexivity].
  destruct (predicted_class inference =? 0); [reflexivity|].
  destruct (predicted_class inference =? 1).
  - destruct (Z.leb_spec high_threshold (confidence inference));
      [discriminate|].
    destruct (Z.leb_spec high_floor (confidence inference)); [discriminate|].
    intros _.
    destruct (Z.leb_spec low_threshold (confidence inference)); [lia|].
    destruct (Z.leb_spec low_floor (confidence inference)); [lia|].
    reflexivity.
  - destruct (predicted_class inference =? 2); [|reflexivity].
    unfold BATTERY_LOW_MV.
    destruct (Z.leb_spec 3300 high_mv); destruct (Z.leb_spec 3300 low_mv);
      try lia; cbn [andb]; try reflexivity.
    destruct (min_peaks_for_detection config + 1 <=? num_peaks spectral);
      [discriminate | reflexivity].
Qed.

Lemma default_config_scales_up : scales_up get_default_config.
Proof.
  rewrite default_config_value. unfold scales_up. cbn.
  repeat split; try discriminate; reflexivity.
Qed.

(** Why [scales_up] asks for a base threshold of at least 0: under a
    negative one the multipliers lower the threshold, and the same input is
    TX_ALERT at 2900 mV and SLEEP at 3700 mV. *)
Lemma negative_base_reverses_the_tiers :
  evaluate_structure active_spectrum negative_confidence 2900
                     negative_base_config = TX_ALERT
  /\ evaluate_structure active_spectrum negative_confidence 3700
                        negative_base_config = SLEEP
  /\ ~ scales_up negative_base_config.
Proof.
  split; [vm_compute; reflexivity|]. split; [vm_compute; reflexivity|].
  intros (Hbase & _). vm_compute in Hbase. apply Hbase. reflexivity.
Qed.

Lemma alert_survives_higher_battery_witness :
  evaluate_structure active_spectrum
                     {| confidence := FIXED_ONE; predicted_class := 1 |}
                     BATTERY_NOMINAL_MV get_default_config = TX_ALERT.
Proof.
  apply (alert_survives_higher_battery active_spectrum
           {| confidence := FIXED_ONE; predicted_class := 1 |}
           get_default_config 2500 BATTERY_NOMINAL_MV).
  - exact default_config_scales_up.
  - vm_compute. discriminate.
  - vm_compute. reflexivity.
Defined.

Lemma sleep_survives_lower_battery_witness :
  evaluate_structure active_spectrum
                     {| confidence := 30000; predicted_class := 1 |}
                     2500 get_default_config = SLEEP.
Proof.
  apply (sleep_survives_lower_battery active_spectrum
           {| confidence := 30000; predicted_class := 1 |}
           get_default_config 2500 3100).
  - exact default_config_scales_up.
  - vm_compute. discriminate.
  - vm_compute. reflexivity.
Defined.

(** The three decisions render as three different strings, none of them
    the string of the default branch; every other value renders as it. *)
Theorem decision_rendering_is_faithful :
  (forall d1 d2 : Decision,
      Render.decision_to_string (Render.decision_value d1)
      = Render.decision_to_string (Render.decision_value d2) -> d1 = d2)
  /\ (forall v : Z,
         Render.decision_to_string v = Render.UNKNOWN
         <-> (forall d : Decision, v <> Render.decision_value d)).
Proof.
  split.
  - intros [] []; cbn; intros H; try reflexivity; discriminate H.
  - intros v. unfold Render.decision_to_string. split.
    + intros Hunknown d.
      destruct (Z.eqb_spec v 0); [discriminate|].
      destruct (Z.eqb_spec v 1); [discriminate|].
      destruct (Z.eqb_spec v 2); [discriminate|].
      destruct d; cbn; assumption.
    + intros Hnone.
      destruct (Z.eqb_spec v 0) as [H0|_]; [exfalso; apply (Hnone SLEEP H0)|].
      destruct (Z.eqb_spec v 1) as [H1|_]; [exfalso; apply (Hnone TX_ALERT H1)|].
      destruct (Z.eqb_spec v 2) as [H2|_];
        [exfalso; apply (Hnone TX_UNCERTAIN H2)|].
      reflexivity.
Qed.

(* ================================================================= *)
(** ** The carriers: a triangle wave *)

(** A property checked on the 256 residues holds of every residue. *)
Lemma on_residues (P : Z -> bool) :
  forallb P residues = true ->
  forall y, 0 <= y < 256 -> P y = true.
Proof.
  intros Hall y Hy. rewrite forallb_forall in Hall. apply Hall.
  unfold residues. apply in_map_iff. exists (Z.to_nat y).
  split; [lia | apply in_seq; lia].
Qed.

(** [fast_sin] looks at the low 8 bits of its angle only. *)
Lemma fast_sin_residue (angle_256 : Z) :
  fast_sin angle_256 = fast_sin (angle_256 mod 256).
Proof.
  unfold fast_sin. change 255 with (Z.ones 8).
  rewrite !Z.land_ones by lia. change (2 ^ 8) with 256.
  rewrite Z.mod_mod by lia. reflexivity.
Qed.

Lemma fast_cos_residue (angle_256 : Z) :
  fast_cos angle_256 = fast_sin ((angle_256 mod 256 + 64) mod 256).
Proof.
  unfold fast_cos. rewrite fast_sin_residue.
  unfold to_uint32, wrap_unsigned.
  change (2 ^ 32) with (256 * 16777216).
  rewrite Z.rem_mul_r by lia.
  rewrite Z.mul_comm, Z.mod_add by lia.
  rewrite Z.mod_mod by lia.
  rewrite Z.add_mod_idemp_l by lia. reflexivity.
Qed.

(** [fast_sin] is the triangle wave through 0, FIXED_ONE, 0 and -FIXED_ONE
    at the residues 0, 64, 128 and 192 of the angle; it never leaves
    [-FIXED_ONE, FIXED_ONE]. *)
Theorem fast_sin_is_triangle (angle_256 : Z) :
  fast_sin angle_256 = triangle (angle_256 mod 256)
  /\ - FIXED_ONE <= fast_sin angle_256 <= FIXED_ONE.
Proof.
  rewrite fast_sin_residue.
  pose proof (Z.mod_pos_bound angle_256 256) as Hy.
  generalize dependent (angle_256 mod 256). intros y Hy.
  assert (((fast_sin y =? triangle y)
           && (- FIXED_ONE <=? fast_sin y) && (fast_sin y <=? FIXED_ONE)) = true)
    as Hcheck.
  { apply (on_residues
             (fun y => (fast_sin y =? triangle y)
                       && (- FIXED_ONE <=? fast_sin y)
                       && (fast_sin y <=? FIXED_ONE)));
      [vm_compute; reflexivity | lia]. }
  apply andb_true_iff in Hcheck. destruct Hcheck as [Hcheck Hhi].
  apply andb_true_iff in Hcheck. destruct Hcheck as [Heq Hlo].
  apply Z.eqb_eq in Heq. apply Z.leb_le in Hlo. apply Z.leb_le in Hhi.
  split; [exact Heq | lia].
Qed.

(** [fast_sin] has period 256, changes sign over half a period and is odd. *)
Theorem fast_sin_symmetries (angle_256 : Z) :
  fast_sin (angle_256 + 256) = fast_sin angle_256
  /\ fast_sin (angle_256 + 128) = - fast_sin angle_256
  /\ fast_sin (- angle_256) = - fast_sin angle_256.
Proof.
  pose proof (Z.mod_pos_bound angle_256 256) as Hy.
  split; [|split].
  - rewrite fast_sin_residue, (fast_sin_residue angle_256).
    f_equal. replace (angle_256 + 256) with (angle_256 + 1 * 256) by lia.
    apply Z.mod_add. lia.
  - rewrite fast_sin_residue, (fast_sin_residue angle_256).
    rewrite <- Z.add_mod_idemp_l by lia.
    apply Z.eqb_eq.
    apply (on_residues
             (fun y => fast_sin ((y + 128) mod 256) =? - fast_sin y));
      [vm_compute; reflexivity | lia].
  - rewrite fast_sin_residue, (fast_sin_residue angle_256).
    replace ((- angle_256) mod 256) with ((256 - angle_256 mod 256) mod 256).
    + apply Z.eqb_eq.
      apply (on_residues
               (fun y => fast_sin ((256 - y) mod 256) =? - fast_sin y));
        [vm_compute; reflexivity | lia].
    + rewrite Zminus_mod_idemp_r.
      replace (256 - angle_256) with (- angle_256 + 1 * 256) by lia.
      apply Z.mod_add. lia.
Qed.

(** The two carriers of a bin are in quadrature in the sense of a triangle
    wave: their absolute values add up to FIXED_ONE at every angle. *)
Theorem carriers_add_up_to_one (angle_256 : Z) :
  Z.abs (fast_sin angle_256) + Z.abs (fast_cos angle_256) = FIXED_ONE.
Proof.
  rewrite fast_cos_residue, fast_sin_residue.
  pose proof (Z.mod_pos_bound angle_256 256) as Hy.
  apply Z.eqb_eq.
  apply (on_residues
           (fun y => Z.abs (fast_sin y) + Z.abs (fast_sin ((y + 64) mod 256))
                     =? FIXED_ONE));
    [vm_compute; reflexivity | lia].
Qed.

(* ================================================================= *)
(** ** The magnitude estimate and the spectrum *)

Lemma magnitude_estimate_closed (real_sum imag_sum : Z) :
  Z.abs real_sum <= 2 ^ 31 -> Z.abs imag_sum <= 2 ^ 31 ->
  magnitude_estimate real_sum imag_sum
  = (Z.max (Z.abs real_sum) (Z.abs imag_sum)
     + Z.min (Z.abs real_sum) (Z.abs imag_sum) * 4 / 10) / 2 ^ 16.
Proof.
  change (2 ^ 31) with 2147483648. intros Hre Him. unfold magnitude_estimate.
  assert ((if 0 <=? real_sum then real_sum else to_int64 (- real_sum))
          = Z.abs real_sum) as ->.
  { destruct (Z.leb_spec 0 real_sum); [lia|].
    rewrite to_int64_small by within_int64. lia. }
  assert ((if 0 <=? imag_sum then imag_sum else to_int64 (- imag_sum))
          = Z.abs imag_sum) as ->.
  { destruct (Z.leb_spec 0 imag_sum); [lia|].
    rewrite to_int64_small by within_int64. lia. }
  pose proof (Z.abs_nonneg real_sum). pose proof (Z.abs_nonneg imag_sum).
  set (ar := Z.abs real_sum) in *. set (ai := Z.abs imag_sum) in *.
  assert ((if ai <? ar then ar else ai) = Z.max ar ai) as ->
      by (destruct (Z.ltb_spec ai ar); lia).
  assert ((if ar <? ai then ar else ai) = Z.min ar ai) as ->
      by (destruct (Z.ltb_spec ar ai); lia).
  rewrite (to_int64_small (Z.min ar ai * 4)) by within_int64.
  rewrite Z.quot_div_nonneg by lia.
  assert (0 <= Z.min ar ai * 4 / 10 <= Z.min ar ai * 4) as Hq.
  { split; [apply Z.div_pos; lia | apply Z.div_le_upper_bound; lia]. }
  rewrite to_int64_small by within_int64.
  unfold FIXED_SHIFT. rewrite Z.shiftr_div_pow2 by lia.
  change (2 ^ 16) with 65536.
  apply to_int32_small. unfold is_int32. change (2 ^ 31) with 2147483648.
  split.
  - assert (0 <= (Z.max ar ai + Z.min ar ai * 4 / 10) / 65536)
      by (apply Z.div_pos; lia). lia.
  - apply Z.div_lt_upper_bound; lia.
Qed.

(** On sums that a division by the sample count leaves within 2^31 the
    estimate is max + 0.4 min of the two absolute values, over 2^16, with no
    wrap-around: it does not depend on the signs or on the order of the two
    sums, is at least the larger one over 2^16, and at most 45875 (0.7). *)
Theorem magnitude_estimate_is_alpha_max_beta_min (real_sum imag_sum : Z) :
  Z.abs real_sum <= 2 ^ 31 -> Z.abs imag_sum <= 2 ^ 31 ->
  magnitude_estimate real_sum imag_sum
  = (Z.max (Z.abs real_sum) (Z.abs imag_sum)
     + Z.min (Z.abs real_sum) (Z.abs imag_sum) * 4 / 10) / 2 ^ 16
  /\ magnitude_estimate real_sum imag_sum
     = magnitude_estimate imag_sum real_sum
  /\ magnitude_estimate real_sum imag_sum
     = magnitude_estimate (- real_sum) (- imag_sum)
  /\ Z.max (Z.abs real_sum) (Z.abs imag_sum) / 2 ^ 16
     <= magnitude_estimate real_sum imag_sum <= 45875.
Proof.
  intros Hre Him.
  rewrite !magnitude_estimate_closed by (rewrite ?Z.abs_opp; assumption).
  rewrite !Z.abs_opp.
  split; [reflexivity|]. split; [|split; [reflexivity|]].
  - rewrite (Z.max_comm (Z.abs imag_sum)), (Z.min_comm (Z.abs imag_sum)).
    reflexivity.
  - change (2 ^ 31) with 2147483648 in *. change (2 ^ 16) with 65536.
    pose proof (Z.abs_nonneg real_sum). pose proof (Z.abs_nonneg imag_sum).
    set (ar := Z.abs real_sum) in *. set (ai := Z.abs imag_sum) in *.
    assert (0 <= Z.min ar ai * 4 / 10 < 858993460) as Hq.
    { split; [apply Z.div_pos; lia|].
      apply Z.div_lt_upper_bound; lia. }
    split.
    + apply Z.div_le_mono; lia.
    + apply Z.lt_succ_r. apply Z.div_lt_upper_bound; lia.
Qed.

Lemma magnitude_estimate_is_alpha_max_beta_min_witness :
  magnitude_estimate (-196608) 655360 = 11
  /\ magnitude_estimate (-196608) 655360 = magnitude_estimate 655360 (-196608).
Proof.
  destruct (magnitude_estimate_is_alpha_max_beta_min (-196608) 655360)
    as (Hclosed & Hsym & _).
  - vm_compute. discriminate.
  - vm_compute. discriminate.
  - split; [rewrite Hclosed; reflexivity | exact Hsym].
Defined.

Section BoundedSpectrum.

Variable p : SpectralProcessor.
Variable samples : list Z.
Variable num_samples : Z.
Hypothesis window_size : 0 < num_samples <= SIZE_MAX.
Hypothesis window_inside : num_samples <= Z.of_nat (length samples).
Hypothesis window_int16 : Forall is_int16 samples.

(** What a bin holds: the estimate of two averaged sums. *)
Lemma spectrum_bin_value (k : Z) :
  num_bins p <> 0 ->
  exists real_sum imag_sum,
    Z.abs real_sum <= 2 ^ 31 /\ Z.abs imag_sum <= 2 ^ 31
    /\ spectrum_bin p (Some samples) num_samples k
       = Ok (magnitude_estimate real_sum imag_sum).
Proof.
  intros Hbins. unfold spectrum_bin.
  destruct (Z.eqb_spec (num_bins p) 0); [contradiction|]. cbn [bind].
  destruct (correlate_sums samples num_samples window_size window_inside
                           window_int16
                           (to_uint32 (Z.quot (to_size (k * 256)) (num_bins p))))
    as (re & im & -> & Hre & Him).
  cbn [bind fst snd].
  assert (to_int64 num_samples = num_samples) as ->.
  { apply to_int64_small. unfold SIZE_MAX, SIZE_BITS in window_size.
    change (2 ^ 32) with 4294967296 in window_size.
    change (2 ^ 63) with 9223372036854775808. lia. }
  unfold sdiv. destruct (Z.eqb_spec num_samples 0); [lia|].
  destruct (Z.eqb_spec num_samples (-1)); [lia|].
  rewrite !andb_false_r. cbn [bind].
  exists (Z.quot re num_samples), (Z.quot im num_samples).
  split; [apply quot_abs_bound; lia|].
  split; [apply quot_abs_bound; lia | reflexivity].
Qed.

Lemma spectrum_bounded (cap : Z) :
  0 <= num_bins p <= cap ->
  exists magnitudes,
    compute_magnitude_spectrum p (Some samples) num_samples cap = Ok magnitudes
    /\ Z.of_nat (length magnitudes) = num_bins p
    /\ Forall (fun m => 0 <= m <= 45875) magnitudes.
Proof.
  intros Hbins. unfold compute_magnitude_spectrum.
  run_loop (fun (k : Z) (magnitudes : list Z) =>
              Z.of_nat (length magnitudes) = k
              /\ Forall (fun m => 0 <= m <= 45875) magnitudes)
    as (magnitudes & Hrun & Hlen & Hall).
  - intros k magnitudes Hk [Hlen Hall]. cbv beta.
    destruct (spectrum_bin_value k) as (re & im & Hre & Him & ->); [lia|].
    cbn [bind].
    exists (magnitudes ++ [magnitude_estimate re im]). split.
    + rewrite <- Hlen. apply array_set_append. lia.
    + split.
      * rewrite length_app. cbn [length]. lia.
      * apply Forall_app. split; [exact Hall|].
        constructor; [|constructor].
        rewrite magnitude_estimate_closed by assumption.
        change (2 ^ 31) with 2147483648 in *. change (2 ^ 16) with 65536.
        pose proof (Z.abs_nonneg re). pose proof (Z.abs_nonneg im).
        assert (0 <= Z.min (Z.abs re) (Z.abs im) * 4 / 10 < 858993460) as Hq.
        { split; [apply Z.div_pos; lia|].
          apply Z.div_lt_upper_bound; lia. }
        split; [apply Z.div_pos; lia|].
        apply Z.lt_succ_r. apply Z.div_lt_upper_bound; lia.
  - lia.
  - split; [reflexivity | constructor].
  - exists magnitudes. auto.
Qed.

End BoundedSpectrum.

(** On a window of int16 samples [compute_magnitude_spectrum] fills one
    cell per bin, each between 0 and 45875: full-scale input cannot give a
    magnitude above 0.7. *)
Theorem spectrum_magnitudes_are_bounded
        (p : SpectralProcessor) (samples : list Z) (num_samples cap : Z) :
  0 < num_samples <= SIZE_MAX ->
  num_samples <= Z.of_nat (length samples) ->
  Forall is_int16 samples ->
  0 <= num_bins p <= cap ->
  exists magnitudes,
    compute_magnitude_spectrum p (Some samples) num_samples cap = Ok magnitudes
    /\ Z.of_nat (length magnitudes) = num_bins p
    /\ Forall (fun m => 0 <= m <= 45875) magnitudes.
Proof.
  intros Hsize Hinside Hint16 Hbins.
  apply spectrum_bounded; assumption.
Qed.

Lemma small_window_is_valid :
  (0 < 8 <= SIZE_MAX) /\ 8 <= Z.of_nat (length small_window)
  /\ Forall is_int16 small_window.
Proof.
  split; [vm_compute; split; [reflexivity | discriminate]|].
  split; [vm_compute; discriminate|].
  repeat (constructor; [vm_compute; split; discriminate|]). constructor.
Qed.

Lemma spectrum_magnitudes_are_bounded_witness :
  exists magnitudes,
    compute_magnitude_spectrum small_processor (Some small_window) 8 4
    = Ok magnitudes
    /\ Z.of_nat (length magnitudes) = num_bins small_processor
    /\ Forall (fun m => 0 <= m <= 45875) magnitudes.
Proof.
  destruct small_window_is_valid as (Hsize & Hinside & Hint16).
  apply (spectrum_magnitudes_are_bounded small_processor small_window 8 4
           Hsize Hinside Hint16).
  vm_compute. split; discriminate.
Defined.

(* ================================================================= *)
(** ** compute_centroid: a weighted mean of the bin indices *)

Lemma weighted_from_app (l1 l2 : list Z) :
  forall start,
    weighted_from start (l1 ++ l2)
    = weighted_from start l1
      + weighted_from (start + Z.of_nat (length l1)) l2.
Proof.
  induction l1 as [|m l1 IH]; intros start; cbn [app weighted_from length].
  - rewrite Z.add_0_r. reflexivity.
  - rewrite IH. replace (start + 1 + Z.of_nat (length l1))
      with (start + Z.of_nat (Datatypes.S (length l1))) by lia. lia.
Qed.

Lemma total_app (l1 l2 : list Z) : total (l1 ++ l2) = total l1 + total l2.
Proof.
  unfold total. induction l1 as [|m l1 IH]; cbn [app fold_right]; lia.
Qed.

Lemma total_bounds (l : list Z) (bound : Z) :
  Forall (fun m => 0 <= m <= bound) l ->
  0 <= total l <= Z.of_nat (length l) * bound.
Proof.
  unfold total. induction 1 as [|m l Hm Hl IH]; cbn [fold_right length]; nia.
Qed.

(** The weighted sum lies between the first and the last index times the
    plain sum. *)
Lemma weighted_from_bounds (l : list Z) :
  Forall (fun m => 0 <= m) l ->
  forall start,
    0 <= start ->
    start * total l <= weighted_from start l
    <= (start + Z.of_nat (length l)) * total l
    /\ (l <> [] ->
        weighted_from start l <= (start + Z.of_nat (length l) - 1) * total l).
Proof.
  induction 1 as [|m l Hm Hl IH]; intros start Hstart.
  - cbn. split; [lia | intros Hne; contradiction].
  - cbn [weighted_from length]. unfold total in *. cbn [fold_right].
    destruct (IH (start + 1)) as ([Hlo Hhi] & Hlast); [lia|].
    assert (0 <= fold_right Z.add 0 l) as Hsum.
    { clear - Hl. induction Hl; cbn [fold_right]; lia. }
    split; [split; nia|]. intros _.
    destruct l as [|m' l'].
    + cbn in *. nia.
    + assert (m' :: l' <> []) as Hne by discriminate.
      specialize (Hlast Hne). cbn [length] in *. nia.
Qed.

Lemma compute_centroid_closed (magnitudes : list Z) :
  Forall (fun m => 0 <= m <= 45875) magnitudes ->
  Z.of_nat (length magnitudes) <= MAX_BINS ->
  compute_centroid magnitudes (Z.of_nat (length magnitudes))
  = Ok (centroid_of magnitudes)
  /\ 0 <= centroid_of magnitudes
  /\ (magnitudes <> [] ->
      centroid_of magnitudes
      <= (Z.of_nat (length magnitudes) - 1) * FIXED_ONE).
Proof.
  intros Hall Hlen. unfold MAX_BINS in Hlen.
  assert (Forall (fun m => 0 <= m) magnitudes) as Hnonneg
      by (eapply Forall_impl; [|exact Hall]; cbv beta; intros; lia).
  pose proof (total_bounds magnitudes 45875 Hall) as Htotal.
  destruct (weighted_from_bounds magnitudes Hnonneg 0) as ([Hwlo Hwhi] & Hwlast);
    [lia|].
  assert (0 <= weighted_from 0 magnitudes <= 128 * (128 * 45875)) as Hwfit
      by nia.
  assert (centroid_of magnitudes
          = if total magnitudes =? 0 then 0
            else weighted_from 0 magnitudes * 65536 / total magnitudes)
    as Hquot.
  { unfold centroid_of. rewrite FIXED_ONE_value.
    destruct (Z.eqb_spec (total magnitudes) 0); [reflexivity|].
    apply Z.quot_div_nonneg; lia. }
  split; [|split].
  - unfold compute_centroid.
    run_loop (fun (i : Z) (sums : Z * Z) =>
                exists done rest,
                  magnitudes = done ++ rest
                  /\ Z.of_nat (length done) = i
                  /\ fst sums = weighted_from 0 done
                  /\ snd sums = total done)
      as ([ws ms] & -> & done & rest & Hsplit & Hdone & Hws & Hms).
    + intros i [ws ms] Hi (done & rest & Hsplit & Hdone & Hws & Hms).
      cbn [fst snd] in Hws, Hms. cbv beta iota.
      destruct rest as [|x rest].
      { rewrite app_nil_r in Hsplit. subst magnitudes. lia. }
      assert (Array.get magnitudes i = Ok x) as ->
          by (rewrite Hsplit, <- Hdone; apply array_get_middle).
      cbn [bind]. eexists. split; [reflexivity|].
      exists (done ++ [x]), rest. cbn [fst snd].
      assert (Forall (fun m => 0 <= m <= 45875) (done ++ [x])) as Hprefix.
      { rewrite Hsplit in Hall. apply Forall_app in Hall.
        destruct Hall as [Hd Hr]. apply Forall_app. split; [exact Hd|].
        constructor; [|constructor]. inversion Hr; assumption. }
      assert (Forall (fun m => 0 <= m) (done ++ [x])) as Hprefix0
          by (eapply Forall_impl; [|exact Hprefix]; cbv beta; intros; lia).
      pose proof (total_bounds _ _ Hprefix) as Htp.
      destruct (weighted_from_bounds _ Hprefix0 0) as ([Hplo Hphi] & _); [lia|].
      assert (length (done ++ [x]) = Datatypes.S (length done)) as Hlen1
          by (rewrite length_app; cbn [length]; lia).
      rewrite Hlen1 in Htp, Hphi.
      split; [rewrite <- app_assoc; exact Hsplit|].
      split; [lia|].
      rewrite weighted_from_app, total_app in *.
      cbn [weighted_from total fold_right] in *.
      assert (Z.of_nat (length done) < 128) as Hshort by lia.
      assert (0 <= weighted_from 0 done
                   + (x * (0 + Z.of_nat (length done)) + 0)
              <= 128 * (128 * 45875)) as Hstep by nia.
      rewrite Hws, Hms, <- Hdone.
      split.
      * rewrite to_int64_small by within_int64. lia.
      * rewrite to_int64_small by within_int64. lia.
    + lia.
    + exists [], magnitudes. repeat split.
    + cbn [fst snd] in Hws, Hms. cbn [bind]. cbv beta iota.
      assert (rest = []) as ->.
      { destruct rest as [|x rest]; [reflexivity|].
        rewrite Hsplit, length_app in Hdone. cbn [length] in Hdone. lia. }
      rewrite app_nil_r in Hsplit. subst done. rewrite Hws, Hms.
      unfold centroid_of.
      destruct (Z.eqb_spec (total magnitudes) 0); [reflexivity|].
      unfold sdiv. destruct (Z.eqb_spec (total magnitudes) 0); [contradiction|].
      destruct (Z.eqb_spec (total magnitudes) (-1)); [lia|].
      rewrite andb_false_r. cbn [bind]. rewrite FIXED_ONE_value.
      rewrite to_int64_small by within_int64.
      f_equal. apply to_int32_small. unfold is_int32.
      change (2 ^ 31) with 2147483648.
      rewrite Z.quot_div_nonneg by lia.
      split.
      * assert (0 <= weighted_from 0 magnitudes * 65536 / total magnitudes)
          by (apply Z.div_pos; lia). lia.
      * apply Z.div_lt_upper_bound; nia.
  - rewrite Hquot. destruct (Z.eqb_spec (total magnitudes) 0); [lia|].
    apply Z.div_pos; lia.
  - intros Hne. specialize (Hwlast Hne). rewrite Hquot, FIXED_ONE_value.
    destruct (Z.eqb_spec (total magnitudes) 0); [|].
    + destruct magnitudes; [contradiction | cbn [length]; lia].
    + apply Z.div_le_upper_bound; nia.
Qed.

(** [compute_centroid] returns the mean bin index weighted by the
    magnitudes, in Q15.16 and truncated, or 0 over an all-zero spectrum;
    the accumulators never wrap over at most MAX_BINS magnitudes of at most
    45875, and the result lies between the first bin and the last one. *)
Theorem compute_centroid_is_weighted_mean (magnitudes : list Z) :
  Forall (fun m => 0 <= m <= 45875) magnitudes ->
  Z.of_nat (length magnitudes) <= MAX_BINS ->
  compute_centroid magnitudes (Z.of_nat (length magnitudes))
  = Ok (centroid_of magnitudes)
  /\ 0 <= centroid_of magnitudes
  /\ (magnitudes <> [] ->
      centroid_of magnitudes
      <= (Z.of_nat (length magnitudes) - 1) * FIXED_ONE).
Proof. apply compute_centroid_closed. Qed.

Lemma compute_centroid_is_weighted_mean_witness :
  compute_centroid [0; 700; 0; 700] 4 = Ok (2 * FIXED_ONE).
Proof.
  destruct (compute_centroid_is_weighted_mean [0; 700; 0; 700]) as (Hrun & _).
  - repeat (constructor; [vm_compute; split; discriminate|]). constructor.
  - vm_compute. discriminate.
  - exact Hrun.
Defined.

(* ================================================================= *)
(** ** find_peaks: peaks are never neighbours *)

(** Two neighbouring bins are never both peaks, so [find_peaks] returns at
    most half of [count - 1]: at most 63 over the 128 bins of [process], and
    the uint8_t counter does not wrap on arrays of up to 512 cells. *)
Theorem find_peaks_at_most_every_other_bin
        (magnitudes : list Z) (count threshold : Z) :
  1 <= count <= 512 ->
  count = Z.of_nat (length magnitudes) ->
  find_peaks magnitudes count threshold
  = Ok (interior_peaks magnitudes threshold)
  /\ 0 <= 2 * interior_peaks magnitudes threshold <= count - 1.
Proof.
  intros Hcount Hlen.
  pose proof (interior_peaks_sparse magnitudes threshold ltac:(lia)) as Hsparse.
  split; [|lia].
  rewrite find_peaks_counts_modulo;
    [ | unfold SIZE_MAX, SIZE_BITS; change (2 ^ 32) with 4294967296; lia
      | exact Hlen ].
  f_equal. apply Z.mod_small. lia.
Qed.

Lemma find_peaks_at_most_every_other_bin_witness :
  find_peaks [0; 3; 0; 3; 0; 3; 0] 7 1 = Ok 3.
Proof.
  destruct (find_peaks_at_most_every_other_bin [0; 3; 0; 3; 0; 3; 0] 7 1)
    as (Hrun & _).
  - vm_compute. split; discriminate.
  - reflexivity.
  - exact Hrun.
Defined.

(* ================================================================= *)
(** ** process: what it reports *)

(** The scan of [process] for the largest bin after bin 0. *)
Lemma peak_scan (magnitudes : list Z) :
  (1 <= length magnitudes)%nat ->
  exists max_bin,
    for_range 1 (Z.of_nat (length magnitudes))
      (fun i '(max_mag, max_bin) =>
         m <- Array.get magnitudes i ;;
         if max_mag <? m then Ok (m, i) else Ok (max_mag, max_bin))
      (0, 0)
    = Ok (spectrum_max (tl magnitudes), max_bin)
    /\ ((spectrum_max (tl magnitudes) = 0 /\ max_bin = 0)
        \/ (0 < spectrum_max (tl magnitudes)
            /\ 1 <= max_bin < Z.of_nat (length magnitudes)
            /\ nth (Z.to_nat max_bin) magnitudes 0
               = spectrum_max (tl magnitudes)
            /\ forall j, 1 <= j < max_bin ->
                         nth (Z.to_nat j) magnitudes 0
                         < spectrum_max (tl magnitudes))).
Proof.
  intros Hlen. destruct magnitudes as [|first others]; [cbn in Hlen; lia|].
  cbn [tl]. unfold spectrum_max.
  run_loop (fun (i : Z) (peak : Z * Z) =>
              exists done rest,
                others = done ++ rest
                /\ Z.of_nat (length done) = i - 1
                /\ fst peak = fold_left Z.max done 0
                /\ ((fst peak = 0 /\ snd peak = 0)
                    \/ (0 < fst peak /\ 1 <= snd peak < i
                        /\ nth (Z.to_nat (snd peak)) (first :: others) 0
                           = fst peak
                        /\ forall j, 1 <= j < snd peak ->
                                     nth (Z.to_nat j) (first :: others) 0
                                     < fst peak)))
    as ([max_mag max_bin] & -> & done & rest & Hsplit & Hdone & Hmax & Hbin).
  - intros i [max_mag max_bin] Hi (done & rest & Hsplit & Hdone & Hmax & Hbin).
    cbn [fst snd] in Hmax, Hbin. cbv beta iota.
    destruct rest as [|x rest].
    { rewrite app_nil_r in Hsplit. subst others. cbn [length] in Hi. lia. }
    assert (Array.get (first :: others) i = Ok x
            /\ nth (Z.to_nat i) (first :: others) 0 = x) as [-> Hnth].
    { rewrite Hsplit.
      replace i with (Z.of_nat (length (first :: done)))
        by (cbn [length]; lia).
      change (first :: done ++ x :: rest) with ((first :: done) ++ x :: rest).
      split; [apply array_get_middle|].
      rewrite Nat2Z.id. apply nth_middle. }
    cbn [bind].
    pose proof (fold_max_spec done 0) as (Hnonneg & Hupper & _).
    destruct (Z.ltb_spec max_mag x) as [Hlt|Hge].
    + eexists. split; [reflexivity|].
      exists (done ++ [x]), rest. cbn [fst snd].
      split; [rewrite <- app_assoc; exact Hsplit|].
      split; [rewrite length_app; cbn [length]; lia|].
      split; [rewrite fold_left_app; cbn [fold_left]; lia|].
      right. split; [lia|]. split; [lia|]. split; [exact Hnth|].
      intros j Hj.
      assert (nth (Z.to_nat j) (first :: others) 0
              = nth (Z.to_nat j - 1) done 0) as ->.
      { rewrite Hsplit.
        replace (Z.to_nat j) with (Datatypes.S (Z.to_nat j - 1)) at 1 by lia.
        cbn [nth]. apply app_nth1. lia. }
      assert (nth (Z.to_nat j - 1) done 0 <= fold_left Z.max done 0)
        by (apply Hupper; apply nth_In; lia).
      lia.
    + eexists. split; [reflexivity|].
      exists (done ++ [x]), rest. cbn [fst snd].
      split; [rewrite <- app_assoc; exact Hsplit|].
      split; [rewrite length_app; cbn [length]; lia|].
      split; [rewrite fold_left_app; cbn [fold_left]; lia|].
      destruct Hbin as [[Hzero Hbin0]|(Hpos & Hrange & Hattained & Hfirst)];
        [left; split; assumption|].
      right. split; [exact Hpos|]. split; [lia|].
      split; [exact Hattained | exact Hfirst].
  - cbn [length]. lia.
  - exists [], others. cbn [fst snd length fold_left].
    split; [reflexivity|]. split; [lia|]. split; [reflexivity|].
    left. split; reflexivity.
  - cbn [fst snd] in Hmax, Hbin.
    assert (rest = []) as ->.
    { destruct rest as [|x rest]; [reflexivity|].
      rewrite Hsplit in Hdone. cbn [length] in Hdone.
      rewrite length_app in Hdone. cbn [length] in Hdone. lia. }
    rewrite app_nil_r in Hsplit. subst done.
    exists max_bin. rewrite <- Hmax. split; [reflexivity | exact Hbin].
Qed.

Section ProcessReport.

Variable p : SpectralProcessor.
Variable samples : list Z.
Variable num_samples : Z.
Hypothesis window_size : 0 < num_samples <= SIZE_MAX.
Hypothesis window_inside : num_samples <= Z.of_nat (length samples).
Hypothesis window_int16 : Forall is_int16 samples.
Hypothesis bins_fit : 1 <= num_bins p <= MAX_BINS.
Hypothesis rate_uint32 : is_uint32 (sample_rate p).

(** Every field of the result of [process], from the spectrum it computes
    and the bin [max_bin] its scan stops on. *)
Lemma process_spec :
  exists magnitudes max_bin,
    compute_magnitude_spectrum p (Some samples) num_samples MAX_BINS
    = Ok magnitudes
    /\ Z.of_nat (length magnitudes) = num_bins p
    /\ Forall (fun m => 0 <= m <= 45875) magnitudes
    /\ ((spectrum_max (tl magnitudes) = 0 /\ max_bin = 0)
        \/ (0 < spectrum_max (tl magnitudes)
            /\ 1 <= max_bin < num_bins p
            /\ nth (Z.to_nat max_bin) magnitudes 0
               = spectrum_max (tl magnitudes)
            /\ forall j, 1 <= j < max_bin ->
                         nth (Z.to_nat j) magnitudes 0
                         < spectrum_max (tl magnitudes)))
    /\ process p (Some samples) num_samples
       = Ok {| dominant_frequency :=
                 to_int32 (Z.quot (max_bin * sample_rate p * FIXED_ONE)
                                  (2 * num_bins p));
               peak_magnitude := spectrum_max (tl magnitudes);
               spectral_centroid := centroid_of magnitudes;
               num_peaks :=
                 interior_peaks magnitudes
                   (fixed_mul (spectrum_max (tl magnitudes))
                              (float_to_fixed (f32_literal 2 10))) |}.
Proof.
  unfold MAX_BINS in bins_fit.
  destruct (spectrum_bounded p samples num_samples window_size window_inside
                             window_int16 MAX_BINS)
    as (magnitudes & Hspectrum & Hlen & Hall); [unfold MAX_BINS; lia|].
  destruct (peak_scan magnitudes) as (max_bin & Hscan & Hbin); [lia|].
  exists magnitudes, max_bin.
  split; [exact Hspectrum|]. split; [exact Hlen|]. split; [exact Hall|].
  split; [rewrite <- Hlen; exact Hbin|].
  unfold process.
  destruct (Z.eqb_spec num_samples 0); [lia|]. cbn [is_null orb]. cbv zeta.
  assert ((if num_bins p <? MAX_BINS then num_bins p else MAX_BINS)
          = Z.of_nat (length magnitudes)) as ->.
  { unfold MAX_BINS. destruct (Z.ltb_spec (num_bins p) 128); lia. }
  rewrite Hspectrum. cbn [bind]. rewrite Hscan. cbn [bind]. cbv beta iota.
  assert (0 <= max_bin < 128) as Hbin128 by (destruct Hbin; lia).
  unfold is_uint32 in rate_uint32.
  change (2 ^ 32) with 4294967296 in rate_uint32.
  assert (0 <= max_bin * sample_rate p < 128 * 4294967296) as Hprod by nia.
  rewrite FIXED_ONE_value.
  rewrite (to_int64_small (max_bin * sample_rate p)) by within_int64.
  rewrite to_int64_small by within_int64.
  rewrite to_size_small
    by (unfold is_size, SIZE_MAX, SIZE_BITS;
        change (2 ^ 32) with 4294967296; lia).
  unfold sdiv at 1.
  destruct (Z.eqb_spec (2 * Z.of_nat (length magnitudes)) 0); [lia|].
  destruct (Z.eqb_spec (2 * Z.of_nat (length magnitudes)) (-1)); [lia|].
  rewrite andb_false_r. cbn [bind].
  rewrite find_peaks_counts_modulo;
    [ | unfold SIZE_MAX, SIZE_BITS; change (2 ^ 32) with 4294967296; lia
      | reflexivity ].
  cbn [bind].
  destruct (compute_centroid_closed magnitudes Hall) as (-> & _);
    [unfold MAX_BINS; lia|].
  cbn [bind]. rewrite Hlen. f_equal. f_equal.
  apply Z.mod_small.
  pose proof (interior_peaks_sparse magnitudes
                (fixed_mul (spectrum_max (tl magnitudes))
                           (float_to_fixed (f32_literal 2 10)))
                ltac:(lia)).
  lia.
Qed.

End ProcessReport.

(** On a window of int16 samples and 1 to MAX_BINS bins [process] returns,
    and its result is bounded: the peak magnitude by 45875, the number of
    peaks by half the bins, the centroid by the last bin; under a sample
    rate below 65536 Hz the dominant frequency does not wrap and is at most
    half the sample rate. *)
Theorem process_returns_a_bounded_result
        (p : SpectralProcessor) (samples : list Z) (num_samples : Z) :
  0 < num_samples <= SIZE_MAX ->
  num_samples <= Z.of_nat (length samples) ->
  Forall is_int16 samples ->
  1 <= num_bins p <= MAX_BINS ->
  is_uint32 (sample_rate p) ->
  exists r,
    process p (Some samples) num_samples = Ok r
    /\ 0 <= peak_magnitude r <= 45875
    /\ 0 <= 2 * num_peaks r <= num_bins p - 1
    /\ 0 <= spectral_centroid r <= (num_bins p - 1) * FIXED_ONE
    /\ (sample_rate p < 65536 ->
        0 <= 2 * dominant_frequency r <= sample_rate p * FIXED_ONE).
Proof.
  intros Hsize Hinside Hint16 Hbins Hrate.
  destruct (process_spec p samples num_samples Hsize Hinside Hint16 Hbins Hrate)
    as (magnitudes & max_bin & _ & Hlen & Hall & Hbin & Hrun).
  eexists. split; [exact Hrun|]. cbn [peak_magnitude num_peaks
                                     spectral_centroid dominant_frequency].
  unfold MAX_BINS in Hbins.
  split; [|split; [|split]].
  - destruct Hbin as [[-> _]|(Hpos & Hrange & <- & _)]; [lia|].
    rewrite Forall_forall in Hall. apply Hall. apply nth_In. lia.
  - rewrite <- Hlen. apply interior_peaks_sparse. lia.
  - destruct (compute_centroid_closed magnitudes Hall) as (_ & Hlo & Hhi);
      [unfold MAX_BINS; lia|].
    rewrite <- Hlen. split; [exact Hlo|]. apply Hhi.
    destruct magnitudes; [cbn in Hlen; lia | discriminate].
  - intros Hslow. unfold is_uint32 in Hrate. rewrite FIXED_ONE_value.
    assert (0 <= max_bin < num_bins p) as Hmb by (destruct Hbin; lia).
    assert (0 <= max_bin * sample_rate p * 65536) as Hnum by nia.
    rewrite Z.quot_div_nonneg by lia.
    assert (0 <= max_bin * sample_rate p * 65536 / (2 * num_bins p)) as Hq0
        by (apply Z.div_pos; lia).
    assert (2 * (max_bin * sample_rate p * 65536 / (2 * num_bins p))
            <= sample_rate p * 65536) as Hq1.
    { pose proof (Z.mul_div_le (max_bin * sample_rate p * 65536)
                               (2 * num_bins p) ltac:(lia)) as Hfloor.
      nia. }
    rewrite to_int32_small by within_int32. lia.
Qed.

Lemma process_returns_a_bounded_result_witness :
  exists r,
    process small_processor (Some small_window) 8 = Ok r
    /\ 0 <= peak_magnitude r <= 45875
    /\ 0 <= 2 * num_peaks r <= num_bins small_processor - 1
    /\ 0 <= spectral_centroid r <= (num_bins small_processor - 1) * FIXED_ONE
    /\ (sample_rate small_processor < 65536 ->
        0 <= 2 * dominant_frequency r
        <= sample_rate small_processor * FIXED_ONE).
Proof.
  destruct small_window_is_valid as (Hsize & Hinside & Hint16).
  apply (process_returns_a_bounded_result small_processor small_window 8
           Hsize Hinside Hint16).
  - vm_compute. split; discriminate.
  - vm_compute. split; [discriminate | reflexivity].
Defined.

(** What [process] reports, field by field: the peak magnitude is the
    largest magnitude after bin 0, or 0; the dominant frequency is
    [max_bin * sample_rate / (2 * num_bins)] in Q15.16, wrapped to 32 bits,
    for the first bin [max_bin >= 1] holding the peak (bin 0 when the peak
    is 0);
    the peaks are counted above 0.2 of the peak; the centroid is the
    weighted mean of the bin indices. *)
Theorem process_reports_the_spectrum
        (p : SpectralProcessor) (samples : list Z) (num_samples : Z) :
  0 < num_samples <= SIZE_MAX ->
  num_samples <= Z.of_nat (length samples) ->
  Forall is_int16 samples ->
  1 <= num_bins p <= MAX_BINS ->
  is_uint32 (sample_rate p) ->
  exists magnitudes max_bin,
    compute_magnitude_spectrum p (Some samples) num_samples MAX_BINS
    = Ok magnitudes
    /\ Z.of_nat (length magnitudes) = num_bins p
    /\ ((spectrum_max (tl magnitudes) = 0 /\ max_bin = 0)
        \/ (0 < spectrum_max (tl magnitudes)
            /\ 1 <= max_bin < num_bins p
            /\ nth (Z.to_nat max_bin) magnitudes 0
               = spectrum_max (tl magnitudes)
            /\ forall j, 1 <= j < max_bin ->
                         nth (Z.to_nat j) magnitudes 0
                         < spectrum_max (tl magnitudes)))
    /\ process p (Some samples) num_samples
       = Ok {| dominant_frequency :=
                 to_int32 (Z.quot (max_bin * sample_rate p * FIXED_ONE)
                                  (2 * num_bins p));
               peak_magnitude := spectrum_max (tl magnitudes);
               spectral_centroid := centroid_of magnitudes;
               num_peaks :=
                 interior_peaks magnitudes
                   (fixed_mul (spectrum_max (tl magnitudes))
                              (float_to_fixed (f32_literal 2 10))) |}.
Proof.
  intros Hsize Hinside Hint16 Hbins Hrate.
  destruct (process_spec p samples num_samples Hsize Hinside Hint16 Hbins Hrate)
    as (magnitudes & max_bin & Hspectrum & Hlen & _ & Hbin & Hrun).
  exists magnitudes, max_bin. auto.
Qed.

Lemma process_reports_the_spectrum_witness :
  exists magnitudes max_bin,
    compute_magnitude_spectrum small_processor (Some small_window) 8 MAX_BINS
    = Ok magnitudes
    /\ Z.of_nat (length magnitudes) = num_bins small_processor
    /\ ((spectrum_max (tl magnitudes) = 0 /\ max_bin = 0)
        \/ (0 < spectrum_max (tl magnitudes)
            /\ 1 <= max_bin < num_bins small_processor
            /\ nth (Z.to_nat max_bin) magnitudes 0
               = spectrum_max (tl magnitudes)
            /\ forall j, 1 <= j < max_bin ->
                         nth (Z.to_nat j) magnitudes 0
                         < spectrum_max (tl magnitudes)))
    /\ process small_processor (Some small_window) 8
       = Ok {| dominant_frequency :=
                 to_int32 (Z.quot (max_bin * sample_rate small_processor
                                   * FIXED_ONE)
                                  (2 * num_bins small_processor));
               peak_magnitude := spectrum_max (tl magnitudes);
               spectral_centroid := centroid_of magnitudes;
               num_peaks :=
                 interior_peaks magnitudes
                   (fixed_mul (spectrum_max (tl magnitudes))
                              (float_to_fixed (f32_literal 2 10))) |}.
Proof.
  destruct small_window_is_valid as (Hsize & Hinside & Hint16).
  apply (process_reports_the_spectrum small_processor small_window 8
           Hsize Hinside Hint16).
  - vm_compute. split; discriminate.
  - vm_compute. split; [discriminate | reflexivity].
Defined.

(* ================================================================= *)
(** ** Silence *)

Lemma array_get_in (a : list Z) (i v : Z) :
  Array.get a i = Ok v -> In v a.
Proof.
  intros Hget.
  destruct (array_get_cases a i) as [[Hi Hok]|[_ Hbad]];
    [|rewrite Hbad in Hget; discriminate].
  rewrite Hok in Hget. inversion Hget; subst. apply nth_In. lia.
Qed.

Section Silence.

Variable p : SpectralProcessor.
Variable samples : list Z.
Variable num_samples : Z.
Hypothesis silent : Forall (fun s => s = 0) samples.

Lemma correlate_silence (freq_mult : Z) (sums : Z * Z) :
  0 <= num_samples ->
  for_range 0 num_samples (correlate (Some samples) freq_mult) (0, 0) = Ok sums ->
  sums = (0, 0).
Proof.
  intros Hn.
  apply for_range_partial with (P := fun (_ : Z) st => st = (0, 0));
    [|exact Hn|reflexivity].
  intros i st st' _ -> Hstep. unfold correlate in Hstep. cbn [sample_at] in Hstep.
  destruct (Array.get samples i) as [s| |] eqn:Hget; cbn [bind] in Hstep;
    try discriminate.
  apply array_get_in in Hget. rewrite Forall_forall in silent.
  rewrite (silent s Hget) in Hstep. inversion Hstep. reflexivity.
Qed.

Lemma spectrum_bin_silence (k m : Z) :
  0 <= num_samples ->
  spectrum_bin p (Some samples) num_samples k = Ok m -> m = 0.
Proof.
  intros Hn. unfold spectrum_bin.
  destruct (num_bins p =? 0); cbn [bind]; [discriminate|].
  destruct (for_range 0 num_samples _ (0, 0)) as [sums| |] eqn:Hsums;
    cbn [bind]; try discriminate.
  apply correlate_silence in Hsums; [|exact Hn]. subst sums. cbn [fst snd].
  unfold sdiv. destruct (to_int64 num_samples =? 0); cbn [bind];
    [discriminate|].
  change (0 =? - 2 ^ (64 - 1)) with false. cbn [andb bind].
  intros Hm. inversion Hm. reflexivity.
Qed.

Lemma spectrum_silence (cap : Z) (magnitudes : list Z) :
  0 <= num_samples -> 0 <= num_bins p ->
  compute_magnitude_spectrum p (Some samples) num_samples cap = Ok magnitudes ->
  Forall (fun m => m = 0) magnitudes.
Proof.
  intros Hn Hbins. unfold compute_magnitude_spectrum.
  apply for_range_partial
    with (P := fun (_ : Z) mags => Forall (fun m => m = 0) mags);
    [|exact Hbins|constructor].
  intros k mags mags' _ Hall Hstep.
  destruct (spectrum_bin p (Some samples) num_samples k) as [m| |] eqn:Hbin;
    cbn [bind] in Hstep; try discriminate.
  apply spectrum_bin_silence in Hbin; [|exact Hn]. subst m.
  apply array_set_cases in Hstep. destruct Hstep as [_ [[Hlt ->]|[_ ->]]].
  - rewrite Forall_forall in *. intros x Hx.
    clear - Hall Hx. revert Hx.
    generalize (Z.to_nat k) as n. induction mags as [|h t IH]; intros n Hx.
    + destruct n; contradiction.
    + destruct n as [|n]; cbn [Array.replace] in Hx.
      * destruct Hx as [<-|Hx]; [reflexivity|].
        apply Hall. right. exact Hx.
      * destruct Hx as [<-|Hx]; [apply Hall; left; reflexivity|].
        apply (IH (fun y Hy => Hall y (or_intror Hy)) n Hx).
  - apply Forall_app. split; [exact Hall | repeat constructor].
Qed.

End Silence.

Lemma all_zero_summaries (magnitudes : list Z) (threshold : Z) :
  Forall (fun m => m = 0) magnitudes ->
  spectrum_max magnitudes = 0
  /\ spectrum_max (tl magnitudes) = 0
  /\ centroid_of magnitudes = 0
  /\ interior_peaks magnitudes threshold = 0.
Proof.
  intros Hzero. rewrite Forall_forall in Hzero.
  assert (forall l, (forall m, In m l -> m = 0) -> fold_left Z.max l 0 = 0)
    as Hmax.
  { intros l Hl. destruct (fold_max_spec l 0) as (_ & _ & [Heq|Hin]);
      [exact Heq | apply Hl; exact Hin]. }
  split; [apply Hmax; exact Hzero|].
  split.
  { apply Hmax. intros m Hm. apply Hzero.
    destruct magnitudes; [contradiction | right; exact Hm]. }
  split.
  - unfold centroid_of.
    assert (total magnitudes = 0) as ->; [|reflexivity].
    assert (Forall (fun m => 0 <= m <= 0) magnitudes) as Hbound
        by (apply Forall_forall; intros m Hm; rewrite (Hzero m Hm); lia).
    pose proof (total_bounds magnitudes 0 Hbound). lia.
  - apply interior_peaks_nondecreasing. intros i Hi.
    rewrite (Hzero (nth i magnitudes 0)) by (apply nth_In; lia).
    rewrite (Hzero (nth (i + 1) magnitudes 0)) by (apply nth_In; lia).
    lia.
Qed.

(** A window of zeros is reported like no window at all: [process] returns
    the all-zero result. *)
Theorem process_of_silence
        (p : SpectralProcessor) (samples : list Z) (num_samples : Z) :
  0 < num_samples <= SIZE_MAX ->
  num_samples <= Z.of_nat (length samples) ->
  Forall (fun s => s = 0) samples ->
  1 <= num_bins p <= MAX_BINS ->
  is_uint32 (sample_rate p) ->
  process p (Some samples) num_samples = Ok zero_result.
Proof.
  intros Hsize Hinside Hsilent Hbins Hrate.
  assert (Forall is_int16 samples) as Hint16.
  { eapply Forall_impl; [|exact Hsilent]. cbv beta. intros s ->.
    vm_compute. split; discriminate. }
  destruct (process_spec p samples num_samples Hsize Hinside Hint16 Hbins Hrate)
    as (magnitudes & max_bin & Hspectrum & Hlen & _ & Hbin & Hrun).
  rewrite Hrun.
  apply spectrum_silence in Hspectrum; [|exact Hsilent|lia|lia].
  destruct (all_zero_summaries magnitudes
              (fixed_mul (spectrum_max (tl magnitudes))
                         (float_to_fixed (f32_literal 2 10))) Hspectrum)
    as (_ & Hpeak & Hcentroid & Hpeaks).
  rewrite Hpeaks, Hcentroid. rewrite Hpeak in *.
  assert (max_bin = 0) as -> by (destruct Hbin as [[_ ->]|[Hpos _]]; lia).
  unfold zero_result. f_equal.
Qed.

Lemma process_of_silence_witness :
  process small_processor (Some (repeat 0 8)) 8 = Ok zero_result.
Proof.
  apply (process_of_silence small_processor (repeat 0 8) 8).
  - vm_compute. split; [reflexivity | discriminate].
  - vm_compute. discriminate.
  - repeat constructor.
  - vm_compute. split; discriminate.
  - vm_compute. split; [discriminate | reflexivity].
Defined.

(** Silence gives all-zero features as well, one per bin. *)
Theorem extract_features_of_silence
        (p : SpectralProcessor) (samples : list Z)
        (num_samples max_features : Z) :
  0 < num_samples <= SIZE_MAX ->
  num_samples <= Z.of_nat (length samples) ->
  Forall (fun s => s = 0) samples ->
  0 <= num_bins p <= max_features ->
  extract_features p (Some samples) num_samples max_features
  = Ok (repeat 0 (Z.to_nat (num_bins p)), num_bins p).
Proof.
  intros Hsize Hinside Hsilent Hbins.
  assert (Forall is_int16 samples) as Hint16.
  { eapply Forall_impl; [|exact Hsilent]. cbv beta. intros s ->.
    vm_compute. split; discriminate. }
  destruct (compute_magnitude_spectrum_ok p samples num_samples
              Hsize Hinside Hint16 max_features Hbins)
    as (magnitudes & Hspectrum & Hlen & _).
  unfold extract_features.
  destruct (Z.ltb_spec max_features (num_bins p)); [lia|].
  rewrite Hspectrum. cbn [bind].
  apply spectrum_silence in Hspectrum; [|exact Hsilent|lia|lia].
  destruct (all_zero_summaries magnitudes 0 Hspectrum) as (Hmax & _).
  rewrite <- Hlen at 1. rewrite features_max_spec. cbn [bind].
  rewrite Hmax. cbn [Z.ltb Z.compare bind]. f_equal. f_equal.
  rewrite <- Hlen, Nat2Z.id.
  clear - Hspectrum. induction Hspectrum as [|m l -> _ IH]; cbn [length repeat];
    [reflexivity | f_equal; exact IH].
Qed.

Lemma extract_features_of_silence_witness :
  extract_features small_processor (Some (repeat 0 8)) 8 4
  = Ok ([0; 0; 0; 0], 4).
Proof.
  apply (extract_features_of_silence small_processor (repeat 0 8) 8 4).
  - vm_compute. split; [reflexivity | discriminate].
  - vm_compute. discriminate.
  - repeat constructor.
  - vm_compute. split; discriminate.
Defined.

(* ================================================================= *)
(** ** Where process and extract_features leave defined behaviour *)

(** A loop faults when its body does, at an index the loop reaches. *)
Lemma for_loop_faults {S : Type} (body : Z -> S -> outcome S)
      (from hi at_index : Z) (P : Z -> S -> Prop) (f : fault) :
  at_index < hi ->
  (forall i s, from <= i < at_index -> P i s ->
               exists s', body i s = Ok s' /\ P (i + 1) s') ->
  (forall s, P at_index s -> body at_index s = Fault f) ->
  forall (fuel : nat) (lo : Z) (s : S),
    from <= lo <= at_index -> at_index - lo < Z.of_nat fuel -> P lo s ->
    for_loop fuel lo hi body s = Fault f.
Proof.
  intros Hreach Hbefore Hat. induction fuel as [|fuel IH];
    intros lo s Hlo Hfuel HP; [lia|].
  cbn [for_loop]. destruct (Z.ltb_spec lo hi); [|lia].
  destruct (Z.eq_dec lo at_index) as [->|Hne].
  - rewrite (Hat s HP). reflexivity.
  - destruct (Hbefore lo s ltac:(lia) HP) as (s' & -> & HP').
    cbn [bind]. apply IH; [lia | lia | exact HP'].
Qed.

Lemma for_range_faults {S : Type} (body : Z -> S -> outcome S)
      (lo hi at_index : Z) (P : Z -> S -> Prop) (f : fault) (s : S) :
  lo <= at_index < hi ->
  (forall i s, lo <= i < at_index -> P i s ->
               exists s', body i s = Ok s' /\ P (i + 1) s') ->
  (forall s, P at_index s -> body at_index s = Fault f) ->
  P lo s ->
  for_range lo hi body s = Fault f.
Proof.
  intros [Hlo Hhi] Hbefore Hat HP. unfold for_range.
  apply (for_loop_faults body lo hi at_index P f); auto; lia.
Qed.

(** With more than MAX_BINS bins configured, [process] writes the
    magnitude of bin MAX_BINS past the end of its buffer of MAX_BINS
    cells: only the reads are capped, not the writes of
    [compute_magnitude_spectrum]. *)
Theorem process_overruns_its_buffer
        (p : SpectralProcessor) (samples : list Z) (num_samples : Z) :
  0 < num_samples <= SIZE_MAX ->
  num_samples <= Z.of_nat (length samples) ->
  Forall is_int16 samples ->
  MAX_BINS < num_bins p ->
  process p (Some samples) num_samples = Fault BadWrite.
Proof.
  intros Hsize Hinside Hint16 Hbins. unfold MAX_BINS in Hbins.
  unfold process.
  destruct (Z.eqb_spec num_samples 0); [lia|]. cbn [is_null orb]. cbv zeta.
  assert (compute_magnitude_spectrum p (Some samples) num_samples MAX_BINS
          = Fault BadWrite) as ->; [|reflexivity].
  unfold compute_magnitude_spectrum.
  apply for_range_faults
    with (at_index := MAX_BINS)
         (P := fun (k : Z) (mags : list Z) =>
                 0 <= k /\ Z.of_nat (length mags) = k).
  - unfold MAX_BINS. lia.
  - intros k mags Hk [_ Hlen]. unfold MAX_BINS in Hk.
    destruct (spectrum_bin_range p samples num_samples Hsize Hinside Hint16 k)
      as (m & -> & _); [lia|].
    cbn [bind]. exists (mags ++ [m]). split.
    + rewrite <- Hlen. apply array_set_append. unfold MAX_BINS. lia.
    + rewrite length_app. cbn [length]. lia.
  - intros mags [_ Hlen].
    destruct (spectrum_bin_range p samples num_samples Hsize Hinside Hint16
                                 MAX_BINS)
      as (m & -> & _); [lia|].
    cbn [bind]. unfold Array.set.
    rewrite Z.leb_refl, orb_true_r. reflexivity.
  - split; [lia | reflexivity].
Qed.

Lemma process_overruns_its_buffer_witness :
  process {| num_bins := 129; sample_rate := 1000 |} (Some small_window) 8
  = Fault BadWrite.
Proof.
  destruct small_window_is_valid as (Hsize & Hinside & Hint16).
  apply (process_overruns_its_buffer {| num_bins := 129; sample_rate := 1000 |}
           small_window 8 Hsize Hinside Hint16).
  vm_compute. reflexivity.
Defined.

(** With no bin configured, [process] on a window that is not empty
    divides by [2 * actual_bins = 0] when it converts the dominant bin to a
    frequency. *)
Theorem process_without_bins_divides_by_zero
        (p : SpectralProcessor) (samples : list Z) (num_samples : Z) :
  num_samples <> 0 -> num_bins p = 0 ->
  process p (Some samples) num_samples = Fault DivByZero.
Proof.
  intros Hn Hbins. unfold process.
  destruct (Z.eqb_spec num_samples 0); [contradiction|].
  cbn [is_null orb]. cbv zeta.
  unfold compute_magnitude_spectrum. rewrite Hbins.
  reflexivity.
Qed.

Lemma process_without_bins_divides_by_zero_witness :
  process {| num_bins := 0; sample_rate := 1000 |} (Some small_window) 8
  = Fault DivByZero.
Proof.
  apply (process_without_bins_divides_by_zero
           {| num_bins := 0; sample_rate := 1000 |} small_window 8).
  - discriminate.
  - reflexivity.
Defined.

(** [extract_features] has no test of its sample pointer: on a null
    pointer, a positive count and at least one bin it reads through the
    pointer, where [process] returns the all-zero result. *)
Theorem extract_features_reads_through_null
        (p : SpectralProcessor) (num_samples max_features : Z) :
  0 < num_samples ->
  0 < num_bins p <= max_features ->
  extract_features p None num_samples max_features = Fault BadRead
  /\ process p None num_samples = Ok zero_result.
Proof.
  intros Hn Hbins. split.
  - unfold extract_features.
    destruct (Z.ltb_spec max_features (num_bins p)); [lia|].
    assert (compute_magnitude_spectrum p None num_samples max_features
            = Fault BadRead) as ->; [|reflexivity].
    unfold compute_magnitude_spectrum.
    apply for_range_faults
      with (at_index := 0) (P := fun (_ : Z) (_ : list Z) => True);
      [lia | intros; lia | | exact I].
    intros mags _. unfold spectrum_bin.
    destruct (Z.eqb_spec (num_bins p) 0); [lia|]. cbn [bind].
    rewrite for_range_faults
      with (at_index := 0) (P := fun (_ : Z) (_ : Z * Z) => True)
           (f := BadRead);
      [reflexivity | lia | intros; lia | | exact I].
    intros [re im] _. reflexivity.
  - unfold process. cbn [is_null]. rewrite orb_true_r. reflexivity.
Qed.

Lemma extract_features_reads_through_null_witness :
  extract_features small_processor None 8 4 = Fault BadRead
  /\ process small_processor None 8 = Ok zero_result.
Proof.
  apply (extract_features_reads_through_null small_processor 8 4).
  - reflexivity.
  - vm_compute. split; [reflexivity | discriminate].
Defined.

(** [extract_features] writes either nothing, returning 0, when the
    destination is smaller than the bins, or one feature per bin, each
    between 0 and FIXED_ONE. *)
Theorem extract_features_stays_in_range
        (p : SpectralProcessor) (samples : list Z)
        (num_samples max_features : Z) :
  0 < num_samples <= SIZE_MAX ->
  num_samples <= Z.of_nat (length samples) ->
  Forall is_int16 samples ->
  0 <= num_bins p ->
  exists features count,
    extract_features p (Some samples) num_samples max_features
    = Ok (features, count)
    /\ ((max_features < num_bins p /\ features = [] /\ count = 0)
        \/ (num_bins p <= max_features /\ count = num_bins p
            /\ Z.of_nat (length features) = num_bins p
            /\ Forall (fun f => 0 <= f <= FIXED_ONE) features)).
Proof.
  intros Hsize Hinside Hint16 Hbins. unfold extract_features.
  destruct (Z.ltb_spec max_features (num_bins p)) as [Hsmall|Hfits].
  { exists [], 0. split; [reflexivity|]. left. auto. }
  destruct (compute_magnitude_spectrum_ok p samples num_samples
              Hsize Hinside Hint16 max_features ltac:(lia))
    as (magnitudes & -> & Hlen & Hall).
  cbn [bind].
  assert (features_max magnitudes (num_bins p) = Ok (spectrum_max magnitudes))
    as -> by (rewrite <- Hlen; apply features_max_spec).
  cbn [bind].
  pose proof (fold_max_spec magnitudes 0) as (Hnonneg & Hupper & Hattained).
  fold (spectrum_max magnitudes) in Hnonneg, Hupper, Hattained.
  rewrite Forall_forall in Hall. unfold is_magnitude in Hall.
  assert (spectrum_max magnitudes < 2 ^ 31) as Hmax31.
  { destruct Hattained as [->|Hin]; [reflexivity | apply (Hall _ Hin)]. }
  destruct (Z.ltb_spec 0 (spectrum_max magnitudes)) as [Hpos|Hzero].
  - assert (scale_features max_features magnitudes (num_bins p)
                           (spectrum_max magnitudes)
            = Ok (map (fun f => Z.quot (f * FIXED_ONE) (spectrum_max magnitudes))
                      magnitudes)) as ->.
    { rewrite <- Hlen. apply scale_features_spec; [lia | lia |].
      apply Forall_forall. intros m Hm. split.
      - apply (Hall _ Hm).
      - apply Hupper. exact Hm. }
    cbn [bind]. eexists. eexists. split; [reflexivity|]. right.
    split; [lia|]. split; [reflexivity|].
    split; [rewrite length_map; exact Hlen|].
    apply Forall_forall. intros f Hf. apply in_map_iff in Hf.
    destruct Hf as (m & <- & Hm).
    pose proof (Hall _ Hm) as [Hm0 _]. pose proof (Hupper _ Hm).
    rewrite FIXED_ONE_value. rewrite Z.quot_div_nonneg by lia.
    split; [apply Z.div_pos; lia | apply Z.div_le_upper_bound; nia].
  - cbn [bind]. eexists. eexists. split; [reflexivity|]. right.
    split; [lia|]. split; [reflexivity|]. split; [exact Hlen|].
    apply Forall_forall. intros m Hm.
    pose proof (Hall _ Hm) as [Hm0 _]. pose proof (Hupper _ Hm).
    rewrite FIXED_ONE_value. lia.
Qed.

Lemma extract_features_stays_in_range_witness :
  exists features count,
    extract_features small_processor (Some small_window) 8 3
    = Ok (features, count)
    /\ ((3 < num_bins small_processor /\ features = [] /\ count = 0)
        \/ (num_bins small_processor <= 3 /\ count = num_bins small_processor
            /\ Z.of_nat (length features) = num_bins small_processor
            /\ Forall (fun f => 0 <= f <= FIXED_ONE) features)).
Proof.
  destruct small_window_is_valid as (Hsize & Hinside & Hint16).
  apply (extract_features_stays_in_range small_processor small_window 8 3
           Hsize Hinside Hint16).
  vm_compute. discriminate.
Defined.

(* ================================================================= *)
(** ** argmax: the first largest output *)

Lemma argmax_spec (outputs : list Z) (count : Z) :
  1 <= count <= 256 ->
  count = Z.of_nat (length outputs) ->
  exists cls,
    argmax outputs count = Ok cls
    /\ 0 <= cls < count
    /\ (forall j, 0 <= j < count ->
                  nth (Z.to_nat j) outputs 0 <= nth (Z.to_nat cls) outputs 0)
    /\ (forall j, 0 <= j < cls ->
                  nth (Z.to_nat j) outputs 0 < nth (Z.to_nat cls) outputs 0).
Proof.
  intros Hcount Hlen. unfold argmax.
  rewrite array_get_ok by lia. cbn [bind].
  run_loop (fun (i : Z) (best : Z * Z) =>
              1 <= i /\ 0 <= fst best < i
              /\ snd best = nth (Z.to_nat (fst best)) outputs 0
              /\ (forall j, 0 <= j < i ->
                            nth (Z.to_nat j) outputs 0 <= snd best)
              /\ (forall j, 0 <= j < fst best ->
                            nth (Z.to_nat j) outputs 0 < snd best))
    as ([max_idx max_val] & -> & _ & Hidx & Hval & Hall & Hfirst).
  - intros i [max_idx max_val] Hi (Hi1 & Hidx & Hval & Hall & Hfirst).
    cbn [fst snd] in Hidx, Hval, Hall, Hfirst. cbv beta iota.
    rewrite array_get_ok by lia. cbn [bind].
    destruct (Z.ltb_spec max_val (nth (Z.to_nat i) outputs 0)) as [Hlt|Hge].
    + eexists. split; [reflexivity|]. cbn [fst snd].
      rewrite to_uint8_small by lia.
      split; [lia|]. split; [lia|]. split; [reflexivity|]. split.
      * intros j Hj. destruct (Z.eq_dec j i) as [->|Hne]; [lia|].
        specialize (Hall j ltac:(lia)). lia.
      * intros j Hj. specialize (Hall j ltac:(lia)). lia.
    + eexists. split; [reflexivity|]. cbn [fst snd].
      split; [lia|]. split; [lia|]. split; [exact Hval|]. split.
      * intros j Hj. destruct (Z.eq_dec j i) as [->|Hne]; [lia|].
        apply Hall. lia.
      * exact Hfirst.
  - lia.
  - cbn [fst snd]. split; [lia|]. split; [lia|]. split; [reflexivity|].
    split.
    + intros j Hj. replace j with 0 by lia. lia.
    + intros j Hj. lia.
  - cbn [fst snd] in *. cbn [bind fst]. exists max_idx.
    split; [reflexivity|]. split; [lia|]. rewrite <- Hval.
    split; [exact Hall | exact Hfirst].
Qed.

(** Over at most 256 outputs the index fits the uint8_t [argmax] returns:
    it is the index of an output no other exceeds, and the first such. *)
Theorem argmax_is_the_first_maximum (outputs : list Z) (count : Z) :
  1 <= count <= 256 ->
  count = Z.of_nat (length outputs) ->
  exists cls,
    argmax outputs count = Ok cls
    /\ 0 <= cls < count
    /\ (forall j, 0 <= j < count ->
                  nth (Z.to_nat j) outputs 0 <= nth (Z.to_nat cls) outputs 0)
    /\ (forall j, 0 <= j < cls ->
                  nth (Z.to_nat j) outputs 0 < nth (Z.to_nat cls) outputs 0).
Proof. apply argmax_spec. Qed.

Lemma argmax_is_the_first_maximum_witness :
  exists cls,
    argmax [3; 9; 2; 9] 4 = Ok cls
    /\ 0 <= cls < 4
    /\ (forall j, 0 <= j < 4 ->
                  nth (Z.to_nat j) [3; 9; 2; 9] 0
                  <= nth (Z.to_nat cls) [3; 9; 2; 9] 0)
    /\ (forall j, 0 <= j < cls ->
                  nth (Z.to_nat j) [3; 9; 2; 9] 0
                  < nth (Z.to_nat cls) [3; 9; 2; 9] 0).
Proof.
  apply (argmax_is_the_first_maximum [3; 9; 2; 9] 4).
  - vm_compute. split; discriminate.
  - reflexivity.
Defined.

(* ================================================================= *)
(** ** normalize_outputs: a distribution *)

(** The extent [normalize_outputs] starts from: the largest and the
    smallest output. *)
Lemma outputs_extent_spec (outputs : list Z) :
  (1 <= length outputs)%nat ->
  exists max_val min_val,
    outputs_extent outputs (Z.of_nat (length outputs)) = Ok (max_val, min_val)
    /\ In max_val outputs /\ In min_val outputs
    /\ (forall o, In o outputs -> min_val <= o <= max_val).
Proof.
  intros Hlen. unfold outputs_extent.
  destruct outputs as [|first others]; [cbn in Hlen; lia|].
  rewrite array_get_ok by lia. cbn [Z.to_nat nth bind].
  run_loop (fun (i : Z) (extent : Z * Z) =>
              exists done rest,
                first :: others = done ++ rest
                /\ Z.of_nat (length done) = i
                /\ In (fst extent) done /\ In (snd extent) done
                /\ (forall o, In o done -> snd extent <= o <= fst extent))
    as ([max_val min_val] & -> & done & rest & Hsplit & Hdone & Hmax & Hmin
        & Hall).
  - intros i [max_val min_val] Hi
           (done & rest & Hsplit & Hdone & Hmax & Hmin & Hall).
    cbn [fst snd] in Hmax, Hmin, Hall. cbv beta iota.
    destruct rest as [|x rest].
    { rewrite app_nil_r in Hsplit. rewrite Hsplit in Hi. lia. }
    assert (Array.get (first :: others) i = Ok x) as ->
        by (rewrite Hsplit, <- Hdone; apply array_get_middle).
    cbn [bind]. eexists. split; [reflexivity|].
    exists (done ++ [x]), rest. cbn [fst snd].
    split; [rewrite <- app_assoc; exact Hsplit|].
    split; [rewrite length_app; cbn [length]; lia|].
    pose proof (Hall _ Hmax) as Hmaxb. pose proof (Hall _ Hmin) as Hminb.
    split; [|split].
    + apply in_or_app.
      destruct (Z.ltb_spec max_val x); [right; left; reflexivity | left; exact Hmax].
    + apply in_or_app.
      destruct (Z.ltb_spec x min_val); [right; left; reflexivity | left; exact Hmin].
    + intros o Ho. apply in_app_or in Ho.
      destruct (Z.ltb_spec max_val x); destruct (Z.ltb_spec x min_val);
        destruct Ho as [Ho|[<-|[]]]; try specialize (Hall o Ho); lia.
  - cbn [length]. lia.
  - exists [first], others. cbn [fst snd length].
    split; [reflexivity|]. split; [lia|].
    split; [left; reflexivity|]. split; [left; reflexivity|].
    intros o [<-|[]]. lia.
  - cbn [fst snd] in *.
    assert (rest = []) as ->.
    { destruct rest as [|x rest]; [reflexivity|].
      rewrite Hsplit, length_app in Hdone. cbn [length] in Hdone. lia. }
    rewrite app_nil_r in Hsplit. rewrite Hsplit.
    exists max_val, min_val. auto.
Qed.

(** Each output divided by the sum of all: the shares add up to the whole
    but for less than one unit each. *)
Lemma floor_shares (whole sum : Z) (l : list Z) :
  0 < sum -> 0 <= whole -> Forall (fun o => 0 <= o) l ->
  sum * total (map (fun o => o * whole / sum) l) <= whole * total l
  /\ whole * total l
     <= sum * total (map (fun o => o * whole / sum) l)
        + (sum - 1) * Z.of_nat (length l).
Proof.
  intros Hsum Hwhole Hall. unfold total.
  induction Hall as [|o l Ho Hl IH]; cbn [map fold_right length]; [lia|].
  pose proof (Z.div_mod (o * whole) sum ltac:(lia)) as Hdiv.
  pose proof (Z.mod_pos_bound (o * whole) sum Hsum) as Hmod.
  nia.
Qed.

Lemma total_nonneg_member (l : list Z) (o : Z) :
  Forall (fun m => 0 <= m) l -> In o l -> 0 <= o <= total l.
Proof.
  unfold total. induction 1 as [|m l Hm Hl IH]; intros Hin; [contradiction|].
  cbn [fold_right].
  assert (0 <= fold_right Z.add 0 l)
    by (clear - Hl; induction Hl; cbn [fold_right]; lia).
  destruct Hin as [<-|Hin]; [lia | specialize (IH Hin); lia].
Qed.

Section WideRange.

Variables max_val min_val : Z.
Hypothesis min_nonneg : 0 <= min_val.
Hypothesis max_int32 : max_val < 2 ^ 31.
Hypothesis wide : 256 <= max_val - min_val.

Lemma rescale_factor :
  sdiv 32 (to_int32 (Z.shiftl FIXED_ONE 8))
       (Z.shiftr (to_int32 (max_val - min_val)) 8)
  = Ok (16777216 / ((max_val - min_val) / 256))
  /\ 1 <= (max_val - min_val) / 256 < 8388608
  /\ 0 <= 16777216 / ((max_val - min_val) / 256) <= 16777216.
Proof.
  change (2 ^ 31) with 2147483648 in max_int32.
  rewrite (to_int32_small (max_val - min_val)) by within_int32.
  rewrite Z.shiftr_div_pow2 by lia. change (2 ^ 8) with 256.
  change (to_int32 (Z.shiftl FIXED_ONE 8)) with 16777216.
  assert (1 <= (max_val - min_val) / 256 < 8388608) as Hd.
  { split; [apply Z.div_le_lower_bound; lia|].
    apply Z.div_lt_upper_bound; lia. }
  split; [|split; [exact Hd|]].
  - unfold sdiv.
    destruct (Z.eqb_spec ((max_val - min_val) / 256) 0); [lia|].
    destruct (Z.eqb_spec ((max_val - min_val) / 256) (-1)); [lia|].
    rewrite andb_false_r. f_equal. apply Z.quot_div_nonneg; lia.
  - split; [apply Z.div_pos; lia | apply Z.div_le_upper_bound; lia].
Qed.

(** One output through the rescaling: no wrap-around, nothing below 0 to
    clamp, less than 2.0. *)
Lemma rescale_value (o : Z) :
  min_val <= o <= max_val ->
  (let v := fixed_mul (to_int32 (o - min_val))
                      (16777216 / ((max_val - min_val) / 256)) in
   if v <? 0 then 0 else v)
  = rescaled min_val (max_val - min_val) o
  /\ 0 <= rescaled min_val (max_val - min_val) o < 131072.
Proof.
  intros Ho. destruct rescale_factor as (_ & Hd & Hf).
  change (2 ^ 31) with 2147483648 in max_int32.
  unfold rescaled.
  set (range := max_val - min_val) in *.
  set (d := range / 256) in *. set (F := 16777216 / d) in *.
  pose proof (Z.mul_div_le range 256 ltac:(lia)) as Hd1.
  pose proof (Z.mod_pos_bound range 256 ltac:(lia)) as Hd2.
  pose proof (Z.div_mod range 256 ltac:(lia)) as Hd3.
  pose proof (Z.mul_div_le 16777216 d ltac:(lia)) as HF1.
  fold d in Hd1, Hd3. fold F in HF1.
  assert (0 <= (o - min_val) * F < 8589934592) as Hprod by nia.
  rewrite to_int32_small by within_int32.
  cbv zeta.
  rewrite fixed_mul_exact;
    [ | within_int32 | within_int32
      | change (2 ^ 47) with 140737488355328; lia ].
  change (2 ^ 16) with 65536.
  assert (0 <= (o - min_val) * F / 65536 < 131072) as Hv.
  { split; [apply Z.div_pos; lia | apply Z.div_lt_upper_bound; lia]. }
  split; [|exact Hv].
  destruct (Z.ltb_spec ((o - min_val) * F / 65536) 0); [lia | reflexivity].
Qed.

(** The largest output is rescaled to at least 0.5: the sum of the
    rescaled outputs is never 0. *)
Lemma rescale_of_max :
  32768 <= rescaled min_val (max_val - min_val) max_val.
Proof.
  destruct rescale_factor as (_ & Hd & Hf).
  change (2 ^ 31) with 2147483648 in max_int32.
  unfold rescaled.
  set (range := max_val - min_val) in *.
  set (d := range / 256) in *. set (F := 16777216 / d) in *.
  pose proof (Z.mul_div_le range 256 ltac:(lia)) as Hd1.
  pose proof (Z.div_mod 16777216 d ltac:(lia)) as HF1.
  pose proof (Z.mod_pos_bound 16777216 d ltac:(lia)) as HF2.
  fold d in Hd1. fold F in HF1.
  apply Z.div_le_lower_bound; [lia|]. nia.
Qed.

End WideRange.

Lemma shares_distribution (l : list Z) :
  Forall (fun o => 0 <= o) l -> 0 < total l ->
  Forall (fun s => 0 <= s <= FIXED_ONE) (shares l)
  /\ FIXED_ONE - Z.of_nat (length l) < total (shares l) <= FIXED_ONE.
Proof.
  intros Hall Hsum. rewrite FIXED_ONE_value. unfold shares.
  rewrite FIXED_ONE_value. split.
  - apply Forall_forall. intros s Hs. apply in_map_iff in Hs.
    destruct Hs as (o & <- & Ho).
    pose proof (total_nonneg_member l o Hall Ho) as Hle.
    split; [apply Z.div_pos; lia | apply Z.div_le_upper_bound; nia].
  - destruct (floor_shares 65536 (total l) l Hsum ltac:(lia) Hall)
      as [Hup Hdown].
    assert (1 <= Z.of_nat (length l)).
    { destruct l; [cbn in Hsum; lia | cbn [length]; lia]. }
    split; nia.
Qed.

Lemma normalize_outputs_rescales (outputs : list Z) (max_val min_val : Z) :
  (1 <= length outputs)%nat ->
  Z.of_nat (length outputs) <= MAX_OUTPUTS ->
  outputs_extent outputs (Z.of_nat (length outputs)) = Ok (max_val, min_val) ->
  In max_val outputs ->
  (forall o, In o outputs -> min_val <= o <= max_val) ->
  0 <= min_val -> max_val < 2 ^ 31 -> 256 <= max_val - min_val ->
  normalize_outputs outputs (Z.of_nat (length outputs))
  = Ok (shares (map (rescaled min_val (max_val - min_val)) outputs))
  /\ 0 < total (map (rescaled min_val (max_val - min_val)) outputs)
  /\ Forall (fun o => 0 <= o)
            (map (rescaled min_val (max_val - min_val)) outputs).
Proof.
  intros Hlen Hcap Hext Hmax Hall Hmin Hmax31 Hwide. unfold MAX_OUTPUTS in Hcap.
  destruct (rescale_factor max_val min_val Hmin Hmax31 Hwide)
    as (Hfactor & _ & _).
  set (g := rescaled min_val (max_val - min_val)).
  assert (Forall (fun o => 0 <= o < 131072) (map g outputs)) as Hscaled.
  { apply Forall_forall. intros v Hv. apply in_map_iff in Hv.
    destruct Hv as (o & <- & Ho).
    apply (rescale_value max_val min_val Hmin Hmax31 Hwide o (Hall o Ho)). }
  assert (Forall (fun o => 0 <= o) (map g outputs)) as Hnonneg
      by (eapply Forall_impl; [|exact Hscaled]; cbv beta; intros; lia).
  assert (0 < total (map g outputs)) as Hsum.
  { pose proof (rescale_of_max max_val min_val Hmin Hmax31 Hwide) as Hbig.
    assert (In (g max_val) (map g outputs)) as Hin
        by (apply in_map; exact Hmax).
    pose proof (total_nonneg_member _ _ Hnonneg Hin). subst g. lia. }
  split; [|split; [exact Hsum | exact Hnonneg]].
  unfold normalize_outputs. rewrite Hext. cbn [bind]. cbv zeta.
  change (2 ^ 31) with 2147483648 in Hmax31.
  destruct (Z.ltb_spec (to_int32 (max_val - min_val))
                       (float_to_fixed (f32_literal 1 1000))) as [Hlt|_].
  { rewrite fixed_0_001 in Hlt.
    rewrite to_int32_small in Hlt by within_int32. lia. }
  run_loop (fun (i : Z) (st : list Z * Z) =>
              exists done rest,
                outputs = done ++ rest
                /\ Z.of_nat (length done) = i
                /\ fst st = map g done ++ rest
                /\ snd st = total (map g done))
    as ([scaled sum] & -> & done & rest & Hsplit & Hdone & Hst & Hacc).
  - intros i [outs sum] Hi (done & rest & Hsplit & Hdone & Hst & Hacc).
    cbn [fst snd] in Hst, Hacc. cbv beta iota.
    destruct rest as [|x rest].
    { rewrite app_nil_r in Hsplit. subst outputs. lia. }
    assert (In x outputs) as Hx
        by (rewrite Hsplit; apply in_or_app; right; left; reflexivity).
    destruct (rescale_value max_val min_val Hmin Hmax31 Hwide x (Hall x Hx))
      as [Hvalue Hbound].
    cbv zeta in Hvalue. fold g in Hvalue, Hbound.
    assert (Z.of_nat (length (map g done)) = i) as Hmapped
        by (rewrite length_map; exact Hdone).
    rewrite Hst, <- Hmapped. rewrite array_get_middle. cbn [bind].
    rewrite Hfactor. cbn [bind]. rewrite Hvalue.
    assert (length outputs = length done + Datatypes.S (length rest))%nat
      as Hcount by (rewrite Hsplit, length_app; reflexivity).
    rewrite array_set_middle by (unfold MAX_OUTPUTS; lia). cbn [bind].
    eexists. split; [reflexivity|].
    exists (done ++ [x]), rest. cbn [fst snd].
    split; [rewrite <- app_assoc; exact Hsplit|].
    split; [rewrite length_app; cbn [length]; lia|].
    split; [rewrite map_app, <- app_assoc; reflexivity|].
    rewrite map_app, total_app. cbn [map total fold_right].
    assert (Forall (fun o => 0 <= o <= 131072) (map g done)) as Hdone_b.
    { rewrite Hsplit, map_app in Hscaled. apply Forall_app in Hscaled.
      destruct Hscaled as [Hd _].
      eapply Forall_impl; [|exact Hd]. cbv beta. intros; lia. }
    pose proof (total_bounds _ _ Hdone_b) as Htotal.
    rewrite length_map in Htotal.
    rewrite Hacc. rewrite to_int32_small by within_int32. lia.
  - lia.
  - exists [], outputs. repeat split.
  - cbn [fst snd] in Hst, Hacc.
    assert (rest = []) as ->.
    { destruct rest as [|x rest]; [reflexivity|].
      rewrite Hsplit, length_app in Hdone. cbn [length] in Hdone. lia. }
    rewrite app_nil_r in Hsplit, Hst. subst done.
    cbn [bind]. cbv beta iota. rewrite Hst, Hacc.
    destruct (Z.ltb_spec 0 (total (map g outputs))); [|lia].
    replace (Z.of_nat (length outputs))
      with (Z.of_nat (length (map g outputs))) by (rewrite length_map; lia).
    assert (Forall (fun o => 0 <= o <= 131072) (map g outputs)) as Hb
        by (eapply Forall_impl; [|exact Hscaled]; cbv beta; intros; lia).
    pose proof (total_bounds _ _ Hb) as Htotal. rewrite length_map in Htotal.
    rewrite for_range_in_place
      with (f := fun o => to_int32 (Z.quot (to_int64 (o * FIXED_ONE))
                                           (total (map g outputs)))).
    + f_equal. unfold shares. apply map_ext_in. intros o Ho.
      pose proof (total_nonneg_member _ _ Hnonneg Ho) as Hle.
      rewrite FIXED_ONE_value.
      rewrite to_int64_small by within_int64.
      rewrite Z.quot_div_nonneg by lia.
      apply to_int32_small. unfold is_int32. change (2 ^ 31) with 2147483648.
      assert (0 <= o * 65536 / total (map g outputs) <= 65536).
      { split; [apply Z.div_pos; lia | apply Z.div_le_upper_bound; nia]. }
      lia.
    + intros done rest prefix x Hsplit Hprefix.
      rewrite <- Hprefix. rewrite array_get_middle. cbn [bind].
      unfold sdiv.
      destruct (Z.eqb_spec (total (map g outputs)) 0); [lia|].
      destruct (Z.eqb_spec (total (map g outputs)) (-1)); [lia|].
      rewrite andb_false_r. cbn [bind].
      apply array_set_middle.
      assert (length (map g outputs)
              = length done + Datatypes.S (length rest))%nat
        by (rewrite Hsplit, length_app; reflexivity).
      rewrite length_map in *. unfold MAX_OUTPUTS. lia.
Qed.

Lemma total_repeat (u : Z) (n : nat) : total (repeat u n) = Z.of_nat n * u.
Proof.
  unfold total. induction n as [|n IH]; cbn [repeat fold_right]; lia.
Qed.

Lemma normalize_distribution (outputs : list Z) (max_val min_val : Z) :
  Forall is_magnitude outputs ->
  (1 <= length outputs)%nat ->
  Z.of_nat (length outputs) <= MAX_OUTPUTS ->
  outputs_extent outputs (Z.of_nat (length outputs)) = Ok (max_val, min_val) ->
  ~ float_to_fixed (f32_literal 1 1000) <= to_int32 (max_val - min_val) < 256 ->
  exists normalized,
    normalize_outputs outputs (Z.of_nat (length outputs)) = Ok normalized
    /\ length normalized = length outputs
    /\ Forall (fun s => 0 <= s <= FIXED_ONE) normalized
    /\ FIXED_ONE - Z.of_nat (length outputs) < total normalized <= FIXED_ONE.
Proof.
  intros Hmag Hlen Hcap Hext Hrange. rewrite fixed_0_001 in Hrange.
  destruct (outputs_extent_spec outputs Hlen)
    as (mx & mn & Hext' & Hmax & Hmin & Hall).
  rewrite Hext in Hext'. inversion Hext'; subst mx mn. clear Hext'.
  rewrite Forall_forall in Hmag. unfold is_magnitude in Hmag.
  pose proof (Hmag _ Hmax) as [_ Hmax31]. pose proof (Hmag _ Hmin) as [Hmin0 _].
  pose proof (Hall _ Hmax) as [Hle _].
  change (2 ^ 31) with 2147483648 in Hmax31.
  rewrite to_int32_small in Hrange by within_int32.
  assert (1 <= Z.of_nat (length outputs) <= MAX_OUTPUTS) as Hcount by lia.
  destruct (Z.lt_ge_cases (max_val - min_val) 65) as [Hnarrow|Hwide].
  - rewrite (normalize_outputs_uniform outputs _ max_val min_val Hcount
                                       eq_refl Hext)
      by (rewrite fixed_0_001, to_int32_small by within_int32; exact Hnarrow).
    destruct (uniform_share_range _ Hcount) as [Hshare Hclose].
    eexists. split; [reflexivity|].
    split; [apply repeat_length|]. split.
    + apply Forall_forall. intros s Hs. apply repeat_spec in Hs. subst s.
      exact Hshare.
    + rewrite total_repeat. lia.
  - destruct (normalize_outputs_rescales outputs max_val min_val Hlen Hcap
                                         Hext Hmax Hall Hmin0)
      as (Hrun & Hsum & Hnonneg);
      [change (2 ^ 31) with 2147483648; lia | lia|].
    destruct (shares_distribution _ Hnonneg Hsum) as [Hshares Htotal].
    rewrite length_map in Htotal.
    eexists. split; [exact Hrun|].
    split; [unfold shares; rewrite !length_map; reflexivity|].
    split; [exact Hshares | exact Htotal].
Qed.

(** Whenever [normalize_outputs] does not divide by zero, over the up to 8
    post-ReLU outputs of [run], what it leaves is a distribution: every
    output between 0 and FIXED_ONE, and a sum within [count] units below
    FIXED_ONE, never above it. *)
Theorem normalize_outputs_is_a_distribution
        (outputs : list Z) (max_val min_val : Z) :
  Forall is_magnitude outputs ->
  (1 <= length outputs)%nat ->
  Z.of_nat (length outputs) <= MAX_OUTPUTS ->
  outputs_extent outputs (Z.of_nat (length outputs)) = Ok (max_val, min_val) ->
  ~ float_to_fixed (f32_literal 1 1000) <= to_int32 (max_val - min_val) < 256 ->
  exists normalized,
    normalize_outputs outputs (Z.of_nat (length outputs)) = Ok normalized
    /\ length normalized = length outputs
    /\ Forall (fun s => 0 <= s <= FIXED_ONE) normalized
    /\ FIXED_ONE - Z.of_nat (length outputs) < total normalized <= FIXED_ONE.
Proof. apply normalize_distribution. Qed.

Lemma normalize_outputs_is_a_distribution_witness :
  exists normalized,
    normalize_outputs [0; 1000; 3000] 3 = Ok normalized
    /\ length normalized = 3%nat
    /\ Forall (fun s => 0 <= s <= FIXED_ONE) normalized
    /\ FIXED_ONE - 3 < total normalized <= FIXED_ONE.
Proof.
  apply (normalize_outputs_is_a_distribution [0; 1000; 3000] 3000 0).
  - repeat (constructor; [vm_compute; split; [discriminate | reflexivity]|]).
    constructor.
  - cbn. lia.
  - vm_compute. discriminate.
  - vm_compute. reflexivity.
  - rewrite fixed_0_001. vm_compute. intros [_ H]. discriminate H.
Defined.

(** On model parameters of the contracted shape, and unless the range of
    the raw outputs lies from the epsilon up to 255, [run] returns the
    first class whose normalized output is the largest, with that output
    as the confidence: the final clamp changes nothing, and the confidence
    is at least the mean share, one over the number of outputs, within
    rounding. *)
Theorem run_returns_the_winning_share
        (e : InferenceEngine) (features : list Z) :
  0 <= input_size e ->
  1 <= output_size e ->
  actual_outputs e * input_size e <= Z.of_nat (length (weights e)) <= SIZE_MAX ->
  actual_outputs e <= Z.of_nat (length (biases e)) ->
  input_size e <= Z.of_nat (length features) ->
  exists raw max_val min_val,
    raw_outputs e features = Ok raw
    /\ outputs_extent raw (actual_outputs e) = Ok (max_val, min_val)
    /\ (~ float_to_fixed (f32_literal 1 1000)
          <= to_int32 (max_val - min_val) < 256 ->
        exists normalized r,
          normalize_outputs raw (actual_outputs e) = Ok normalized
          /\ run e features (input_size e) = Ok r
          /\ 0 <= predicted_class r < actual_outputs e
          /\ confidence r = nth (Z.to_nat (predicted_class r)) normalized 0
          /\ (forall j, 0 <= j < actual_outputs e ->
                        nth (Z.to_nat j) normalized 0 <= confidence r)
          /\ (forall j, 0 <= j < predicted_class r ->
                        nth (Z.to_nat j) normalized 0 < confidence r)
          /\ FIXED_ONE - actual_outputs e < actual_outputs e * confidence r
          /\ confidence r <= FIXED_ONE).
Proof.
  intros Hin Hout Hweights Hbiases Hfeatures.
  pose proof (actual_outputs_range e Hout) as Hcount.
  destruct (raw_outputs_returns e features Hin Hout Hweights Hbiases Hfeatures)
    as (raw & Hraw & Hlen & Hmag).
  destruct (outputs_extent_returns raw) as (max_val & min_val & Hext & _);
    [lia|].
  exists raw, max_val, min_val.
  split; [exact Hraw|]. split; [rewrite <- Hlen; exact Hext|].
  intros Hrange.
  destruct (normalize_distribution raw max_val min_val Hmag ltac:(lia)
                                   ltac:(lia) Hext Hrange)
    as (normalized & Hnorm & Hnlen & Hshares & Htotal).
  rewrite Hlen in Hnorm, Htotal.
  destruct (argmax_spec normalized (actual_outputs e))
    as (cls & Hargmax & Hcls & Hbest & Hfirst);
    [unfold MAX_OUTPUTS in Hcount; lia | lia|].
  rewrite Forall_forall in Hshares.
  assert (0 <= nth (Z.to_nat cls) normalized 0 <= FIXED_ONE) as Hconf
      by (apply Hshares; apply nth_In; lia).
  exists normalized,
    {| confidence := nth (Z.to_nat cls) normalized 0; predicted_class := cls |}.
  cbn [confidence predicted_class].
  split; [exact Hnorm|]. split.
  { unfold run. rewrite Z.eqb_refl. cbn [negb]. rewrite Hraw. cbn [bind].
    rewrite Hnorm. cbn [bind]. rewrite Hargmax. cbn [bind].
    rewrite array_get_ok by lia. cbn [bind]. unfold clamp_confidence.
    destruct (Z.ltb_spec FIXED_ONE (nth (Z.to_nat cls) normalized 0)); [lia|].
    destruct (Z.ltb_spec (nth (Z.to_nat cls) normalized 0) 0); [lia|].
    reflexivity. }
  split; [exact Hcls|]. split; [reflexivity|].
  split; [exact Hbest|]. split; [exact Hfirst|]. split; [|lia].
  assert (Forall (fun s => 0 <= s <= nth (Z.to_nat cls) normalized 0)
                 normalized) as Hbound.
  { apply Forall_forall. intros s Hs. split; [apply (Hshares s Hs)|].
    destruct (In_nth normalized s 0 Hs) as (j & Hj & <-).
    specialize (Hbest (Z.of_nat j) ltac:(lia)).
    rewrite Nat2Z.id in Hbest. exact Hbest. }
  pose proof (total_bounds _ _ Hbound) as Hsum.
  rewrite Hnlen in Hsum. lia.
Qed.

Lemma run_returns_the_winning_share_witness :
  exists raw max_val min_val,
    raw_outputs two_class_engine [1280] = Ok raw
    /\ outputs_extent raw (actual_outputs two_class_engine)
       = Ok (max_val, min_val)
    /\ (~ float_to_fixed (f32_literal 1 1000)
          <= to_int32 (max_val - min_val) < 256 ->
        exists normalized r,
          normalize_outputs raw (actual_outputs two_class_engine)
          = Ok normalized
          /\ run two_class_engine [1280] (input_size two_class_engine) = Ok r
          /\ 0 <= predicted_class r < actual_outputs two_class_engine
          /\ confidence r = nth (Z.to_nat (predicted_class r)) normalized 0
          /\ (forall j, 0 <= j < actual_outputs two_class_engine ->
                        nth (Z.to_nat j) normalized 0 <= confidence r)
          /\ (forall j, 0 <= j < predicted_class r ->
                        nth (Z.to_nat j) normalized 0 < confidence r)
          /\ FIXED_ONE - actual_outputs two_class_engine
             < actual_outputs two_class_engine * confidence r
          /\ confidence r <= FIXED_ONE).
Proof.
  apply (run_returns_the_winning_share two_class_engine [1280]).
  - vm_compute. discriminate.
  - vm_compute. discriminate.
  - vm_compute. split; discriminate.
  - vm_compute. discriminate.
  - vm_compute. discriminate.
Defined.

(* ================================================================= *)
(** ** MockHAL: the battery and the counters *)

Lemma to_uint32_succ (x y : Z) : to_uint32 (to_uint32 x + y) = to_uint32 (x + y).
Proof.
  unfold to_uint32, wrap_unsigned. apply Zplus_mod_idemp_l.
Qed.

Lemma to_uint16_small (x : Z) : Mock.is_uint16 x -> Mock.to_uint16 x = x.
Proof.
  unfold Mock.is_uint16, Mock.to_uint16, wrap_unsigned. intros H.
  apply Z.mod_small. exact H.
Qed.

Lemma perform_battery (h : MockHAL) (c : Mock.call) :
  Mock.is_uint16 (battery_voltage_mv_ h) ->
  Z.min (battery_voltage_mv_ h) 2800
  <= battery_voltage_mv_ (Mock.perform h c) <= battery_voltage_mv_ h.
Proof.
  unfold Mock.is_uint16. change (2 ^ 16) with 65536. intros Hb.
  destruct c as [duration_ms|alert_type confidence];
    cbn [Mock.perform Mock.enter_sleep Mock.transmit_alert snd
         battery_voltage_mv_].
  - destruct (Z.ltb_spec 2800 (battery_voltage_mv_ h)); [|lia].
    rewrite to_uint16_small
      by (unfold Mock.is_uint16; change (2 ^ 16) with 65536; lia).
    lia.
  - destruct (Z.ltb_spec 2900 (battery_voltage_mv_ h)); [|lia].
    rewrite to_uint16_small
      by (unfold Mock.is_uint16; change (2 ^ 16) with 65536; lia).
    lia.
Qed.

(** Over any run of sleeps and transmissions the simulated battery only
    falls, and never below 2800 mV unless it started there; the subtraction
    on uint16_t never wraps.  The two counters count, modulo 2^32: the
    transmissions, each of which writes one line, and the milliseconds
    slept.  The wake flag is left alone. *)
Theorem mock_battery_drains_to_a_floor (h : MockHAL) (calls : list Mock.call) :
  Mock.is_uint16 (battery_voltage_mv_ h) ->
  is_uint32 (transmit_count_ h) ->
  is_uint32 (total_sleep_ms_ h) ->
  let h' := Mock.perform_all h calls in
  Z.min (battery_voltage_mv_ h) 2800
  <= Mock.get_battery_voltage_mv h' <= battery_voltage_mv_ h
  /\ Mock.get_transmit_count h'
     = to_uint32 (transmit_count_ h + Mock.transmissions calls)
  /\ Mock.get_total_sleep_ms h'
     = to_uint32 (total_sleep_ms_ h + Mock.slept calls)
  /\ Z.of_nat (length (console h'))
     = Z.of_nat (length (console h)) + Mock.transmissions calls
  /\ Mock.is_wake_event_pending h' = wake_event_pending_ h.
Proof.
  unfold Mock.perform_all, Mock.get_battery_voltage_mv, Mock.get_transmit_count,
    Mock.get_total_sleep_ms, Mock.is_wake_event_pending.
  revert h. induction calls as [|c calls IH]; intros h Hb Htx Hsleep; cbv zeta.
  - cbn [fold_left]. unfold Mock.transmissions, Mock.slept.
    cbn [filter map fold_right length Z.of_nat].
    rewrite !Z.add_0_r, !to_uint32_small by assumption.
    unfold Mock.is_uint16 in Hb. change (2 ^ 16) with 65536 in Hb.
    repeat split; lia.
  - cbn [fold_left].
    pose proof (perform_battery h c Hb) as Hstep.
    assert (Mock.is_uint16 (battery_voltage_mv_ (Mock.perform h c))) as Hb1.
    { unfold Mock.is_uint16 in *. change (2 ^ 16) with 65536 in *. lia. }
    assert (transmit_count_ (Mock.perform h c)
            = to_uint32 (transmit_count_ h
                         + (if Mock.is_transmission c then 1 else 0))) as Htx1.
    { destruct c; cbn; [rewrite Z.add_0_r, to_uint32_small by assumption|];
        reflexivity. }
    assert (total_sleep_ms_ (Mock.perform h c)
            = to_uint32 (total_sleep_ms_ h + Mock.sleep_of c)) as Hsleep1.
    { destruct c; cbn; [|rewrite Z.add_0_r, to_uint32_small by assumption];
        reflexivity. }
    assert (Z.of_nat (length (console (Mock.perform h c)))
            = Z.of_nat (length (console h))
              + (if Mock.is_transmission c then 1 else 0)) as Hlines.
    { destruct c; cbn [Mock.perform Mock.enter_sleep Mock.transmit_alert snd
                       console Mock.is_transmission];
        [lia | rewrite length_app; cbn [length]; lia]. }
    assert (wake_event_pending_ (Mock.perform h c) = wake_event_pending_ h)
      as Hwake by (destruct c; reflexivity).
    assert (forall x, is_uint32 (to_uint32 x)) as Hrange.
    { intros x. unfold is_uint32, to_uint32, wrap_unsigned.
      apply Z.mod_pos_bound. reflexivity. }
    destruct (IH (Mock.perform h c) Hb1) as (Hbat & Hcount & Hms & Hcon & Hw).
    { rewrite Htx1. apply Hrange. }
    { rewrite Hsleep1. apply Hrange. }
    cbv zeta in Hbat, Hcount, Hms, Hcon, Hw.
    assert (Mock.transmissions (c :: calls)
            = (if Mock.is_transmission c then 1 else 0)
              + Mock.transmissions calls) as ->.
    { unfold Mock.transmissions. cbn [filter].
      destruct (Mock.is_transmission c); cbn [length]; lia. }
    assert (Mock.slept (c :: calls) = Mock.sleep_of c + Mock.slept calls)
      as -> by reflexivity.
    split; [lia|]. split.
    { rewrite Hcount, Htx1, to_uint32_succ. f_equal. lia. }
    split.
    { rewrite Hms, Hsleep1, to_uint32_succ. f_equal. lia. }
    split; [lia|]. congruence.
Qed.

Lemma mock_battery_drains_to_a_floor_witness :
  let h := Mock.create 2905 in
  let calls := [Mock.TransmitAlert 1 90; Mock.EnterSleep 1000;
                Mock.TransmitAlert 0 60] in
  let h' := Mock.perform_all h calls in
  Z.min (battery_voltage_mv_ h) 2800
  <= Mock.get_battery_voltage_mv h' <= battery_voltage_mv_ h
  /\ Mock.get_transmit_count h'
     = to_uint32 (transmit_count_ h + Mock.transmissions calls)
  /\ Mock.get_total_sleep_ms h'
     = to_uint32 (total_sleep_ms_ h + Mock.slept calls)
  /\ Z.of_nat (length (console h'))
     = Z.of_nat (length (console h)) + Mock.transmissions calls
  /\ Mock.is_wake_event_pending h' = wake_event_pending_ h.
Proof.
  apply (mock_battery_drains_to_a_floor
           (Mock.create 2905)
           [Mock.TransmitAlert 1 90; Mock.EnterSleep 1000;
            Mock.TransmitAlert 0 60]).
  - vm_compute. split; [discriminate | reflexivity].
  - vm_compute. split; [discriminate | reflexivity].
  - vm_compute. split; [discriminate | reflexivity].
Defined.

(* ================================================================= *)
(** ** main.cpp: the loop over the scenarios *)

Lemma decided_cons (config : ThresholdConfig) (d : Decision)
      (scenario : Demo.DemoScenario) (scenarios : list Demo.DemoScenario) :
  Demo.decided config d (scenario :: scenarios)
  = (if Render.decision_value (Demo.decision_of config scenario)
        =? Render.decision_value d then 1 else 0)
    + Demo.decided config d scenarios.
Proof.
  unfold Demo.decided. cbn [filter].
  destruct (Render.decision_value (Demo.decision_of config scenario)
            =? Render.decision_value d); cbn [length]; lia.
Qed.

Lemma decided_range (config : ThresholdConfig) (d : Decision)
      (scenarios : list Demo.DemoScenario) :
  0 <= Demo.decided config d scenarios <= Z.of_nat (length scenarios).
Proof.
  unfold Demo.decided. pose proof (filter_length_le
    (fun scenario => Render.decision_value (Demo.decision_of config scenario)
                     =? Render.decision_value d) scenarios).
  lia.
Qed.

Lemma decided_partition (config : ThresholdConfig)
      (scenarios : list Demo.DemoScenario) :
  Demo.decided config TX_UNCERTAIN scenarios
  + Demo.decided config TX_ALERT scenarios
  + Demo.decided config SLEEP scenarios
  = Z.of_nat (length scenarios).
Proof.
  induction scenarios as [|scenario scenarios IH].
  - reflexivity.
  - rewrite !decided_cons. cbn [length]. rewrite Nat2Z.inj_succ.
    destruct (Demo.decision_of config scenario);
      cbn [Render.decision_value Z.eqb Pos.eqb]; lia.
Qed.

(** The loop from any counters that leave room for the scenarios. *)
Lemma demo_fold (config : ThresholdConfig)
      (scenarios : list Demo.DemoScenario) :
  forall (tally : Demo.Tally) (mock_hal : MockHAL),
    0 <= Demo.tx_uncertain_count tally ->
    0 <= Demo.tx_alert_count tally ->
    0 <= Demo.sleep_count tally ->
    Demo.tx_uncertain_count tally + Z.of_nat (length scenarios) < 2 ^ 32 ->
    Demo.tx_alert_count tally + Z.of_nat (length scenarios) < 2 ^ 32 ->
    Demo.sleep_count tally + Z.of_nat (length scenarios) < 2 ^ 32 ->
    is_uint32 (transmit_count_ mock_hal) ->
    is_uint32 (total_sleep_ms_ mock_hal) ->
    let result := fold_left (Demo.demo_step config) scenarios (tally, mock_hal) in
    Demo.tx_uncertain_count (fst result)
    = Demo.tx_uncertain_count tally
      + Demo.decided config TX_UNCERTAIN scenarios
    /\ Demo.tx_alert_count (fst result)
       = Demo.tx_alert_count tally + Demo.decided config TX_ALERT scenarios
    /\ Demo.sleep_count (fst result)
       = Demo.sleep_count tally + Demo.decided config SLEEP scenarios
    /\ transmit_count_ (snd result)
       = to_uint32 (transmit_count_ mock_hal
                    + Demo.decided config TX_UNCERTAIN scenarios
                    + Demo.decided config TX_ALERT scenarios)
    /\ total_sleep_ms_ (snd result)
       = to_uint32 (total_sleep_ms_ mock_hal
                    + 1000 * Demo.decided config SLEEP scenarios).
Proof.
  assert (forall x, is_uint32 (to_uint32 x)) as Hrange.
  { intros x. unfold is_uint32, to_uint32, wrap_unsigned.
    apply Z.mod_pos_bound. reflexivity. }
  induction scenarios as [|scenario scenarios IH];
    intros tally mock_hal Hu Ha Hs Hu' Ha' Hs' Htx Hms; cbv zeta.
  - cbn [fold_left fst snd].
    change (Demo.decided config TX_UNCERTAIN []) with 0.
    change (Demo.decided config TX_ALERT []) with 0.
    change (Demo.decided config SLEEP []) with 0.
    rewrite !Z.add_0_r.
    rewrite !to_uint32_small by assumption.
    repeat split; reflexivity.
  - cbn [fold_left]. cbn [length] in Hu', Ha', Hs'.
    rewrite !decided_cons.
    pose proof (decided_range config TX_UNCERTAIN scenarios) as Hdu.
    pose proof (decided_range config TX_ALERT scenarios) as Hda.
    pose proof (decided_range config SLEEP scenarios) as Hds.
    assert (Demo.demo_step config (tally, mock_hal) scenario
            = Demo.demo_step config (tally, mock_hal) scenario) as Hstep
        by reflexivity.
    unfold Demo.demo_step at 2 in Hstep.
    destruct (Demo.decision_of config scenario) eqn:Hd; rewrite Hstep;
      cbn [Render.decision_value Z.eqb Pos.eqb];
      rewrite to_uint32_small by (unfold is_uint32; lia).
    + (* SLEEP *)
      destruct (IH (Demo.mkTally (Demo.tx_uncertain_count tally)
                                 (Demo.tx_alert_count tally)
                                 (Demo.sleep_count tally + 1))
                   (Mock.enter_sleep
                      (Mock.set_battery_voltage mock_hal
                                                (Demo.battery_mv scenario))
                      1000))
        as (H1 & H2 & H3 & H4 & H5);
        cbn [Demo.tx_uncertain_count Demo.tx_alert_count Demo.sleep_count
             Mock.enter_sleep Mock.set_battery_voltage transmit_count_
             total_sleep_ms_];
        try assumption; try lia; try apply Hrange.
      cbv zeta in H1, H2, H3, H4, H5.
      cbn [Demo.tx_uncertain_count Demo.tx_alert_count Demo.sleep_count
           Mock.enter_sleep Mock.set_battery_voltage transmit_count_
           total_sleep_ms_] in H1, H2, H3, H4, H5.
      rewrite H1, H2, H3, H4, H5, to_uint32_succ.
      repeat split; try lia; f_equal; lia.
    + (* TX_ALERT *)
      destruct (IH (Demo.mkTally (Demo.tx_uncertain_count tally)
                                 (Demo.tx_alert_count tally + 1)
                                 (Demo.sleep_count tally))
                   (snd (Mock.transmit_alert
                           (Mock.set_battery_voltage mock_hal
                                                     (Demo.battery_mv scenario))
                           1 (Demo.percent_of (Demo.confidence scenario)))))
        as (H1 & H2 & H3 & H4 & H5);
        cbn [Demo.tx_uncertain_count Demo.tx_alert_count Demo.sleep_count
             Mock.transmit_alert Mock.set_battery_voltage transmit_count_
             total_sleep_ms_ snd];
        try assumption; try lia; try apply Hrange.
      cbv zeta in H1, H2, H3, H4, H5.
      cbn [Demo.tx_uncertain_count Demo.tx_alert_count Demo.sleep_count
           Mock.transmit_alert Mock.set_battery_voltage transmit_count_
           total_sleep_ms_ snd] in H1, H2, H3, H4, H5.
      rewrite <- Z.add_assoc, to_uint32_succ in H4.
      rewrite H1, H2, H3, H4, H5.
      repeat split; try lia; f_equal; lia.
    + (* TX_UNCERTAIN *)
      destruct (IH (Demo.mkTally (Demo.tx_uncertain_count tally + 1)
                                 (Demo.tx_alert_count tally)
                                 (Demo.sleep_count tally))
                   (snd (Mock.transmit_alert
                           (Mock.set_battery_voltage mock_hal
                                                     (Demo.battery_mv scenario))
                           0 (Demo.percent_of (Demo.confidence scenario)))))
        as (H1 & H2 & H3 & H4 & H5);
        cbn [Demo.tx_uncertain_count Demo.tx_alert_count Demo.sleep_count
             Mock.transmit_alert Mock.set_battery_voltage transmit_count_
             total_sleep_ms_ snd];
        try assumption; try lia; try apply Hrange.
      cbv zeta in H1, H2, H3, H4, H5.
      cbn [Demo.tx_uncertain_count Demo.tx_alert_count Demo.sleep_count
           Mock.transmit_alert Mock.set_battery_voltage transmit_count_
           total_sleep_ms_ snd] in H1, H2, H3, H4, H5.
      rewrite <- Z.add_assoc, to_uint32_succ in H4.
      rewrite H1, H2, H3, H4, H5.
      repeat split; try lia; f_equal; lia.
Qed.

(** The three counters of the loop hold the number of scenarios decided
    each way, so they add up to the number of scenarios; the mock has
    counted one transmission for each TX_UNCERTAIN and TX_ALERT, and has
    slept 1000 ms for each SLEEP. *)
Theorem demo_counters_count_the_decisions
        (config : ThresholdConfig) (scenarios : list Demo.DemoScenario)
        (mock_hal : MockHAL) :
  Z.of_nat (length scenarios) < 2 ^ 32 ->
  is_uint32 (transmit_count_ mock_hal) ->
  is_uint32 (total_sleep_ms_ mock_hal) ->
  let tally := fst (Demo.demo_loop config scenarios mock_hal) in
  let mock_hal' := snd (Demo.demo_loop config scenarios mock_hal) in
  Demo.tx_uncertain_count tally = Demo.decided config TX_UNCERTAIN scenarios
  /\ Demo.tx_alert_count tally = Demo.decided config TX_ALERT scenarios
  /\ Demo.sleep_count tally = Demo.decided config SLEEP scenarios
  /\ Demo.tx_uncertain_count tally + Demo.tx_alert_count tally
     + Demo.sleep_count tally
     = Z.of_nat (length scenarios)
  /\ Mock.get_transmit_count mock_hal'
     = to_uint32 (transmit_count_ mock_hal + Demo.tx_uncertain_count tally
                  + Demo.tx_alert_count tally)
  /\ Mock.get_total_sleep_ms mock_hal'
     = to_uint32 (total_sleep_ms_ mock_hal + 1000 * Demo.sleep_count tally).
Proof.
  intros Hlen Htx Hms. cbv zeta. unfold Demo.demo_loop.
  destruct (demo_fold config scenarios (Demo.mkTally 0 0 0) mock_hal)
    as (Hu & Ha & Hs & Hcount & Hslept);
    cbn [Demo.tx_uncertain_count Demo.tx_alert_count Demo.sleep_count];
    try lia; try assumption.
  cbv zeta in Hu, Ha, Hs, Hcount, Hslept.
  cbn [Demo.tx_uncertain_count Demo.tx_alert_count Demo.sleep_count]
    in Hu, Ha, Hs.
  rewrite Z.add_0_l in Hu, Ha, Hs.
  unfold Mock.get_transmit_count, Mock.get_total_sleep_ms.
  rewrite Hu, Ha, Hs, Hcount, Hslept.
  repeat split; try reflexivity.
  apply decided_partition.
Qed.

Lemma demo_counters_count_the_decisions_witness :
  let config := DecisionPolicy.get_default_config in
  let mock_hal := Mock.create BATTERY_NOMINAL_MV in
  let tally := fst (Demo.demo_loop config Demo.scenarios mock_hal) in
  let mock_hal' := snd (Demo.demo_loop config Demo.scenarios mock_hal) in
  Demo.tx_uncertain_count tally
  = Demo.decided config TX_UNCERTAIN Demo.scenarios
  /\ Demo.tx_alert_count tally = Demo.decided config TX_ALERT Demo.scenarios
  /\ Demo.sleep_count tally = Demo.decided config SLEEP Demo.scenarios
  /\ Demo.tx_uncertain_count tally + Demo.tx_alert_count tally
     + Demo.sleep_count tally
     = Z.of_nat (length Demo.scenarios)
  /\ Mock.get_transmit_count mock_hal'
     = to_uint32 (transmit_count_ mock_hal + Demo.tx_uncertain_count tally
                  + Demo.tx_alert_count tally)
  /\ Mock.get_total_sleep_ms mock_hal'
     = to_uint32 (total_sleep_ms_ mock_hal + 1000 * Demo.sleep_count tally).
Proof.
  apply (demo_counters_count_the_decisions
           DecisionPolicy.get_default_config Demo.scenarios
           (Mock.create BATTERY_NOMINAL_MV)).
  - vm_compute. reflexivity.
  - vm_compute. split; [discriminate | reflexivity].
  - vm_compute. split; [discriminate | reflexivity].
Defined.

(** What the demo of [main] shows: every scenario of the first phase is
    decided TX_UNCERTAIN, every one of the second SLEEP, every one of the
    third TX_ALERT.  It prints 4, 4 and 4, then 8 transmissions and 4000 ms
    of sleep; the eight lines of the mock carry the percentages 55, 58, 52,
    60, 98, 99, 98 and 99, and the mock is left at 2550 mV. *)
Theorem demo_shows_the_three_phases :
  Forall (fun scenario =>
            Demo.decision_of DecisionPolicy.get_default_config scenario
            = TX_UNCERTAIN) Demo.morning
  /\ Forall (fun scenario =>
               Demo.decision_of DecisionPolicy.get_default_config scenario
               = SLEEP) Demo.evening
  /\ Forall (fun scenario =>
               Demo.decision_of DecisionPolicy.get_default_config scenario
               = TX_ALERT) Demo.damage
  /\ fst Demo.main = Demo.mkTally 4 4 4
  /\ Mock.get_transmit_count (snd Demo.main) = 8
  /\ Mock.get_total_sleep_ms (snd Demo.main) = 4000
  /\ map percent (console (snd Demo.main)) = [55; 58; 52; 60; 98; 99; 98; 99]
  /\ map confirmed (console (snd Demo.main))
     = [false; false; false; false; true; true; true; true]
  /\ Mock.get_battery_voltage_mv (snd Demo.main) = 2550.
Proof.
  split; [repeat constructor; vm_compute; reflexivity|].
  split; [repeat constructor; vm_compute; reflexivity|].
  split; [repeat constructor; vm_compute; reflexivity|].
  vm_compute. repeat split; reflexivity.
Qed.

(* ================================================================= *)
(** ** hal_stm32.cpp: the samples of the driver *)




